(** * midi-parquet: extraction of MIDI payloads from archives into a table

    A shallow embedding of [src/main.py].  Pure Python functions are Rocq
    functions; code that prints, raises or touches the file system runs in
    a small state-and-exception monad [M]; everything the program learns
    from its environment (directory tests, [glob], [tarfile], [zipfile],
    the process pool, the parquet writer, whether polars makes a frame
    of the rows and in which order it leaves groups of equal count) is
    gathered in a [World].

    Conventions
    - Python [str] is [string]; only ASCII letters have a case, so [lower]
      is ASCII lower-casing (no code point outside ASCII lower-cases to a
      string ending in one of the letters of ".mid" / ".midi").
    - Python [bytes] is [list byte]; Python [int] is [Z].
    - [print] lines are structured [event]s, one constructor per format
      string of the source. *)

From Stdlib Require Import String Ascii List ZArith Lia Bool Permutation.
From Stdlib Require Import Strings.Byte.
From Stdlib Require Import Sorted DecimalString.
Import ListNotations.

Local Open Scope string_scope.
Local Open Scope list_scope.
Local Open Scope Z_scope.

(* ===================================================================== *)
(** * Part I. Definitions                                                 *)
(* ===================================================================== *)

(** ** Python string operations used by the source *)

Module PyStr.

(** [ord('A') <= ord(c) <= ord('Z')] gives [chr(ord(c) + 32)]. *)
Definition lower_char (c : ascii) : ascii :=
  let n := nat_of_ascii c in
  if ((65 <=? n)%nat && (n <=? 90)%nat)%bool
  then ascii_of_nat (n + 32) else c.

(** [s.lower()] *)
Fixpoint lower (s : string) : string :=
  match s with
  | EmptyString => EmptyString
  | String c s' => String (lower_char c) (lower s')
  end.

(** [s.startswith(p)] *)
Fixpoint startswith (s p : string) {struct p} : bool :=
  match p with
  | EmptyString => true
  | String a p' =>
      match s with
      | EmptyString => false
      | String b s' => (Ascii.eqb a b && startswith s' p')%bool
      end
  end.

(** [s.endswith(suf)]: some tail of [s] is [suf]. *)
Fixpoint endswith (s suf : string) : bool :=
  if String.eqb s suf then true
  else match s with
       | EmptyString => false
       | String _ s' => endswith s' suf
       end.

(** [s.rfind(c)] for a one-character needle; Python's [-1] is [None]. *)
Fixpoint rfind (s : string) (c : ascii) : option nat :=
  match s with
  | EmptyString => None
  | String a s' =>
      match rfind s' c with
      | Some i => Some (S i)
      | None => if Ascii.eqb a c then Some 0%nat else None
      end
  end.

(** [s[:i]] *)
Fixpoint take (i : nat) (s : string) : string :=
  match i, s with
  | S i', String c s' => String c (take i' s')
  | _, _ => EmptyString
  end.

(** [s[i:]] *)
Fixpoint drop (i : nat) (s : string) : string :=
  match i, s with
  | S i', String _ s' => drop i' s'
  | _, _ => s
  end.

(** [s.replace(old, new)] for a non-empty [old]: occurrences are found
    left to right and do not overlap.  [skip] counts the characters of
    the occurrence just replaced that are still to be passed over. *)
Fixpoint replace_from (old new : string) (skip : nat) (s : string) : string :=
  match s with
  | EmptyString => EmptyString
  | String c s' =>
      match skip with
      | S k => replace_from old new k s'
      | O =>
          if startswith s old
          then (new ++ replace_from old new (String.length old - 1) s')%string
          else String c (replace_from old new 0 s')
      end
  end.

Definition replace (s old new : string) : string :=
  replace_from old new 0 s.

(** [s in t] *)
Fixpoint contains (t s : string) : bool :=
  if startswith t s then true
  else match t with
       | EmptyString => false
       | String _ t' => contains t' s
       end.

End PyStr.

(** ** [os.path] and [pathlib] *)

Definition Path := string.

Module PyPath.

(** [os.path.basename(p)]: what follows the last slash. *)
Definition basename (p : string) : string :=
  match PyStr.rfind p "/"%char with
  | Some i => PyStr.drop (S i) p
  | None => p
  end.

(** [os.path.join(a, b)] for a relative [b]. *)
Definition join (a b : string) : string :=
  if (String.eqb a "" || PyStr.endswith a "/")%bool
  then (a ++ b)%string else (a ++ "/" ++ b)%string.

(** [Path.name]: the final component. *)
Definition name (p : Path) : string := basename p.

(** [Path.suffix]:
    [i = name.rfind('.'); name[i:] if 0 < i < len(name) - 1 else ''] *)
Definition suffix (p : Path) : string :=
  let nm := name p in
  match PyStr.rfind nm "."%char with
  | Some i =>
      if ((0 <? i)%nat && (i <? String.length nm - 1)%nat)%bool
      then PyStr.drop i nm else ""%string
  | None => ""%string
  end.

(** [Path.stem]:
    [i = name.rfind('.'); name[:i] if 0 < i < len(name) - 1 else name] *)
Definition stem (p : Path) : string :=
  let nm := name p in
  match PyStr.rfind nm "."%char with
  | Some i =>
      if ((0 <? i)%nat && (i <? String.length nm - 1)%nat)%bool
      then PyStr.take i nm else nm
  | None => nm
  end.

(** [Path.parent] of a path with no trailing slash. *)
Definition parent (p : Path) : Path :=
  match PyStr.rfind p "/"%char with
  | Some O => "/"%string
  | Some i => PyStr.take i p
  | None => "."%string
  end.

End PyPath.

(** ** Group names (first line of each extraction function) *)

(** [group = tar_path.stem.replace('.tar', '')] *)
Definition tar_group (tar_path : Path) : string :=
  PyStr.replace (PyPath.stem tar_path) ".tar" "".

(** [group = zip_path.stem] *)
Definition zip_group (zip_path : Path) : string :=
  PyPath.stem zip_path.

(** ** Size buckets *)

Definition get_size_category (size_bytes : Z) : string :=
  if size_bytes <? 1024 then "< 1KB"%string
  else if size_bytes <? 10 * 1024 then "1KB - 10KB"%string
  else if size_bytes <? 100 * 1024 then "10KB - 100KB"%string
  else if size_bytes <? 1024 * 1024 then "100KB - 1MB"%string
  else "> 1MB"%string.

Definition size_categories : list string :=
  ["< 1KB"; "1KB - 10KB"; "10KB - 100KB"; "100KB - 1MB"; "> 1MB"]%string.

(** ** Exceptions, console output and file-system effects *)

(** A Python exception caught by [except Exception as e]; the string is
    what [{e}] prints. *)
Inductive exn : Type :=
| Exception (msg : string).

Inductive result (A : Type) : Type :=
| Ok (a : A)
| Raise (e : exn).
Arguments Ok {A} a.
Arguments Raise {A} e.

Definition bytes := list byte.

(** [len(content)] *)
Definition len {A : Type} (l : list A) : Z := Z.of_nat (List.length l).

(** One extracted payload: the tuple
    [(group, file_name, content, file_size)] an extraction function
    appends, and the row [{'group': ..., 'file_name': ..., 'content': ...,
    'file_size': ...}] of the data frame. *)
Record Row : Type := mkRow {
  group : string;
  file_name : string;
  content : bytes;
  file_size : Z
}.

Definition Table := list Row.

(** [df.height] *)
Definition height (df : Table) : Z := len df.

(** The lines the program prints.  Each constructor stands for one format
    string of [src/main.py] and keeps the interpolated values. *)
Inductive event : Type :=
| WarnRead (archive : Path) (file_name : string) (e : exn)
    (* 警告: 无法从 {archive} 中读取 {file_name}: {e} *)
| ErrOpenTar (tar_path : Path) (e : exn)
    (* 错误: 无法打开 tar 文件 {tar_path}: {e} *)
| ErrOpenZip (zip_path : Path) (e : exn)
    (* 错误: 无法打开 zip 文件 {zip_path}: {e} *)
| UsingWorkers (max_workers : Z) (n_archives : Z)
    (* 使用 {max_workers} 个进程并行处理 {len(archives)} 个压缩包 *)
| TaskError (archive : Path) (e : exn)
    (* 处理 {archive} 时出错: {e} *)
| WarnNoMidi
    (* 警告: 没有找到任何MIDI文件 *)
| NoDataToSave
    (* 没有数据可保存 *)
| Saving (output_path : Path)
    (* 保存数据到 {output_path} *)
| Saved (n_records : Z) (output_path : Path)
    (* 成功保存 {df.height} 条记录到 {output_path} *)
| ErrInputMissing (input_dir : Path)
    (* 错误: 输入目录不存在: {input_dir} *)
| ErrNotDir (input_dir : Path)
    (* 错误: {input_dir} 不是一个目录 *)
| Searching (input_dir : Path)
    (* 搜索目录: {input_dir} *)
| NoArchives (input_dir : Path)
    (* 在 {input_dir} 中没有找到任何 tar.gz 或 zip 文件 *)
| FoundArchives (n : Z)
    (* 找到 {len(archives)} 个压缩包 *)
| NoMidiFound
    (* 没有找到任何MIDI文件 *)
| TotalFound (n : Z)
    (* 总共找到 {df.height} 个MIDI文件 *)
| GroupHeader
    (* 分组统计: *)
| GroupLine (group : string) (count : Z) (total_size : Z)
    (* {group}: {count} 个文件, 总大小: {format_size(total_size)} *)
| PlotBar (categories : list string) (counts : list Z)
    (* the banner and the plotext bar chart *)
| DetailStats (total_files total_size avg_size max_size min_size : Z)
    (* 总文件数 / 总大小 / 平均大小 / 最大文件 / 最小文件 *)
| CategoryHeader
    (* 按大小分类: *)
| CategoryLine (size_category : string) (count : Z) (total_files : Z).
    (* {size_category}: {count} 个文件 ({count / total_files * 100}%) *)

(** What the program does to the file system. *)
Inductive fs_op : Type :=
| Mkdir (dir : Path)
    (* dir.mkdir(parents=True, exist_ok=True) *)
| WriteParquet (output_path : Path) (df : Table)
               (compression : string) (compression_level : Z)
               (partition_by : string).

Record OS : Type := mkOS {
  stdout : list event;
  fs_ops : list fs_op
}.

(** ** The monad: state with exceptions; the state survives a [Raise] *)

Definition M (S A : Type) : Type := S -> result A * S.

Definition ret {S A : Type} (a : A) : M S A :=
  fun s => (Ok a, s).

Definition bind {S A B : Type} (m : M S A) (k : A -> M S B) : M S B :=
  fun s =>
    match m s with
    | (Ok a, s') => k a s'
    | (Raise e, s') => (Raise e, s')
    end.

Definition raise {S A : Type} (e : exn) : M S A :=
  fun s => (Raise e, s).

(** A call into a library whose outcome the environment has fixed. *)
Definition call {S A : Type} (r : result A) : M S A :=
  fun s => (r, s).

Definition modify {S : Type} (f : S -> S) : M S unit :=
  fun s => (Ok tt, f s).

(** [try: body  except Exception as e: handler(e)] *)
Definition try_except {S A : Type} (body : M S A) (handler : exn -> M S A)
  : M S A :=
  fun s =>
    match body s with
    | (Ok a, s') => (Ok a, s')
    | (Raise e, s') => handler e s'
    end.

Declare Scope monad_scope.
Delimit Scope monad_scope with monad.
Notation "x <- m ;; k" := (bind m (fun x => k))
  (at level 61, m at next level, right associativity) : monad_scope.
Notation "m ;; k" := (bind m (fun _ => k))
  (at level 61, right associativity) : monad_scope.
Local Open Scope monad_scope.

(** [for x in xs: body(x)] *)
Fixpoint for_ {S A : Type} (xs : list A) (body : A -> M S unit) : M S unit :=
  match xs with
  | [] => ret tt
  | x :: xs' => body x ;; for_ xs' body
  end.

(** A function-local mutable list ([results = []], [data = []]): the body
    runs with the list next to the outer state, and the list is read back
    when the body is over. *)
Definition with_list {S R : Type} (body : M (list R * S) unit) : M S (list R) :=
  fun s =>
    match body ([], s) with
    | (Ok _, (l, s')) => (Ok l, s')
    | (Raise e, (_, s')) => (Raise e, s')
    end.

(** [the_list.append(x)] *)
Definition append {S R : Type} (x : R) : M (list R * S) unit :=
  modify (fun st => (fst st ++ [x], snd st)).

(** Running an outer-state action inside a [with_list] body. *)
Definition lift {S R A : Type} (m : M S A) : M (list R * S) A :=
  fun st =>
    match m (snd st) with
    | (r, s') => (r, (fst st, s'))
    end.

Class Console (S : Type) : Type := emit : event -> S -> S.

#[export] Instance Console_OS : Console OS :=
  fun ev s => mkOS (stdout s ++ [ev]) (fs_ops s).

#[export] Instance Console_frame {R S : Type} `{Console S} : Console (list R * S) :=
  fun ev st => (fst st, emit ev (snd st)).

(** [print(...)] *)
Definition print {S : Type} `{Console S} (ev : event) : M S unit :=
  modify (emit ev).

(** ** The environment *)

(** [file_obj.read()] *)
Record FileObj : Type := mkFileObj {
  read : result bytes
}.

(** A [tarfile.TarInfo] with the outcome of [tar.extractfile(member)]. *)
Record TarInfo : Type := mkTarInfo {
  tar_name : string;                       (* member.name *)
  isfile : bool;                           (* member.isfile() *)
  extractfile : result (option FileObj)
}.

Record TarFile : Type := mkTarFile {
  getmembers : result (list TarInfo)
}.

(** A [zipfile.ZipInfo] with the outcome of [zip_file.read(file_info)]. *)
Record ZipInfo : Type := mkZipInfo {
  filename : string;                       (* file_info.filename *)
  is_dir : bool;                           (* file_info.is_dir() *)
  zip_read : result bytes
}.

Record ZipFile : Type := mkZipFile {
  infolist : list ZipInfo
}.

Record World : Type := mkWorld {
  cpu_count : Z;                                   (* mp.cpu_count() *)
  resolve : string -> Path;                        (* Path(s).expanduser().resolve() *)
  path_exists : Path -> bool;                      (* p.exists() *)
  path_is_dir : Path -> bool;                      (* p.is_dir() *)
  glob : string -> list string;                    (* glob.glob(pat, recursive=True) *)
  tarfile_open : Path -> result TarFile;           (* tarfile.open(p, 'r:gz') *)
  zipfile_ZipFile : Path -> result ZipFile;        (* zipfile.ZipFile(p, 'r') *)
  mkdir_parents : Path -> result unit;             (* p.mkdir(parents=True, exist_ok=True) *)
  write_parquet : Path -> Table -> result unit;    (* df.write_parquet(p, ...) *)
  pl_DataFrame : list Row -> result unit;          (* pl.DataFrame(data) *)
  tie_order : string -> string -> bool             (* see [sort_desc] *)
}.

(** [pl_DataFrame W data] is [Ok tt] when polars builds a frame of the
    rows of [data], and the exception [pl.DataFrame(data)] raises
    otherwise: a [str] that cannot be encoded as UTF-8 (a member name
    that [tarfile] decoded with surrogate escapes) is refused with a
    [UnicodeEncodeError].

    [tie_order W x y] says that in this run polars puts the row of key
    [x] before the row of key [y] when a [group_by] followed by
    [.sort('count', descending=True)] finds the same count for both. *)

(** The order in which [as_completed] hands back the futures of a pool of
    [max_workers] processes, given the archives in submission order. *)
Definition Scheduler := Z -> list Path -> list Path.

(** ** [find_archives] *)

Definition find_archives (W : World) (directory : string) : list Path :=
  let tar_gz_files := glob W (PyPath.join directory "**/*.tar.gz") in
  let zip_files := glob W (PyPath.join directory "**/*.zip") in
  tar_gz_files ++ zip_files.

(** ** The extraction functions *)

(** [any(file_name.lower().endswith(ext) for ext in ['.mid', '.midi'])] *)
Definition has_midi_ext (file_name : string) : bool :=
  existsb (fun ext => PyStr.endswith (PyStr.lower file_name) ext)
          [".mid"; ".midi"].

Definition extract_midi_from_tar (W : World) (tar_path : Path)
  : M OS (list Row) :=
  let group := PyStr.replace (PyPath.stem tar_path) ".tar" "" in
  with_list
    (try_except
       (tar <- call (tarfile_open W tar_path) ;;
        members <- call (getmembers tar) ;;
        for_ members (fun member =>
          if isfile member then
            let file_name := tar_name member in
            if has_midi_ext file_name then
              try_except
                (file_obj <- call (extractfile member) ;;
                 match file_obj with
                 | Some f =>
                     content <- call (read f) ;;
                     let file_size := len content in
                     append (mkRow group (PyPath.basename file_name)
                                   content file_size)
                 | None => ret tt
                 end)
                (fun e => print (WarnRead tar_path file_name e))
            else ret tt
          else ret tt))
       (fun e => print (ErrOpenTar tar_path e))).

Definition extract_midi_from_zip (W : World) (zip_path : Path)
  : M OS (list Row) :=
  let group := PyPath.stem zip_path in
  with_list
    (try_except
       (zip_file <- call (zipfile_ZipFile W zip_path) ;;
        for_ (infolist zip_file) (fun file_info =>
          if negb (is_dir file_info) then
            let file_name := filename file_info in
            if has_midi_ext file_name then
              try_except
                (content <- call (zip_read file_info) ;;
                 let file_size := len content in
                 append (mkRow group (PyPath.basename file_name)
                               content file_size))
                (fun e => print (WarnRead zip_path file_name e))
            else ret tt
          else ret tt))
       (fun e => print (ErrOpenZip zip_path e))).

Definition process_single_archive (W : World) (archive : Path)
  : M OS (list Row) :=
  if String.eqb (PyStr.lower (PyPath.suffix archive)) ".zip" then
    extract_midi_from_zip W archive
  else if PyStr.endswith (PyStr.lower (PyPath.name archive)) ".tar.gz" then
    extract_midi_from_tar W archive
  else
    ret [].

(** ** Statistics *)

(** The distinct values of a column, in order of first appearance. *)
Fixpoint distinct (l : list string) : list string :=
  match l with
  | [] => []
  | x :: l' => x :: filter (fun y => negb (String.eqb x y)) (distinct l')
  end.

Fixpoint insert_desc {A : Type} (count : A -> Z) (before : A -> A -> bool)
         (x : A) (l : list A) : list A :=
  match l with
  | [] => [x]
  | y :: l' =>
      if ((count y <? count x) || ((count y =? count x) && before x y))%bool
      then x :: l
      else y :: insert_desc count before x l'
  end.

(** [.sort('count', descending=True)] after a [group_by].  polars leaves
    the order of the groups of a [group_by] open, and its sort is not
    stable: rows with equal counts come out in an order that changes
    from one run to the next.  That order is [before], which the
    environment of the run decides. *)
Definition sort_desc {A : Type} (count : A -> Z) (before : A -> A -> bool)
           (l : list A) : list A :=
  fold_right (insert_desc count before) [] l.

Definition rows_where (key : Row -> string) (df : Table) (k : string) : Table :=
  filter (fun r => String.eqb (key r) k) df.

(** [df['file_size'].sum()] *)
Definition sum_sizes (df : Table) : Z :=
  fold_right Z.add 0 (map file_size df).

(** [df['file_size'].max()] and [.min()]; [None] on an empty column. *)
Definition max_size (df : Table) : option Z :=
  match map file_size df with
  | [] => None
  | x :: l => Some (fold_right Z.max x l)
  end.

Definition min_size (df : Table) : option Z :=
  match map file_size df with
  | [] => None
  | x :: l => Some (fold_right Z.min x l)
  end.

(** [int(df['file_size'].mean())]: the mean is taken exactly here (polars
    computes it in floating point), then truncated. *)
Definition avg_size (df : Table) : Z :=
  Z.quot (sum_sizes df) (height df).

Definition size_category (r : Row) : string :=
  get_size_category (file_size r).

(** [df.with_columns(size_category).group_by('size_category')
       .agg(pl.len().alias('count')).sort('count', descending=True)] *)
Definition size_stats (W : World) (df : Table) : list (string * Z) :=
  sort_desc snd (fun a b => tie_order W (fst a) (fst b))
    (map (fun c => (c, len (rows_where size_category df c)))
         (distinct (map size_category df))).

(** [df.group_by('group').agg([pl.len().alias('count'),
       pl.col('file_size').sum().alias('total_size')])
      .sort('count', descending=True)] *)
Definition group_counts (W : World) (df : Table) : list (string * Z * Z) :=
  sort_desc (fun row => snd (fst row))
            (fun a b => tie_order W (fst (fst a)) (fst (fst b)))
    (map (fun g => (g, len (rows_where group df g),
                       sum_sizes (rows_where group df g)))
         (distinct (map group df))).

Definition opt_default (o : option Z) : Z :=
  match o with Some z => z | None => 0 end.

Definition plot_size_distribution (W : World) (df : Table) : M OS unit :=
  let stats := size_stats W df in
  if len stats =? 0 then
    ret tt
  else
    let categories := map fst stats in
    let counts := map snd stats in
    print (PlotBar categories counts) ;;
    let total_files := height df in
    let total_size := sum_sizes df in
    print (DetailStats total_files total_size (avg_size df)
                       (opt_default (max_size df))
                       (opt_default (min_size df))) ;;
    print CategoryHeader ;;
    for_ stats (fun row =>
      print (CategoryLine (fst row) (snd row) total_files)).

(** ** [process_archives] *)

(** [ProcessPoolExecutor(max_workers=...)] refuses a pool of no workers
    with a [ValueError]. *)
Definition ProcessPoolExecutor {S : Type} (max_workers : Z) : M S unit :=
  if max_workers <=? 0
  then raise (Exception "max_workers must be greater than 0")
  else ret tt.

(** The tasks are collected in the order [as_completed] hands them back.
    The function ends with [return pl.DataFrame(data)]: the table of the
    rows gathered, or the exception [pl.DataFrame] raises on them. *)
Definition process_archives (W : World) (as_completed : Scheduler)
           (archives : list Path) (max_workers : option Z) : M OS Table :=
  let max_workers :=
    match max_workers with
    | None => Z.min (cpu_count W) (len archives)
    | Some n => n
    end in
  print (UsingWorkers max_workers (len archives)) ;;
  data <- with_list
    (ProcessPoolExecutor max_workers ;;
     for_ (as_completed max_workers archives) (fun archive =>
       try_except
         (results <- lift (process_single_archive W archive) ;;
          for_ results (fun r =>
            append (mkRow (group r) (file_name r) (content r) (file_size r))))
         (fun e => print (TaskError archive e)))) ;;
  match data with
  | [] => print WarnNoMidi ;; ret []
  | _ => call (pl_DataFrame W data) ;; ret data
  end.

(** ** [save_to_parquet] *)

Definition fs_do (r : result unit) (op : fs_op) : M OS unit :=
  call r ;; modify (fun s => mkOS (stdout s) (fs_ops s ++ [op])).

Definition save_to_parquet (W : World) (df : Table) (output_path : Path)
  : M OS unit :=
  if height df =? 0 then
    print NoDataToSave
  else
    fs_do (mkdir_parents W (PyPath.parent output_path))
          (Mkdir (PyPath.parent output_path)) ;;
    print (Saving output_path) ;;
    fs_do (write_parquet W output_path df)
          (WriteParquet output_path df "zstd" 22 "group") ;;
    print (Saved (height df) output_path).

(** ** [main] *)

Record Args : Type := mkArgs {
  arg_input_dir : string;
  arg_output : string;
  arg_jobs : option Z;
  arg_no_plot : bool
}.

Definition main (W : World) (as_completed : Scheduler) (args : Args)
  : M OS Z :=
  let input_dir := resolve W (arg_input_dir args) in
  if negb (path_exists W input_dir) then
    print (ErrInputMissing input_dir) ;; ret 1
  else if negb (path_is_dir W input_dir) then
    print (ErrNotDir input_dir) ;; ret 1
  else
    print (Searching input_dir) ;;
    let archives := find_archives W input_dir in
    match archives with
    | [] => print (NoArchives input_dir) ;; ret 1
    | _ =>
        print (FoundArchives (len archives)) ;;
        df <- process_archives W as_completed archives (arg_jobs args) ;;
        if height df =? 0 then
          print NoMidiFound ;; ret 1
        else
          print (TotalFound (height df)) ;;
          print GroupHeader ;;
          for_ (group_counts W df) (fun row =>
            print (GroupLine (fst (fst row)) (snd (fst row)) (snd row))) ;;
          (if negb (arg_no_plot args) then plot_size_distribution W df
           else ret tt) ;;
          let output_path := resolve W (arg_output args) in
          save_to_parquet W df output_path ;;
          ret 0
    end.


(** ** What the loops do, entry by entry

    The following functions are not in the source: they describe the rows
    a piece of the program appends and the lines it prints, and the
    theorems of Part II prove that the code above does exactly that. *)

Definition Effect := (list Row * list event)%type.

(** One iteration of the loop of [extract_midi_from_tar]. *)
Definition tar_member_effect (tar_path : Path) (m : TarInfo) : Effect :=
  if (isfile m && has_midi_ext (tar_name m))%bool then
    match extractfile m with
    | Ok (Some f) =>
        match read f with
        | Ok c => ([mkRow (tar_group tar_path) (PyPath.basename (tar_name m))
                          c (len c)], [])
        | Raise e => ([], [WarnRead tar_path (tar_name m) e])
        end
    | Ok None => ([], [])
    | Raise e => ([], [WarnRead tar_path (tar_name m) e])
    end
  else ([], []).

(** One iteration of the loop of [extract_midi_from_zip]. *)
Definition zip_member_effect (zip_path : Path) (i : ZipInfo) : Effect :=
  if (negb (is_dir i) && has_midi_ext (filename i))%bool then
    match zip_read i with
    | Ok c => ([mkRow (zip_group zip_path) (PyPath.basename (filename i))
                      c (len c)], [])
    | Raise e => ([], [WarnRead zip_path (filename i) e])
    end
  else ([], []).

Definition effects {A : Type} (f : A -> Effect) (l : list A) : Effect :=
  (flat_map (fun x => fst (f x)) l, flat_map (fun x => snd (f x)) l).

Definition tar_effect (W : World) (tar_path : Path) : Effect :=
  match tarfile_open W tar_path with
  | Ok tar =>
      match getmembers tar with
      | Ok members => effects (tar_member_effect tar_path) members
      | Raise e => ([], [ErrOpenTar tar_path e])
      end
  | Raise e => ([], [ErrOpenTar tar_path e])
  end.

Definition zip_effect (W : World) (zip_path : Path) : Effect :=
  match zipfile_ZipFile W zip_path with
  | Ok zip_file => effects (zip_member_effect zip_path) (infolist zip_file)
  | Raise e => ([], [ErrOpenZip zip_path e])
  end.

Definition archive_effect (W : World) (archive : Path) : Effect :=
  if String.eqb (PyStr.lower (PyPath.suffix archive)) ".zip" then
    zip_effect W archive
  else if PyStr.endswith (PyStr.lower (PyPath.name archive)) ".tar.gz" then
    tar_effect W archive
  else ([], []).

(** The state after some more lines have been printed. *)
Definition printed (s : OS) (lines : list event) : OS :=
  mkOS (stdout s ++ lines) (fs_ops s).

(** The bytes of a tar member, when [extractfile] gives a file object and
    its [read] succeeds; the bytes of a zip entry, when [read] succeeds. *)
Definition tar_payload (m : TarInfo) : option bytes :=
  match extractfile m with
  | Ok (Some f) => match read f with Ok c => Some c | Raise _ => None end
  | _ => None
  end.

Definition zip_payload (i : ZipInfo) : option bytes :=
  match zip_read i with Ok c => Some c | Raise _ => None end.

Definition bytes_of (o : option bytes) : bytes :=
  match o with Some c => c | None => [] end.

(** The invariant of a row. *)
Definition row_ok (r : Row) : Prop := file_size r = len (content r).

(** A scheduler hands back every submitted task exactly once. *)
Definition fair (as_completed : Scheduler) : Prop :=
  forall max_workers archives,
    Permutation (as_completed max_workers archives) archives.

(** The size histogram read as a function of the bucket, and the group
    summary read as a function of the group. *)
Definition bucket_count (df : Table) (c : string) : Z :=
  len (rows_where size_category df c).

Definition group_count (df : Table) (g : string) : Z :=
  len (rows_where group df g).

Definition group_total (df : Table) (g : string) : Z :=
  sum_sizes (rows_where group df g).

(** The number of worker processes [process_archives] settles on. *)
Definition pool_size (W : World) (archives : list Path)
           (max_workers : option Z) : Z :=
  match max_workers with
  | None => Z.min (cpu_count W) (len archives)
  | Some n => n
  end.

(** What collecting the results of all tasks adds, in completion order. *)
Definition collected (W : World) (as_completed : Scheduler)
           (archives : list Path) (max_workers : option Z) : Effect :=
  effects (archive_effect W)
          (as_completed (pool_size W archives max_workers) archives).

(** What [process_archives] hands back for the rows it has collected:
    the empty frame when there are none, else what [pl.DataFrame] makes
    of them. *)
Definition as_table (W : World) (data : list Row) : result Table :=
  match data with
  | [] => Ok []
  | _ => match pl_DataFrame W data with
         | Ok _ => Ok data
         | Raise e => Raise e
         end
  end.

(** The value [main] returns (or the exception it lets through) and the
    file-system operations it performs. *)
Definition main_outcome (W : World) (as_completed : Scheduler) (args : Args)
  : result Z * list fs_op :=
  let input_dir := resolve W (arg_input_dir args) in
  let archives := find_archives W input_dir in
  let output_path := resolve W (arg_output args) in
  if negb (path_exists W input_dir) then (Ok 1, [])
  else if negb (path_is_dir W input_dir) then (Ok 1, [])
  else
    match archives with
    | [] => (Ok 1, [])
    | _ =>
        if pool_size W archives (arg_jobs args) <=? 0 then
          (Raise (Exception "max_workers must be greater than 0"), [])
        else
          match fst (collected W as_completed archives (arg_jobs args)) with
          | [] => (Ok 1, [])
          | df =>
              match pl_DataFrame W df with
              | Raise e => (Raise e, [])
              | Ok _ =>
                  match mkdir_parents W (PyPath.parent output_path) with
                  | Raise e => (Raise e, [])
                  | Ok _ =>
                      match write_parquet W output_path df with
                      | Raise e =>
                          (Raise e, [Mkdir (PyPath.parent output_path)])
                      | Ok _ =>
                          (Ok 0,
                           [Mkdir (PyPath.parent output_path);
                            WriteParquet output_path df "zstd" 22 "group"])
                      end
                  end
              end
          end
    end.

(** The names a recursive glob pattern [**/*suffix] finds: they end with
    [suffix] and do not begin with a dot ([glob] skips hidden files). *)
Definition discovered_as (suffix : string) (archive : Path) : Prop :=
  (exists base, PyPath.name archive = (base ++ suffix)%string) /\
  PyStr.startswith (PyPath.name archive) "." = false.

(** ** The wording of the specification for entry names

    "The name, compared case-insensitively, ends with .mid or .midi",
    written out letter by letter, with no use of [PyStr.lower]. *)
Definition either_case (lo up c : ascii) : Prop := c = lo \/ c = up.

Definition spec_midi_name (n : string) : Prop :=
  exists front m i d,
    either_case "m" "M" m /\ either_case "i" "I" i /\
    either_case "d" "D" d /\
    (n = (front ++ String "." (String m (String i (String d ""))))%string \/
     exists i',
       either_case "i" "I" i' /\
       n = (front ++
            String "." (String m (String i (String d (String i' "")))))%string).

(** ** A small environment for examples

    [/data] holds [a.zip] (entry [song.mid], 50 bytes, next to a
    directory, a text file and an entry that cannot be read),
    [b.tar.gz] (member [tune.midi], 2050 bytes, next to a directory, a
    member for which [extractfile] gives [None] and one whose [read]
    fails) and [bad.tar.gz], which cannot be opened. *)
Module Demo.

Definition payload (n : nat) : bytes := repeat x00 n.

Definition tune : TarInfo :=
  mkTarInfo "sub/tune.midi" true (Ok (Some (mkFileObj (Ok (payload 2050))))).

(** A member for which [extractfile] gives no file object. *)
Definition ghost : TarInfo := mkTarInfo "sub/ghost.mid" true (Ok None).

(** A member whose [read] fails. *)
Definition cut : TarInfo :=
  mkTarInfo "sub/cut.MIDI" true
            (Ok (Some (mkFileObj (Raise (Exception "unexpected end of data"))))).

Definition song : ZipInfo :=
  mkZipInfo "songs/song.mid" false (Ok (payload 50)).

Definition broken : ZipInfo :=
  mkZipInfo "songs/Broken.MID" false (Raise (Exception "Bad CRC-32")).

Definition a_zip : ZipFile :=
  mkZipFile
    [ mkZipInfo "docs/" true (Ok []);
      mkZipInfo "docs/readme.txt" false (Ok (payload 7));
      song;
      broken ].

Definition b_tar : TarFile :=
  mkTarFile (Ok
    [ mkTarInfo "sub" false (Ok None);
      tune;
      ghost;
      cut;
      mkTarInfo "sub/link.mid" false (Ok None) ]).

Definition world : World :=
  mkWorld
    8
    (fun s => s)
    (fun p => String.eqb p "/data")
    (fun p => String.eqb p "/data")
    (fun pat =>
       if String.eqb pat "/data/**/*.tar.gz"
       then ["/data/b.tar.gz"; "/data/bad.tar.gz"]
       else if String.eqb pat "/data/**/*.zip" then ["/data/a.zip"]
       else [])
    (fun p =>
       if String.eqb p "/data/b.tar.gz" then Ok b_tar
       else Raise (Exception "not a gzip file"))
    (fun p =>
       if String.eqb p "/data/a.zip" then Ok a_zip
       else Raise (Exception "File is not a zip file"))
    (fun _ => Ok tt)
    (fun _ _ => Ok tt)
    (fun _ => Ok tt)
    (fun _ _ => false).


(** The same directory with two sound archives only. *)
Definition a_zip_sound : ZipFile :=
  mkZipFile
    [ mkZipInfo "docs/" true (Ok []);
      mkZipInfo "docs/readme.txt" false (Ok (payload 7));
      song ].

Definition b_tar_members_sound : list TarInfo :=
  [ mkTarInfo "sub" false (Ok None);
    tune;
    mkTarInfo "sub/link.mid" false (Ok None) ].

Definition b_tar_sound : TarFile := mkTarFile (Ok b_tar_members_sound).

Definition sound_world : World :=
  mkWorld
    8
    (fun s => s)
    (fun p => String.eqb p "/data")
    (fun p => String.eqb p "/data")
    (fun pat =>
       if String.eqb pat "/data/**/*.tar.gz" then ["/data/b.tar.gz"]
       else if String.eqb pat "/data/**/*.zip" then ["/data/a.zip"]
       else [])
    (fun _ => Ok b_tar_sound)
    (fun _ => Ok a_zip_sound)
    (fun _ => Ok tt)
    (fun _ _ => Ok tt)
    (fun _ => Ok tt)
    (fun _ _ => false).

(** The same directory again; the archives hold one readable entry each,
    with names that are not in lower case. *)
Definition take1 : ZipInfo :=
  mkZipInfo "Live/TAKE1.MID" false (Ok (payload 5)).

Definition take2 : TarInfo :=
  mkTarInfo "Live/Take2.MiDi" true (Ok (Some (mkFileObj (Ok (payload 6))))).

Definition live_world : World :=
  mkWorld
    8
    (fun s => s)
    (fun p => String.eqb p "/data")
    (fun p => String.eqb p "/data")
    (glob sound_world)
    (fun _ => Ok (mkTarFile (Ok [mkTarInfo "Live" false (Ok None); take2])))
    (fun _ => Ok (mkZipFile [mkZipInfo "Live/" true (Ok []); take1]))
    (fun _ => Ok tt)
    (fun _ _ => Ok tt)
    (fun _ => Ok tt)
    (fun _ _ => false).

Definition in_order : Scheduler := fun _ archives => archives.
Definition last_first : Scheduler := fun _ archives => rev archives.

Definition args : Args := mkArgs "/data" "/out/midi.parquet" None false.

Definition os0 : OS := mkOS [] [].

End Demo.

(** ** [format_size] *)

(** [str(n)] for an [int]: decimal digits, with a minus sign below zero. *)
Definition str_int (n : Z) : string :=
  NilEmpty.string_of_int (Z.to_int n).

(** The integer nearest to [a / d], ties going to the even one. *)
Definition round_half_even (a d : Z) : Z :=
  let q := a / d in
  let r := a mod d in
  if 2 * r <? d then q
  else if d <? 2 * r then q + 1
  else if Z.even q then q else q + 1.

(** [f"{n / d:.1f}"] for [0 <= n] and [d] a power of two.  The quotient
    of the two integers is a float with no rounding as long as
    [n < 2^53]; formatting with [.1f] rounds that value to the nearest
    tenth, an exact tie (a quarter or three quarters) going to the even
    digit. *)
Definition fixed1 (n d : Z) : string :=
  let tenths := round_half_even (10 * n) d in
  (str_int (tenths / 10) ++ "." ++ str_int (tenths mod 10))%string.

Definition format_size (size_bytes : Z) : string :=
  if size_bytes <? 1024 then
    (str_int size_bytes ++ " B")%string
  else if size_bytes <? 1024 * 1024 then
    (fixed1 size_bytes 1024 ++ " KB")%string
  else if size_bytes <? 1024 * 1024 * 1024 then
    (fixed1 size_bytes (1024 * 1024) ++ " MB")%string
  else
    (fixed1 size_bytes (1024 * 1024 * 1024) ++ " GB")%string.

(** ** Further vocabulary for the theorems *)


(** [glob] honours the two patterns of [find_archives] under
    [directory]. *)
Definition glob_honours (W : World) (directory : string) : Prop :=
  (forall p, In p (glob W (PyPath.join directory "**/*.tar.gz")) ->
             discovered_as ".tar.gz" p) /\
  (forall p, In p (glob W (PyPath.join directory "**/*.zip")) ->
             discovered_as ".zip" p).

(** The entries an extraction function looks into. *)
Definition tar_relevant (m : TarInfo) : bool :=
  (isfile m && has_midi_ext (tar_name m))%bool.

Definition zip_relevant (i : ZipInfo) : bool :=
  (negb (is_dir i) && has_midi_ext (filename i))%bool.

(** A relevant tar member for which [extractfile] gives [None]. *)
Definition tar_silent (m : TarInfo) : bool :=
  (tar_relevant m &&
   match extractfile m with Ok None => true | _ => false end)%bool.

Definition is_saved (ev : event) : bool :=
  match ev with Saved _ _ => true | _ => false end.

Definition is_write (op : fs_op) : bool :=
  match op with WriteParquet _ _ _ _ _ => true | _ => false end.

Definition sum_Z (l : list Z) : Z := fold_right Z.add 0 l.

(** The environment [W] in a run in which polars orders equal counts by
    [before]. *)
Definition with_tie_order (W : World) (before : string -> string -> bool)
  : World :=
  mkWorld (cpu_count W) (resolve W) (path_exists W) (path_is_dir W) (glob W)
          (tarfile_open W) (zipfile_ZipFile W) (mkdir_parents W)
          (write_parquet W) (pl_DataFrame W) before.

(** [x] stands before [y] in the list [keys]. *)
Fixpoint precedes (keys : list string) (x y : string) : bool :=
  match keys with
  | [] => false
  | k :: keys' =>
      if String.eqb k y then false
      else if String.eqb k x then true
      else precedes keys' x y
  end.

(** The test of [insert_desc]: [x] goes in front of [y]. *)
Definition in_front {A : Type} (count : A -> Z) (before : A -> A -> bool)
           (x y : A) : bool :=
  ((count y <? count x) || ((count y =? count x) && before x y))%bool.

(** An environment in which the output directory cannot be created, and
    one in which the write fails. *)
Module Faulty.

Definition no_mkdir : World :=
  mkWorld 8 (fun s => s)
          (fun p => String.eqb p "/data") (fun p => String.eqb p "/data")
          (glob Demo.sound_world)
          (tarfile_open Demo.sound_world) (zipfile_ZipFile Demo.sound_world)
          (fun _ => Raise (Exception "Permission denied"))
          (fun _ _ => Ok tt)
          (fun _ => Ok tt) (fun _ _ => false).

Definition no_write : World :=
  mkWorld 8 (fun s => s)
          (fun p => String.eqb p "/data") (fun p => String.eqb p "/data")
          (glob Demo.sound_world)
          (tarfile_open Demo.sound_world) (zipfile_ZipFile Demo.sound_world)
          (fun _ => Ok tt)
          (fun _ _ => Raise (Exception "No space left on device"))
          (fun _ => Ok tt) (fun _ _ => false).

(** The byte 0xFF occurs in no UTF-8 text.  [tarfile] decodes it to a
    lone surrogate, and [pl.DataFrame] refuses a [str] that holds one. *)
Definition xFF : ascii := Ascii.ascii_of_nat 255.

Fixpoint has_xFF (s : string) : bool :=
  match s with
  | EmptyString => false
  | String c s' => (Ascii.eqb c xFF || has_xFF s')%bool
  end.

(** A readable member of three bytes whose name is the byte 0xFF followed
    by ".mid". *)
Definition odd_name : TarInfo :=
  mkTarInfo (String xFF ".mid") true
            (Ok (Some (mkFileObj (Ok (Demo.payload 3))))).

(** An environment in which [b.tar.gz] holds that member. *)
Definition no_table : World :=
  mkWorld 8 (fun s => s)
          (fun p => String.eqb p "/data") (fun p => String.eqb p "/data")
          (glob Demo.sound_world)
          (fun _ => Ok (mkTarFile (Ok [Demo.tune; odd_name])))
          (zipfile_ZipFile Demo.sound_world)
          (fun _ => Ok tt)
          (fun _ _ => Ok tt)
          (fun data =>
             if existsb (fun r => has_xFF (file_name r)) data
             then Raise (Exception "UnicodeEncodeError: surrogates not allowed")
             else Ok tt)
          (fun _ _ => false).

End Faulty.

(** The example archives with nothing but the entries the extraction
    functions look into. *)
Module Trimmed.

Definition world : World :=
  mkWorld 8 (fun s => s)
          (fun p => String.eqb p "/data") (fun p => String.eqb p "/data")
          (glob Demo.world)
          (fun _ => Ok (mkTarFile (Ok [Demo.tune; Demo.ghost; Demo.cut])))
          (fun _ => Ok (mkZipFile [Demo.song; Demo.broken]))
          (fun _ => Ok tt)
          (fun _ _ => Ok tt)
          (fun _ => Ok tt) (fun _ _ => false).

End Trimmed.

(* ===================================================================== *)
(** * Part II. Theorems                                                   *)
(* ===================================================================== *)

(** ** Strings *)

Section StringFacts.

Local Open Scope nat_scope.

Lemma length_app (s t : string) :
  String.length (s ++ t) = String.length s + String.length t.
Proof. induction s as [|c s IH]; simpl; [reflexivity | now rewrite IH]. Qed.

Lemma rfind_app (s t : string) (c : ascii) :
  PyStr.rfind (s ++ t) c =
  match PyStr.rfind t c with
  | Some i => Some (String.length s + i)
  | None => PyStr.rfind s c
  end.
Proof.
  induction s as [|a s IH]; simpl.
  - now destruct (PyStr.rfind t c).
  - rewrite IH. now destruct (PyStr.rfind t c).
Qed.

Lemma take_app (s t : string) (k : nat) :
  PyStr.take (String.length s + k) (s ++ t) = (s ++ PyStr.take k t)%string.
Proof. induction s as [|a s IH]; simpl; [reflexivity | now rewrite IH]. Qed.

Lemma take_0 (t : string) : PyStr.take 0 t = ""%string.
Proof. now destruct t. Qed.

Lemma app_empty_r (s : string) : (s ++ "")%string = s.
Proof. induction s as [|a s IH]; simpl; [reflexivity | now rewrite IH]. Qed.

Lemma nonempty_length (s : string) : s <> ""%string -> 0 < String.length s.
Proof. destruct s; simpl; [congruence | lia]. Qed.

Lemma startswith_length (s p : string) :
  PyStr.startswith s p = true -> String.length p <= String.length s.
Proof.
  revert s; induction p as [|a p IH]; intros s H; simpl in *; [lia|].
  destruct s as [|b s]; [discriminate|].
  apply andb_prop in H as [_ H]. apply IH in H. simpl. lia.
Qed.

(** An occurrence of ".tar" cannot begin inside [t] and end inside a
    ".tar" that follows it: the needle has a dot only in front. *)
Lemma startswith_tar_app (t : string) :
  t <> ""%string ->
  PyStr.startswith (t ++ ".tar") ".tar" = PyStr.startswith t ".tar".
Proof.
  intros Ht.
  destruct t as [|c1 [|c2 [|c3 [|c4 t]]]]; [congruence| | | |];
    cbn [PyStr.startswith String.append];
    try change (Ascii.eqb "t" ".") with false;
    try change (Ascii.eqb "a" ".") with false;
    try change (Ascii.eqb "r" ".") with false;
    cbn [andb]; rewrite ?andb_false_r; reflexivity.
Qed.

Lemma replace_tar_app (s : string) (k : nat) :
  k <= String.length s ->
  PyStr.replace_from ".tar" "" k (s ++ ".tar") =
  PyStr.replace_from ".tar" "" k s.
Proof.
  revert k; induction s as [|c s IH]; intros k Hk.
  - simpl in Hk. replace k with 0 by lia. reflexivity.
  - destruct k as [|k].
    + change (String c s ++ ".tar")%string with (String c (s ++ ".tar")).
      cbn [PyStr.replace_from].
      change (String c (s ++ ".tar")) with (String c s ++ ".tar")%string.
      rewrite startswith_tar_app by discriminate.
      destruct (PyStr.startswith (String c s) ".tar") eqn:E.
      * apply startswith_length in E. simpl in E.
        rewrite (IH (String.length ".tar" - 1)); [reflexivity | simpl; lia].
      * now rewrite (IH 0) by lia.
    + simpl. apply IH. simpl in Hk. lia.
Qed.

Lemma replace_absent (old new s : string) :
  PyStr.contains s old = false -> PyStr.replace s old new = s.
Proof.
  unfold PyStr.replace.
  induction s as [|c s IH]; intros H; [reflexivity|].
  cbn [PyStr.contains] in H. cbn [PyStr.replace_from].
  destruct (PyStr.startswith (String c s) old); [discriminate|].
  now rewrite IH.
Qed.

Lemma stem_of_name (p : Path) (base ext : string) :
  PyPath.name p = (base ++ String "." ext)%string ->
  base <> ""%string -> ext <> ""%string ->
  PyStr.rfind ext "." = None ->
  PyPath.stem p = base.
Proof.
  intros Hn Hb He Hr. unfold PyPath.stem. rewrite Hn.
  rewrite rfind_app. cbn [PyStr.rfind]. rewrite Hr.
  change (Ascii.eqb "." ".") with true. cbv iota.
  rewrite length_app. cbn [String.length].
  apply nonempty_length in Hb, He.
  replace ((0 <? String.length base + 0) &&
           (String.length base + 0 <?
            String.length base + S (String.length ext) - 1))%bool
    with true.
  - rewrite take_app, take_0. apply app_empty_r.
  - symmetry. apply andb_true_intro. split; apply Nat.ltb_lt; lia.
Qed.

End StringFacts.

(** A zip archive found by the pattern [*.zip] is grouped under its name
    without the ".zip". *)
Lemma zip_group_strips_zip (p : Path) (base : string) :
  PyPath.name p = (base ++ ".zip")%string -> base <> ""%string ->
  zip_group p = base.
Proof.
  intros Hn Hb. unfold zip_group.
  apply (stem_of_name p base "zip"); auto; discriminate.
Qed.

(** A tar-gzip archive found by the pattern [*.tar.gz] is grouped under
    its name without ".tar.gz" and without any other ".tar" in it. *)
Lemma tar_group_removes_every_tar (p : Path) (base : string) :
  PyPath.name p = (base ++ ".tar.gz")%string ->
  tar_group p = PyStr.replace base ".tar" "".
Proof.
  intros Hn. unfold tar_group.
  assert (Hs : PyPath.stem p = (base ++ ".tar")%string).
  { apply (stem_of_name p (base ++ ".tar") "gz").
    - rewrite Hn. clear. induction base as [|c b IH]; simpl; [reflexivity|].
      now rewrite IH.
    - destruct base; discriminate.
    - discriminate.
    - reflexivity. }
  rewrite Hs. unfold PyStr.replace. apply replace_tar_app. apply Nat.le_0_l.
Qed.

Lemma tar_group_strips_tar_gz (p : Path) (base : string) :
  PyPath.name p = (base ++ ".tar.gz")%string ->
  PyStr.contains base ".tar" = false ->
  tar_group p = base.
Proof.
  intros Hn Hc. rewrite (tar_group_removes_every_tar p base Hn).
  now apply replace_absent.
Qed.

(** Every zip archive the search finds is grouped under its name without
    the ".zip". *)
Lemma discovered_zip_group (p : Path) (base : string) :
  discovered_as ".zip" p ->
  PyPath.name p = (base ++ ".zip")%string ->
  zip_group p = base.
Proof.
  intros [_ Hdot] Hn. apply zip_group_strips_zip; [exact Hn|].
  intros ->. rewrite Hn in Hdot. discriminate Hdot.
Qed.

(** C1.  The group of a tar-gzip archive is not always its file name
    without ".tar.gz": [str.replace] removes every ".tar" of the stem, so
    the archive [my.tarball.tar.gz], which the pattern [*.tar.gz] finds,
    is grouped under "myball" and not under "my.tarball".  (The two
    examples of the specification do hold, and so does the zip rule.) *)
Theorem tar_group_drops_inner_tar :
  discovered_as ".tar.gz" "/data/my.tarball.tar.gz" /\
  tar_group "/data/my.tarball.tar.gz" = "myball"%string /\
  tar_group "/data/my.tarball.tar.gz" <> "my.tarball"%string /\
  tar_group "/data/foo.tar.gz" = "foo"%string /\
  zip_group "/data/bar.zip" = "bar"%string.
Proof.
  split; [|repeat split; try reflexivity; discriminate].
  split; [exists "my.tarball"%string|]; reflexivity.
Qed.

(** ** Size buckets *)

(** C4, as stated: the labels of the specification are not the strings the
    code returns. *)
Lemma size_labels_differ :
  get_size_category 1023 <> "<1KB"%string /\
  get_size_category 1024 <> "1KB-10KB"%string /\
  get_size_category 10240 <> "10KB-100KB"%string /\
  get_size_category 102400 <> "100KB-1MB"%string /\
  get_size_category 1048576 <> ">1MB"%string.
Proof. repeat split; discriminate. Qed.

(** C4, amended.  Every size falls into exactly one of the five buckets
    "< 1KB", "1KB - 10KB", "10KB - 100KB", "100KB - 1MB", "> 1MB" (labels
    with the spaces the code writes), with left-inclusive boundaries at
    1024, 10240, 102400 and 1048576. *)
Theorem get_size_category_buckets (size : Z) :
  (get_size_category size = "< 1KB"%string <-> size < 1024) /\
  (get_size_category size = "1KB - 10KB"%string <-> 1024 <= size < 10240) /\
  (get_size_category size = "10KB - 100KB"%string <-> 10240 <= size < 102400) /\
  (get_size_category size = "100KB - 1MB"%string <-> 102400 <= size < 1048576) /\
  (get_size_category size = "> 1MB"%string <-> 1048576 <= size) /\
  In (get_size_category size) size_categories /\
  NoDup size_categories.
Proof.
  unfold get_size_category.
  destruct (Z.ltb_spec size 1024);
    [|destruct (Z.ltb_spec size (10 * 1024));
      [|destruct (Z.ltb_spec size (100 * 1024));
        [|destruct (Z.ltb_spec size (1024 * 1024))]]].
  all: repeat split; intros; try lia; try discriminate; try reflexivity.
  all: try (simpl; tauto).
  all: repeat constructor; simpl; intuition discriminate.
Qed.

Lemma get_size_category_boundaries :
  map get_size_category
      [0; 1023; 1024; 10239; 10240; 102399; 102400; 1048575; 1048576] =
  ["< 1KB"; "< 1KB"; "1KB - 10KB"; "1KB - 10KB"; "10KB - 100KB";
   "10KB - 100KB"; "100KB - 1MB"; "100KB - 1MB"; "> 1MB"]%string.
Proof. reflexivity. Qed.

(** ** The monad and its loops *)

Lemma printed_nil (s : OS) : printed s [] = s.
Proof. destruct s. unfold printed. simpl. now rewrite app_nil_r. Qed.

Lemma printed_app (s : OS) (l1 l2 : list event) :
  printed (printed s l1) l2 = printed s (l1 ++ l2).
Proof. unfold printed. simpl. now rewrite app_assoc. Qed.

Lemma print_run (ev : event) (s : OS) :
  print ev s = (Ok tt, printed s [ev]).
Proof. reflexivity. Qed.

Lemma print_frame_run {R : Type} (ev : event) (acc : list R) (s : OS) :
  print ev (acc, s) = (Ok tt, (acc, printed s [ev])).
Proof. reflexivity. Qed.

Lemma effects_nil {A : Type} (f : A -> Effect) : effects f [] = ([], []).
Proof. reflexivity. Qed.

Lemma effects_cons {A : Type} (f : A -> Effect) (x : A) (l : list A) :
  effects f (x :: l) =
  (fst (f x) ++ fst (effects f l), snd (f x) ++ snd (effects f l)).
Proof. reflexivity. Qed.

Lemma effects_app {A : Type} (f : A -> Effect) (l1 l2 : list A) :
  effects f (l1 ++ l2) =
  (fst (effects f l1) ++ fst (effects f l2),
   snd (effects f l1) ++ snd (effects f l2)).
Proof. unfold effects. simpl. now rewrite !flat_map_app. Qed.

(** A loop whose body only appends rows and prints lines. *)
Lemma for_effects {A : Type} (f : A -> Effect)
      (body : A -> M (list Row * OS) unit) (xs : list A) :
  (forall x acc s,
      body x (acc, s) = (Ok tt, (acc ++ fst (f x), printed s (snd (f x))))) ->
  forall acc s,
    for_ xs body (acc, s) =
    (Ok tt, (acc ++ fst (effects f xs), printed s (snd (effects f xs)))).
Proof.
  intros Hbody. induction xs as [|x xs IH]; intros acc s.
  - simpl. now rewrite app_nil_r, printed_nil.
  - cbn [for_]. unfold bind. rewrite Hbody, IH, effects_cons. cbn [fst snd].
    now rewrite printed_app, app_assoc.
Qed.

(** ** The extraction functions run to completion *)

Lemma tar_body_run (tar_path : Path) (member : TarInfo)
      (acc : list Row) (s : OS) :
  (if isfile member then
     let file_name := tar_name member in
     if has_midi_ext file_name then
       try_except
         (file_obj <- call (extractfile member) ;;
          match file_obj with
          | Some f =>
              content <- call (read f) ;;
              let file_size := len content in
              append (mkRow (PyStr.replace (PyPath.stem tar_path) ".tar" "")
                            (PyPath.basename file_name) content file_size)
          | None => ret tt
          end)
         (fun e => print (WarnRead tar_path file_name e))
     else ret tt
   else ret tt) (acc, s) =
  (Ok tt, (acc ++ fst (tar_member_effect tar_path member),
           printed s (snd (tar_member_effect tar_path member)))).
Proof.
  unfold tar_member_effect, tar_group.
  destruct (isfile member); cbn [andb];
    [destruct (has_midi_ext (tar_name member))|]; cbv zeta.
  - unfold try_except, bind, call.
    destruct (extractfile member) as [[f|]|e]; cbn [fst snd].
    + destruct (read f) as [c|e]; cbn [fst snd].
      * unfold append, modify. cbn [fst snd]. now rewrite printed_nil.
      * rewrite print_frame_run. now rewrite app_nil_r.
    + unfold ret. now rewrite app_nil_r, printed_nil.
    + rewrite print_frame_run. now rewrite app_nil_r.
  - unfold ret. cbn [fst snd]. now rewrite app_nil_r, printed_nil.
  - unfold ret. cbn [fst snd]. now rewrite app_nil_r, printed_nil.
Qed.

Lemma zip_body_run (zip_path : Path) (file_info : ZipInfo)
      (acc : list Row) (s : OS) :
  (if negb (is_dir file_info) then
     let file_name := filename file_info in
     if has_midi_ext file_name then
       try_except
         (content <- call (zip_read file_info) ;;
          let file_size := len content in
          append (mkRow (PyPath.stem zip_path) (PyPath.basename file_name)
                        content file_size))
         (fun e => print (WarnRead zip_path file_name e))
     else ret tt
   else ret tt) (acc, s) =
  (Ok tt, (acc ++ fst (zip_member_effect zip_path file_info),
           printed s (snd (zip_member_effect zip_path file_info)))).
Proof.
  unfold zip_member_effect, zip_group.
  destruct (negb (is_dir file_info)); cbn [andb];
    [destruct (has_midi_ext (filename file_info))|]; cbv zeta.
  - unfold try_except, bind, call.
    destruct (zip_read file_info) as [c|e]; cbn [fst snd].
    + unfold append, modify. cbn [fst snd]. now rewrite printed_nil.
    + rewrite print_frame_run. now rewrite app_nil_r.
  - unfold ret. cbn [fst snd]. now rewrite app_nil_r, printed_nil.
  - unfold ret. cbn [fst snd]. now rewrite app_nil_r, printed_nil.
Qed.

Lemma extract_midi_from_tar_run (W : World) (tar_path : Path) (s : OS) :
  extract_midi_from_tar W tar_path s =
  (Ok (fst (tar_effect W tar_path)), printed s (snd (tar_effect W tar_path))).
Proof.
  unfold extract_midi_from_tar, tar_effect, with_list, try_except.
  unfold bind at 1. unfold call at 1.
  destruct (tarfile_open W tar_path) as [tar|e].
  - unfold bind at 1. unfold call at 1.
    destruct (getmembers tar) as [members|e].
    + rewrite (for_effects (tar_member_effect tar_path)).
      * reflexivity.
      * intros. apply tar_body_run.
    + reflexivity.
  - reflexivity.
Qed.

Lemma extract_midi_from_zip_run (W : World) (zip_path : Path) (s : OS) :
  extract_midi_from_zip W zip_path s =
  (Ok (fst (zip_effect W zip_path)), printed s (snd (zip_effect W zip_path))).
Proof.
  unfold extract_midi_from_zip, zip_effect, with_list, try_except.
  unfold bind at 1. unfold call at 1.
  destruct (zipfile_ZipFile W zip_path) as [zip_file|e].
  - rewrite (for_effects (zip_member_effect zip_path)).
    + reflexivity.
    + intros. apply zip_body_run.
  - reflexivity.
Qed.

Lemma process_single_archive_run (W : World) (archive : Path) (s : OS) :
  process_single_archive W archive s =
  (Ok (fst (archive_effect W archive)),
   printed s (snd (archive_effect W archive))).
Proof.
  unfold process_single_archive, archive_effect.
  destruct (String.eqb _ _).
  - apply extract_midi_from_zip_run.
  - destruct (PyStr.endswith _ _).
    + apply extract_midi_from_tar_run.
    + unfold ret. cbn [fst snd]. now rewrite printed_nil.
Qed.

(** ** Collecting the results *)

Lemma bind_ok {S A B : Type} (m : M S A) (k : A -> M S B) (s s' : S) (a : A) :
  m s = (Ok a, s') -> bind m k s = k a s'.
Proof. intros H. unfold bind. now rewrite H. Qed.

Lemma bind_raise {S A B : Type} (m : M S A) (k : A -> M S B) (s s' : S)
      (e : exn) :
  m s = (Raise e, s') -> bind m k s = (Raise e, s').
Proof. intros H. unfold bind. now rewrite H. Qed.

Lemma for_append (rs acc : list Row) (s : OS) :
  for_ rs (fun r =>
    append (mkRow (group r) (file_name r) (content r) (file_size r)))
       (acc, s) =
  (Ok tt, (acc ++ rs, s)).
Proof.
  revert acc. induction rs as [|r rs IH]; intros acc.
  - simpl. now rewrite app_nil_r.
  - cbn [for_]. unfold bind, append at 1, modify. cbn [fst snd].
    rewrite IH. destruct r. cbn [group file_name content file_size].
    now rewrite <- app_assoc.
Qed.

Lemma collect_body_run (W : World) (archive : Path) (acc : list Row) (s : OS) :
  try_except
    (results <- lift (process_single_archive W archive) ;;
     for_ results (fun r =>
       append (mkRow (group r) (file_name r) (content r) (file_size r))))
    (fun e => print (TaskError archive e)) (acc, s) =
  (Ok tt, (acc ++ fst (archive_effect W archive),
           printed s (snd (archive_effect W archive)))).
Proof.
  unfold try_except, bind, lift. cbn [fst snd].
  rewrite process_single_archive_run. now rewrite for_append.
Qed.

Lemma height_eqb_0 (df : Table) :
  (height df =? 0) = match df with [] => true | _ => false end.
Proof.
  destruct df; [reflexivity|]. unfold height, len. simpl List.length.
  apply Z.eqb_neq. lia.
Qed.

(** [process_archives] with a pool of at least one worker collects the
    rows of all archives, in completion order, and hands them to
    [pl.DataFrame]. *)
Lemma process_archives_run (W : World) (as_completed : Scheduler)
      (archives : list Path) (max_workers : option Z) (s : OS) :
  0 < pool_size W archives max_workers ->
  process_archives W as_completed archives max_workers s =
  (as_table W (fst (collected W as_completed archives max_workers)),
   printed s
     (UsingWorkers (pool_size W archives max_workers) (len archives)
      :: snd (collected W as_completed archives max_workers)
      ++ match fst (collected W as_completed archives max_workers) with
         | [] => [WarnNoMidi]
         | _ => []
         end)).
Proof.
  intros Hpool. unfold process_archives, collected.
  fold (pool_size W archives max_workers).
  set (n := pool_size W archives max_workers) in *.
  rewrite (bind_ok _ _ s (printed s [UsingWorkers n (len archives)]) tt)
    by reflexivity.
  set (E := effects (archive_effect W) (as_completed n archives)).
  assert (Hlist :
    with_list
      (ProcessPoolExecutor n ;;
       for_ (as_completed n archives) (fun archive =>
         try_except
           (results <- lift (process_single_archive W archive) ;;
            for_ results (fun r =>
              append (mkRow (group r) (file_name r) (content r)
                            (file_size r))))
           (fun e => print (TaskError archive e))))
      (printed s [UsingWorkers n (len archives)]) =
    (Ok (fst E), printed s (UsingWorkers n (len archives) :: snd E))).
  { unfold with_list, ProcessPoolExecutor.
    destruct (Z.leb_spec n 0) as [Hle|_]; [lia|].
    unfold bind at 1. unfold ret at 1.
    rewrite (for_effects (archive_effect W)).
    - fold E. cbn [app]. now rewrite printed_app. 
    - intros. apply collect_body_run. }
  rewrite (bind_ok _ _ _ _ _ Hlist).
  unfold as_table. destruct (fst E) as [|r rows].
  - unfold bind. rewrite print_run, printed_app. reflexivity.
  - rewrite (app_nil_r (snd E)). unfold bind, call, ret.
    now destruct (pl_DataFrame W (r :: rows)) as [[]|e].
Qed.

(** A pool of no workers is refused before any task is run. *)
Lemma process_archives_no_pool (W : World) (as_completed : Scheduler)
      (archives : list Path) (max_workers : option Z) (s : OS) :
  pool_size W archives max_workers <= 0 ->
  process_archives W as_completed archives max_workers s =
  (Raise (Exception "max_workers must be greater than 0"),
   printed s [UsingWorkers (pool_size W archives max_workers) (len archives)]).
Proof.
  intros Hpool. unfold process_archives.
  fold (pool_size W archives max_workers).
  set (n := pool_size W archives max_workers) in *.
  rewrite (bind_ok _ _ s (printed s [UsingWorkers n (len archives)]) tt)
    by reflexivity.
  apply bind_raise. unfold with_list, ProcessPoolExecutor.
  destruct (Z.leb_spec n 0) as [_|Hlt]; [|lia].
  reflexivity.
Qed.

(** ** Reports and persistence *)

Lemma for_print {A : Type} (f : A -> event) (xs : list A) (s : OS) :
  for_ xs (fun x => print (f x)) s = (Ok tt, printed s (map f xs)).
Proof.
  revert s. induction xs as [|x xs IH]; intros s.
  - simpl. now rewrite printed_nil.
  - cbn [for_ map]. unfold bind. rewrite print_run, IH.
    now rewrite printed_app.
Qed.

Lemma plot_size_distribution_run (W : World) (df : Table) (s : OS) :
  exists lines, plot_size_distribution W df s = (Ok tt, printed s lines).
Proof.
  unfold plot_size_distribution.
  destruct (len (size_stats W df) =? 0).
  - exists []. unfold ret. now rewrite printed_nil.
  - eexists. unfold bind. rewrite !print_run, for_print, !printed_app.
    reflexivity.
Qed.

Lemma save_to_parquet_empty (W : World) (output_path : Path) (s : OS) :
  save_to_parquet W [] output_path s = (Ok tt, printed s [NoDataToSave]).
Proof. reflexivity. Qed.

Lemma save_to_parquet_run (W : World) (df : Table) (output_path : Path)
      (s : OS) :
  df <> [] ->
  save_to_parquet W df output_path s =
  match mkdir_parents W (PyPath.parent output_path) with
  | Raise e => (Raise e, s)
  | Ok _ =>
      match write_parquet W output_path df with
      | Raise e =>
          (Raise e,
           mkOS (stdout s ++ [Saving output_path])
                (fs_ops s ++ [Mkdir (PyPath.parent output_path)]))
      | Ok _ =>
          (Ok tt,
           mkOS (stdout s ++ [Saving output_path; Saved (height df) output_path])
                (fs_ops s ++ [Mkdir (PyPath.parent output_path);
                              WriteParquet output_path df "zstd" 22 "group"]))
      end
  end.
Proof.
  intros Hdf. unfold save_to_parquet. rewrite height_eqb_0.
  destruct df as [|r df]; [congruence|].
  unfold fs_do, bind, call, modify.
  destruct (mkdir_parents W _) as [[]|e]; [|reflexivity].
  cbn [print modify emit Console_OS stdout fs_ops].
  destruct (write_parquet W _ _) as [[]|e]; [|reflexivity].
  rewrite print_run. unfold printed. cbn [stdout fs_ops].
  now rewrite <- !app_assoc.
Qed.

(** ** [main], case by case *)

Lemma main_run (W : World) (as_completed : Scheduler) (args : Args) (s : OS) :
  exists lines,
    main W as_completed args s =
    (fst (main_outcome W as_completed args),
     mkOS (stdout s ++ lines)
          (fs_ops s ++ snd (main_outcome W as_completed args))).
Proof.
  unfold main, main_outcome. cbv zeta.
  set (input_dir := resolve W (arg_input_dir args)).
  set (output_path := resolve W (arg_output args)).
  destruct (path_exists W input_dir); cbn [negb].
  2:{ exists [ErrInputMissing input_dir]. cbn [fst snd].
      now rewrite app_nil_r. }
  destruct (path_is_dir W input_dir); cbn [negb].
  2:{ exists [ErrNotDir input_dir]. cbn [fst snd]. now rewrite app_nil_r. }
  rewrite (bind_ok _ _ s (printed s [Searching input_dir]) tt) by reflexivity.
  destruct (find_archives W input_dir) as [|a rest] eqn:Harch.
  { exists [Searching input_dir; NoArchives input_dir]. cbn [fst snd].
    unfold bind. rewrite print_run, printed_app. unfold ret, printed.
    cbn [stdout fs_ops app]. now rewrite app_nil_r. }
  set (archives := a :: rest) in *.
  erewrite bind_ok by apply print_run. rewrite printed_app.
  destruct (Z.leb_spec (pool_size W archives (arg_jobs args)) 0) as [Hle|Hlt].
  { eexists. erewrite bind_raise by (apply process_archives_no_pool; exact Hle).
    rewrite !printed_app. unfold printed. cbn [fst snd stdout fs_ops].
    rewrite (app_nil_r (fs_ops s)). reflexivity. }
  pose proof (process_archives_run W as_completed archives (arg_jobs args)
                (printed s ([Searching input_dir]
                            ++ [FoundArchives (len archives)])) Hlt) as Hpa.
  unfold as_table in Hpa.
  destruct (fst (collected W as_completed archives (arg_jobs args)))
    as [|r df] eqn:Hdf.
  { rewrite (bind_ok _ _ _ _ _ Hpa), height_eqb_0.
    eexists. unfold bind. rewrite print_run, !printed_app. unfold ret, printed.
    cbn [fst snd stdout fs_ops]. rewrite (app_nil_r (fs_ops s)).
    reflexivity. }
  destruct (pl_DataFrame W (r :: df)) as [[]|e].
  2:{ eexists. rewrite (bind_raise _ _ _ _ _ Hpa).
      rewrite !printed_app. unfold printed. cbn [fst snd stdout fs_ops].
      rewrite (app_nil_r (fs_ops s)). reflexivity. }
  rewrite (bind_ok _ _ _ _ _ Hpa), height_eqb_0.
  erewrite bind_ok by apply print_run.
  erewrite bind_ok by apply print_run.
  erewrite bind_ok by apply for_print.
  rewrite !printed_app.
  match goal with
  | |- context [printed s ?l] => set (before := l)
  end.
  assert (Hplot : exists lines,
    (if negb (arg_no_plot args) then plot_size_distribution W (r :: df)
     else ret tt) (printed s before) = (Ok tt, printed s (before ++ lines))).
  { destruct (arg_no_plot args); cbn [negb].
    - exists []. unfold ret. now rewrite app_nil_r.
    - destruct (plot_size_distribution_run W (r :: df) (printed s before))
        as [lines Hl].
      exists lines. now rewrite Hl, printed_app. }
  destruct Hplot as [plot_lines Hplot].
  rewrite (bind_ok _ _ _ _ _ Hplot).
  unfold bind at 1. rewrite save_to_parquet_run by discriminate.
  destruct (mkdir_parents W (PyPath.parent output_path)) as [[]|e].
  - destruct (write_parquet W output_path (r :: df)) as [[]|e].
    + eexists. unfold ret, printed. cbn [fst snd stdout fs_ops].
      rewrite <- (app_assoc (stdout s)). reflexivity.
    + eexists. unfold printed. cbn [fst snd stdout fs_ops].
      rewrite <- (app_assoc (stdout s)). reflexivity.
  - eexists. unfold printed. cbn [fst snd stdout fs_ops].
    rewrite (app_nil_r (fs_ops s)). reflexivity.
Qed.

(** ** Which entries become rows *)

Lemma endswith_spec (s suf : string) :
  PyStr.endswith s suf = true <-> exists pre, s = (pre ++ suf)%string.
Proof.
  split.
  - induction s as [|c s IH]; cbn [PyStr.endswith]; intros H.
    + destruct (String.eqb_spec "" suf) as [E|_]; [|discriminate].
      exists ""%string. now rewrite <- E.
    + destruct (String.eqb_spec (String c s) suf) as [E|_].
      * exists ""%string. now rewrite <- E.
      * destruct (IH H) as [pre Hpre]. exists (String c pre).
        simpl. now rewrite Hpre.
  - intros [pre ->]. induction pre as [|c pre IH].
    + simpl. destruct suf; cbn [PyStr.endswith]; now rewrite String.eqb_refl.
    + change (String c pre ++ suf)%string with (String c (pre ++ suf)%string).
      cbn [PyStr.endswith]. rewrite IH. now destruct (String.eqb _ _).
Qed.

Lemma lower_app (s t : string) :
  PyStr.lower (s ++ t) = (PyStr.lower s ++ PyStr.lower t)%string.
Proof. induction s as [|c s IH]; simpl; [reflexivity | now rewrite IH]. Qed.

Lemma lower_split (n pre suf : string) :
  PyStr.lower n = (pre ++ suf)%string ->
  exists front ext, n = (front ++ ext)%string /\ PyStr.lower ext = suf.
Proof.
  revert n. induction pre as [|c pre IH]; intros n H.
  - exists ""%string, n. split; [reflexivity | exact H].
  - destruct n as [|d n]; [discriminate|].
    simpl in H. injection H as _ H.
    destruct (IH n H) as (front & ext & -> & Hext).
    exists (String d front), ext. split; [reflexivity | exact Hext].
Qed.

(** [has_midi_ext] is "ends with .mid or .midi, whatever the case". *)
Lemma has_midi_ext_spec (n : string) :
  has_midi_ext n = true <->
  exists front ext,
    n = (front ++ ext)%string /\
    (PyStr.lower ext = ".mid"%string \/ PyStr.lower ext = ".midi"%string).
Proof.
  unfold has_midi_ext. cbn [existsb]. rewrite orb_false_r. split.
  - intros H. apply orb_prop in H as [H|H];
      apply endswith_spec in H as [pre Hpre];
      apply lower_split in Hpre as (front & ext & Hn & Hext);
      exists front, ext; auto.
  - intros (front & ext & -> & [H|H]); rewrite lower_app, H;
      apply orb_true_iff; [left | right];
      apply endswith_spec; eexists; reflexivity.
Qed.

Lemma tar_run_members (W : World) (p : Path) (s : OS) (tar : TarFile)
      (members : list TarInfo) :
  tarfile_open W p = Ok tar -> getmembers tar = Ok members ->
  extract_midi_from_tar W p s =
  (Ok (fst (effects (tar_member_effect p) members)),
   printed s (snd (effects (tar_member_effect p) members))).
Proof.
  intros Ho Hm. rewrite extract_midi_from_tar_run.
  unfold tar_effect. now rewrite Ho, Hm.
Qed.

Lemma zip_run_members (W : World) (p : Path) (s : OS) (zip_file : ZipFile) :
  zipfile_ZipFile W p = Ok zip_file ->
  extract_midi_from_zip W p s =
  (Ok (fst (effects (zip_member_effect p) (infolist zip_file))),
   printed s (snd (effects (zip_member_effect p) (infolist zip_file)))).
Proof.
  intros Ho. rewrite extract_midi_from_zip_run.
  unfold zip_effect. now rewrite Ho.
Qed.

Lemma tar_rows_readable (p : Path) (members : list TarInfo) :
  (forall m, In m members ->
             isfile m = true -> has_midi_ext (tar_name m) = true ->
             tar_payload m <> None) ->
  fst (effects (tar_member_effect p) members) =
  map (fun m => mkRow (tar_group p) (PyPath.basename (tar_name m))
                      (bytes_of (tar_payload m))
                      (len (bytes_of (tar_payload m))))
      (filter (fun m => (isfile m && has_midi_ext (tar_name m))%bool) members).
Proof.
  induction members as [|m members IH]; intros Hread; [reflexivity|].
  rewrite effects_cons. cbn [fst filter]. rewrite IH
    by (intros; apply Hread; simpl; auto).
  assert (Hm := Hread m (or_introl eq_refl)).
  unfold tar_member_effect at 1.
  destruct (isfile m); cbn [andb]; [|reflexivity].
  destruct (has_midi_ext (tar_name m)); [|reflexivity].
  specialize (Hm eq_refl eq_refl). cbn [map fst app]. unfold tar_payload in *.
  destruct (extractfile m) as [[f|]|e]; try congruence.
  destruct (read f) as [c|e]; [reflexivity | congruence].
Qed.

Lemma zip_rows_readable (p : Path) (infos : list ZipInfo) :
  (forall i, In i infos ->
             is_dir i = false -> has_midi_ext (filename i) = true ->
             zip_payload i <> None) ->
  fst (effects (zip_member_effect p) infos) =
  map (fun i => mkRow (zip_group p) (PyPath.basename (filename i))
                      (bytes_of (zip_payload i))
                      (len (bytes_of (zip_payload i))))
      (filter (fun i => (negb (is_dir i) && has_midi_ext (filename i))%bool)
              infos).
Proof.
  induction infos as [|i infos IH]; intros Hread; [reflexivity|].
  rewrite effects_cons. cbn [fst filter]. rewrite IH
    by (intros; apply Hread; simpl; auto).
  assert (Hi := Hread i (or_introl eq_refl)).
  unfold zip_member_effect at 1.
  destruct (is_dir i); cbn [negb andb]; [reflexivity|].
  destruct (has_midi_ext (filename i)); [|reflexivity].
  specialize (Hi eq_refl eq_refl). cbn [map fst app]. unfold zip_payload in *.
  destruct (zip_read i) as [c|e]; [reflexivity | congruence].
Qed.

(** ** The size of a row is the length of its content *)

Lemma effects_Forall {A : Type} (P : Row -> Prop) (f : A -> Effect)
      (l : list A) :
  (forall x, Forall P (fst (f x))) -> Forall P (fst (effects f l)).
Proof.
  intros H. unfold effects. cbn [fst]. apply Forall_flat_map.
  apply Forall_forall. intros x _. apply H.
Qed.

Lemma tar_member_effect_ok (p : Path) (m : TarInfo) :
  Forall row_ok (fst (tar_member_effect p m)).
Proof.
  unfold tar_member_effect.
  destruct (isfile m && has_midi_ext (tar_name m))%bool; [|constructor].
  destruct (extractfile m) as [[f|]|e]; try constructor.
  destruct (read f) as [c|e]; repeat constructor.
Qed.

Lemma zip_member_effect_ok (p : Path) (i : ZipInfo) :
  Forall row_ok (fst (zip_member_effect p i)).
Proof.
  unfold zip_member_effect.
  destruct (negb (is_dir i) && has_midi_ext (filename i))%bool; [|constructor].
  destruct (zip_read i) as [c|e]; repeat constructor.
Qed.

Lemma tar_effect_ok (W : World) (p : Path) :
  Forall row_ok (fst (tar_effect W p)).
Proof.
  unfold tar_effect. destruct (tarfile_open W p) as [tar|e]; [|constructor].
  destruct (getmembers tar) as [members|e]; [|constructor].
  apply effects_Forall, tar_member_effect_ok.
Qed.

Lemma zip_effect_ok (W : World) (p : Path) :
  Forall row_ok (fst (zip_effect W p)).
Proof.
  unfold zip_effect. destruct (zipfile_ZipFile W p) as [z|e]; [|constructor].
  apply effects_Forall, zip_member_effect_ok.
Qed.

Lemma archive_effect_ok (W : World) (p : Path) :
  Forall row_ok (fst (archive_effect W p)).
Proof.
  unfold archive_effect. destruct (String.eqb _ _); [apply zip_effect_ok|].
  destruct (PyStr.endswith _ _); [apply tar_effect_ok | constructor].
Qed.

Lemma collected_ok (W : World) (as_completed : Scheduler)
      (archives : list Path) (jobs : option Z) :
  Forall row_ok (fst (collected W as_completed archives jobs)).
Proof. apply effects_Forall, archive_effect_ok. Qed.

Lemma as_table_ok (W : World) (data : list Row) (df : Table) :
  as_table W data = Ok df -> df = data.
Proof.
  unfold as_table. destruct data as [|r data]; [now inversion 1|].
  destruct (pl_DataFrame W (r :: data)) as [[]|e]; now inversion 1.
Qed.

Lemma process_archives_table (W : World) (as_completed : Scheduler)
      (archives : list Path) (jobs : option Z) (s s' : OS) (df : Table) :
  process_archives W as_completed archives jobs s = (Ok df, s') ->
  df = fst (collected W as_completed archives jobs).
Proof.
  intros H.
  destruct (Z.leb_spec (pool_size W archives jobs) 0) as [Hle|Hlt].
  - rewrite process_archives_no_pool in H by exact Hle. discriminate.
  - rewrite process_archives_run in H by exact Hlt.
    apply (f_equal fst) in H. cbn [fst] in H. now apply as_table_ok in H.
Qed.

Lemma main_writes_the_table (W : World) (as_completed : Scheduler)
      (args : Args) (out : Path) (df : Table) (c : string) (l : Z)
      (b : string) :
  In (WriteParquet out df c l b) (snd (main_outcome W as_completed args)) ->
  df = fst (collected W as_completed
                      (find_archives W (resolve W (arg_input_dir args)))
                      (arg_jobs args)).
Proof.
  unfold main_outcome. cbv zeta.
  destruct (negb (path_exists W _)); [intros []|].
  destruct (negb (path_is_dir W _)); [intros []|].
  destruct (find_archives W _) as [|a rest]; [intros []|].
  destruct (_ <=? 0); [intros []|].
  destruct (fst (collected W as_completed (a :: rest) (arg_jobs args)))
    as [|r rows]; [intros []|].
  destruct (pl_DataFrame W _) as [[]|e]; [|intros []].
  destruct (mkdir_parents W _) as [[]|e]; [|intros []].
  destruct (write_parquet W _ _) as [[]|e]; cbn [snd In]; intros H.
  - destruct H as [H|[H|[]]]; [discriminate|]. now inversion H.
  - destruct H as [H|[]]. discriminate.
Qed.

(** C3.  Every row has [file_size] equal to the length of [content]:
    the rows each extraction function returns, the rows of the table
    [process_archives] builds, and the rows of the table [main] hands to
    the parquet writer, which is that same table, unchanged. *)
Theorem file_size_is_content_length (W : World) (as_completed : Scheduler)
        (args : Args) (s : OS) :
  (forall p, exists rows s',
        extract_midi_from_tar W p s = (Ok rows, s') /\ Forall row_ok rows) /\
  (forall p, exists rows s',
        extract_midi_from_zip W p s = (Ok rows, s') /\ Forall row_ok rows) /\
  (forall archives jobs df s',
      process_archives W as_completed archives jobs s = (Ok df, s') ->
      Forall row_ok df) /\
  (exists ops,
      fs_ops (snd (main W as_completed args s)) = fs_ops s ++ ops /\
      forall out df c l b,
        In (WriteParquet out df c l b) ops ->
        df = fst (collected W as_completed
                            (find_archives W (resolve W (arg_input_dir args)))
                            (arg_jobs args)) /\
        Forall row_ok df).
Proof.
  repeat split.
  - intros p. rewrite extract_midi_from_tar_run.
    do 2 eexists. split; [reflexivity | apply tar_effect_ok].
  - intros p. rewrite extract_midi_from_zip_run.
    do 2 eexists. split; [reflexivity | apply zip_effect_ok].
  - intros archives jobs df s' H.
    rewrite (process_archives_table _ _ _ _ _ _ _ H). apply collected_ok.
  - destruct (main_run W as_completed args s) as [lines Hrun].
    exists (snd (main_outcome W as_completed args)). rewrite Hrun.
    split; [reflexivity|]. intros out df c l b Hin.
    apply main_writes_the_table in Hin. subst df.
    split; [reflexivity | apply collected_ok].
Qed.

(** ** Failures stay inside the extraction functions *)

Lemma tar_failed_member_effect (p : Path) (m : TarInfo) (e : exn) :
  isfile m = true -> has_midi_ext (tar_name m) = true ->
  (extractfile m = Raise e \/
   exists f, extractfile m = Ok (Some f) /\ read f = Raise e) ->
  tar_member_effect p m = ([], [WarnRead p (tar_name m) e]).
Proof.
  intros Hf Hx H. unfold tar_member_effect. rewrite Hf, Hx. cbn [andb].
  destruct H as [H|(f & H & Hr)]; rewrite H; [reflexivity|].
  now rewrite Hr.
Qed.


Lemma effects_middle {A : Type} (f : A -> Effect) (before after : list A)
      (x : A) :
  effects f (before ++ x :: after) =
  (fst (effects f before) ++ fst (f x) ++ fst (effects f after),
   snd (effects f before) ++ snd (f x) ++ snd (effects f after)).
Proof. now rewrite effects_app, effects_cons. Qed.


(** C10.  A regular tar member with a MIDI name for which [extractfile]
    returns [None] adds no row and prints nothing: the archive yields
    what it would yield without that member.  The failures next to it do
    print: an exception of [extractfile] or of [read] prints a warning
    line, an archive that cannot be opened an error line. *)
Theorem tar_member_without_file_object_is_silent (W : World) (p : Path)
        (s : OS) :
  (forall tar before m after,
      tarfile_open W p = Ok tar ->
      getmembers tar = Ok (before ++ m :: after) ->
      isfile m = true -> has_midi_ext (tar_name m) = true ->
      extractfile m = Ok None ->
      extract_midi_from_tar W p s =
      (Ok (fst (effects (tar_member_effect p) (before ++ after))),
       printed s (snd (effects (tar_member_effect p) (before ++ after))))) /\
  (forall tar m,
      tarfile_open W p = Ok tar -> getmembers tar = Ok [m] ->
      isfile m = true -> has_midi_ext (tar_name m) = true ->
      extractfile m = Ok None ->
      extract_midi_from_tar W p s = (Ok [], s)) /\
  (forall tar m e,
      tarfile_open W p = Ok tar -> getmembers tar = Ok [m] ->
      isfile m = true -> has_midi_ext (tar_name m) = true ->
      (extractfile m = Raise e \/
       exists f, extractfile m = Ok (Some f) /\ read f = Raise e) ->
      extract_midi_from_tar W p s =
      (Ok [], printed s [WarnRead p (tar_name m) e])) /\
  (forall e,
      tarfile_open W p = Raise e ->
      extract_midi_from_tar W p s = (Ok [], printed s [ErrOpenTar p e])).
Proof.
  assert (Hnone : forall m,
             isfile m = true -> has_midi_ext (tar_name m) = true ->
             extractfile m = Ok None -> tar_member_effect p m = ([], [])).
  { intros m Hf Hx Hn. unfold tar_member_effect. now rewrite Hf, Hx, Hn. }
  repeat split.
  - intros tar before m after Ho Hm Hf Hx Hn.
    rewrite (tar_run_members W p s tar _ Ho Hm), effects_middle, effects_app.
    now rewrite (Hnone m Hf Hx Hn).
  - intros tar m Ho Hm Hf Hx Hn.
    rewrite (tar_run_members W p s tar _ Ho Hm), effects_cons, effects_nil.
    rewrite (Hnone m Hf Hx Hn). cbn [fst snd app]. now rewrite printed_nil.
  - intros tar m e Ho Hm Hf Hx Hfail.
    rewrite (tar_run_members W p s tar _ Ho Hm), effects_cons, effects_nil.
    now rewrite (tar_failed_member_effect p m e Hf Hx Hfail).
  - intros e H. rewrite extract_midi_from_tar_run. unfold tar_effect.
    now rewrite H.
Qed.

(** ** Persistence *)

Lemma height_0_nil (df : Table) : height df = 0 <-> df = [].
Proof.
  split; [|now intros ->].
  destruct df; [reflexivity|]. unfold height, len. simpl List.length. lia.
Qed.

(** C7.  On an empty table [save_to_parquet] prints its warning and
    returns: no directory is created and nothing is written, the list of
    file-system operations is what it was.  On a non-empty table, when the
    directory can be created and the write succeeds, it creates the parent
    directory, writes the table and reports [df.height] records. *)
Theorem save_to_parquet_empty_is_noop (W : World) (out : Path) (s : OS) :
  (forall df,
      height df = 0 ->
      save_to_parquet W df out s =
      (Ok tt, mkOS (stdout s ++ [NoDataToSave]) (fs_ops s))) /\
  (forall df,
      height df <> 0 ->
      mkdir_parents W (PyPath.parent out) = Ok tt ->
      write_parquet W out df = Ok tt ->
      save_to_parquet W df out s =
      (Ok tt,
       mkOS (stdout s ++ [Saving out; Saved (height df) out])
            (fs_ops s ++ [Mkdir (PyPath.parent out);
                          WriteParquet out df "zstd" 22 "group"]))).
Proof.
  split.
  - intros df H. apply height_0_nil in H. subst df. reflexivity.
  - intros df H Hm Hw. rewrite save_to_parquet_run.
    + now rewrite Hm, Hw.
    + intros ->. now apply H.
Qed.

(** ** Exit codes *)



(** ** The default number of workers *)

(** C8, as stated: with eight processing units and one archive the
    default pool has one worker, not eight, and the run differs from a
    run with [-j 8]. *)
Lemma default_pool_is_not_cpu_count :
  cpu_count Demo.world = 8 /\
  hd_error (stdout (snd (process_archives Demo.world Demo.in_order
                                          ["/data/a.zip"] None Demo.os0))) =
  Some (UsingWorkers 1 1) /\
  process_archives Demo.world Demo.in_order ["/data/a.zip"] None Demo.os0 <>
  process_archives Demo.world Demo.in_order ["/data/a.zip"]
                   (Some (cpu_count Demo.world)) Demo.os0.
Proof.
  split; [reflexivity|]. split; [reflexivity|].
  vm_compute. intros H. discriminate H.
Qed.

(** C8, amended.  With no worker count given ([-j] absent, so
    [max_workers] is [None]) the pool has min(processing units, number of
    archives) workers; that is the number of processing units only when
    there are at least as many archives. *)
Theorem default_pool_size (W : World) (as_completed : Scheduler)
        (archives : list Path) (s : OS) :
  process_archives W as_completed archives None s =
  process_archives W as_completed archives
                   (Some (Z.min (cpu_count W) (len archives))) s /\
  (cpu_count W <= len archives ->
   process_archives W as_completed archives None s =
   process_archives W as_completed archives (Some (cpu_count W)) s) /\
  (forall i o np,
      main W as_completed (mkArgs i o None np) s =
      main W as_completed
           (mkArgs i o
                   (Some (Z.min (cpu_count W)
                                (len (find_archives W (resolve W i)))))
                   np) s).
Proof.
  split; [reflexivity|]. split; [|reflexivity].
  intros H. unfold process_archives.
  now rewrite (Z.min_l _ _ H).
Qed.

(** ** The table does not depend on the pool *)

Lemma Permutation_filter {A : Type} (f : A -> bool) (l l' : list A) :
  Permutation l l' -> Permutation (filter f l) (filter f l').
Proof.
  induction 1 as [|x l l' _ IH|x y l|l l' l'' _ IH1 _ IH2]; cbn [filter].
  - constructor.
  - destruct (f x); [now constructor | exact IH].
  - destruct (f x), (f y); try apply Permutation_refl. constructor.
  - now transitivity (filter f l').
Qed.

Lemma len_perm {A : Type} (l l' : list A) :
  Permutation l l' -> len l = len l'.
Proof. intros H. unfold len. now rewrite (Permutation_length H). Qed.

Lemma sum_sizes_perm (df df' : Table) :
  Permutation df df' -> sum_sizes df = sum_sizes df'.
Proof.
  unfold sum_sizes.
  induction 1 as [|x l l' _ IH|x y l|l l' l'' _ IH1 _ IH2]; cbn [map fold_right];
    lia.
Qed.

Section Extremum.

Variable op : Z -> Z -> Z.
Variable le : Z -> Z -> Prop.
Hypothesis op_pick : forall a b, op a b = a \/ op a b = b.
Hypothesis op_l : forall a b, le a (op a b).
Hypothesis op_r : forall a b, le b (op a b).
Hypothesis le_trans : forall a b c, le a b -> le b c -> le a c.
Hypothesis le_antisym : forall a b, le a b -> le b a -> a = b.

Lemma fold_in (x : Z) (l : list Z) : In (fold_right op x l) (x :: l).
Proof.
  induction l as [|y l IH]; cbn [fold_right]; [now left|].
  destruct (op_pick y (fold_right op x l)) as [E|E]; rewrite E.
  - right. now left.
  - destruct IH as [IH|IH]; [now left | right; now right].
Qed.

Lemma fold_bound (x : Z) (l : list Z) (y : Z) :
  In y (x :: l) -> le y (fold_right op x l).
Proof.
  induction l as [|z l IH]; cbn [fold_right]; intros H.
  - destruct H as [<-|[]].
    destruct (op_pick x x) as [E|E]; rewrite <- E at 2; apply op_l.
  - destruct H as [<-|[<-|H]].
    + eapply le_trans; [apply IH; now left | apply op_r].
    + apply op_l.
    + eapply le_trans; [apply IH; now right | apply op_r].
Qed.

Lemma fold_perm (x y : Z) (l l' : list Z) :
  Permutation (x :: l) (y :: l') -> fold_right op x l = fold_right op y l'.
Proof.
  intros H. apply le_antisym; apply fold_bound.
  - apply (Permutation_in _ H), fold_in.
  - apply (Permutation_in _ (Permutation_sym H)), fold_in.
Qed.

End Extremum.

Lemma max_size_perm (df df' : Table) :
  Permutation df df' -> max_size df = max_size df'.
Proof.
  intros H. apply (Permutation_map file_size) in H. unfold max_size.
  destruct (map file_size df) as [|x l], (map file_size df') as [|y l'].
  - reflexivity.
  - now apply Permutation_nil_cons in H.
  - apply Permutation_sym in H. now apply Permutation_nil_cons in H.
  - f_equal. apply (fold_perm Z.max Z.le); intros; try lia. exact H.
Qed.

Lemma min_size_perm (df df' : Table) :
  Permutation df df' -> min_size df = min_size df'.
Proof.
  intros H. apply (Permutation_map file_size) in H. unfold min_size.
  destruct (map file_size df) as [|x l], (map file_size df') as [|y l'].
  - reflexivity.
  - now apply Permutation_nil_cons in H.
  - apply Permutation_sym in H. now apply Permutation_nil_cons in H.
  - f_equal. apply (fold_perm Z.min Z.ge); intros; try lia. exact H.
Qed.

Lemma collected_perm (W : World) (sched1 sched2 : Scheduler)
      (archives : list Path) (jobs1 jobs2 : option Z) :
  fair sched1 -> fair sched2 ->
  Permutation (fst (collected W sched1 archives jobs1))
              (fst (collected W sched2 archives jobs2)).
Proof.
  intros H1 H2. unfold collected, effects. cbn [fst].
  apply Permutation_flat_map.
  transitivity archives; [apply H1 | symmetry; apply H2].
Qed.

(** With at least one worker, [process_archives] returns a table exactly
    when there is no row or [pl.DataFrame] accepts the rows. *)
Lemma process_archives_returns (W : World) (as_completed : Scheduler)
      (archives : list Path) (jobs : option Z) (s : OS) :
  0 < pool_size W archives jobs ->
  (exists df s', process_archives W as_completed archives jobs s = (Ok df, s'))
  <->
  (fst (collected W as_completed archives jobs) = [] \/
   pl_DataFrame W (fst (collected W as_completed archives jobs)) = Ok tt).
Proof.
  intros P. rewrite process_archives_run by exact P. unfold as_table.
  destruct (fst (collected W as_completed archives jobs)) as [|r rows].
  - split; [now left | intros _; now do 2 eexists].
  - destruct (pl_DataFrame W (r :: rows)) as [[]|e].
    + split; [now right | intros _; now do 2 eexists].
    + split.
      * intros (df & s' & H). discriminate.
      * intros [H|H]; discriminate.
Qed.

(** C9.  Whatever the pool sizes (1 and N, or the default) and whatever
    the order in which the tasks complete, the tables two runs of
    [process_archives] return are permutations of one another, and the
    statistics read from them agree: number of rows, total, mean,
    largest and smallest size, the count of every size bucket, the count
    and total of every group.  [process_archives] returns no table when
    [pl.DataFrame] refuses the rows; as long as that verdict does not
    depend on the order of the rows, one run returns a table exactly
    when the other does. *)
Theorem table_independent_of_pool (W : World) (sched1 sched2 : Scheduler)
        (archives : list Path) (jobs1 jobs2 : option Z) (s : OS) :
  fair sched1 -> fair sched2 ->
  0 < pool_size W archives jobs1 -> 0 < pool_size W archives jobs2 ->
  (forall df1 df2 s1 s2,
      process_archives W sched1 archives jobs1 s = (Ok df1, s1) ->
      process_archives W sched2 archives jobs2 s = (Ok df2, s2) ->
      Permutation df1 df2 /\
      height df1 = height df2 /\
      sum_sizes df1 = sum_sizes df2 /\
      avg_size df1 = avg_size df2 /\
      max_size df1 = max_size df2 /\
      min_size df1 = min_size df2 /\
      (forall c, bucket_count df1 c = bucket_count df2 c) /\
      (forall g, group_count df1 g = group_count df2 g /\
                 group_total df1 g = group_total df2 g)) /\
  ((forall data data',
       Permutation data data' ->
       pl_DataFrame W data = Ok tt -> pl_DataFrame W data' = Ok tt) ->
   (exists df1 s1,
       process_archives W sched1 archives jobs1 s = (Ok df1, s1)) <->
   (exists df2 s2,
       process_archives W sched2 archives jobs2 s = (Ok df2, s2))).
Proof.
  intros F1 F2 P1 P2.
  pose proof (collected_perm W sched1 sched2 archives jobs1 jobs2 F1 F2) as HP.
  split.
  - intros df1 df2 s1 s2 R1 R2.
    apply process_archives_table in R1, R2. subst df1 df2.
    set (df1 := fst (collected W sched1 archives jobs1)) in *.
    set (df2 := fst (collected W sched2 archives jobs2)) in *.
    assert (Hh : height df1 = height df2) by now apply len_perm.
    assert (Hs : sum_sizes df1 = sum_sizes df2) by now apply sum_sizes_perm.
    repeat split; auto.
    + unfold avg_size. now rewrite Hh, Hs.
    + now apply max_size_perm.
    + now apply min_size_perm.
    + intros c. unfold bucket_count, rows_where.
      now apply len_perm, Permutation_filter.
    + unfold group_count, rows_where. now apply len_perm, Permutation_filter.
    + unfold group_total, rows_where.
      now apply sum_sizes_perm, Permutation_filter.
  - intros Hinv.
    rewrite (process_archives_returns W sched1 archives jobs1 s P1).
    rewrite (process_archives_returns W sched2 archives jobs2 s P2).
    split; intros [H|H].
    + left. rewrite H in HP. now apply Permutation_nil in HP.
    + right. now apply (Hinv _ _ HP).
    + left. rewrite H in HP. apply Permutation_sym in HP.
      now apply Permutation_nil in HP.
    + right. now apply (Hinv _ _ (Permutation_sym HP)).
Qed.

(** ** Discovered archives reach the right extraction function *)

Lemma drop_app (s t : string) (k : nat) :
  PyStr.drop (String.length s + k) (s ++ t) = PyStr.drop k t.
Proof. induction s as [|a s IH]; simpl; [reflexivity | exact IH]. Qed.

Lemma drop_0 (t : string) : PyStr.drop 0 t = t.
Proof. now destruct t. Qed.

Lemma suffix_of_name (p : Path) (base ext : string) :
  PyPath.name p = (base ++ String "." ext)%string ->
  base <> ""%string -> ext <> ""%string ->
  PyStr.rfind ext "." = None ->
  PyPath.suffix p = String "." ext.
Proof.
  intros Hn Hb He Hr. unfold PyPath.suffix. rewrite Hn.
  rewrite rfind_app. cbn [PyStr.rfind]. rewrite Hr.
  change (Ascii.eqb "." ".") with true. cbv iota.
  rewrite length_app. cbn [String.length].
  apply nonempty_length in Hb, He.
  replace ((0 <? String.length base + 0)%nat &&
           (String.length base + 0 <?
            String.length base + S (String.length ext) - 1)%nat)%bool
    with true.
  - now rewrite drop_app, drop_0.
  - symmetry. apply andb_true_intro. split; apply Nat.ltb_lt; lia.
Qed.

Lemma zip_archive_dispatch (W : World) (p : Path) (base : string) :
  PyPath.name p = (base ++ ".zip")%string -> base <> ""%string ->
  process_single_archive W p = extract_midi_from_zip W p.
Proof.
  intros Hn Hb. unfold process_single_archive.
  rewrite (suffix_of_name p base "zip" Hn Hb); [reflexivity | discriminate |].
  reflexivity.
Qed.

Lemma tar_archive_dispatch (W : World) (p : Path) (base : string) :
  PyPath.name p = (base ++ ".tar.gz")%string ->
  process_single_archive W p = extract_midi_from_tar W p.
Proof.
  intros Hn. unfold process_single_archive.
  rewrite (suffix_of_name p (base ++ ".tar") "gz").
  - cbn [PyStr.lower PyStr.lower_char String.eqb].
    replace (PyStr.endswith (PyStr.lower (PyPath.name p)) ".tar.gz") with true.
    + reflexivity.
    + symmetry. rewrite Hn, lower_app. apply endswith_spec.
      eexists. reflexivity.
  - rewrite Hn. clear. induction base as [|c b IH]; simpl; [reflexivity|].
    now rewrite IH.
  - destruct base; discriminate.
  - discriminate.
  - reflexivity.
Qed.

(** The table is made of the rows of every archive, each archive once. *)
Lemma table_rows_by_archive (W : World) (as_completed : Scheduler)
      (archives : list Path) (jobs : option Z) (s : OS) :
  fair as_completed ->
  forall df s',
    process_archives W as_completed archives jobs s = (Ok df, s') ->
    Permutation df (flat_map (fun a => fst (archive_effect W a)) archives).
Proof.
  intros F df s' H. rewrite (process_archives_table _ _ _ _ _ _ _ H).
  unfold collected, effects. cbn [fst]. apply Permutation_flat_map, F.
Qed.

(** ** Which entries reach the table *)

Lemma lower_char_m (c : ascii) :
  PyStr.lower_char c = "m"%char <-> either_case "m" "M" c.
Proof.
  unfold either_case.
  destruct c as [[] [] [] [] [] [] [] []]; vm_compute; split; intros H;
    first [ discriminate H | now left | now right | reflexivity
          | destruct H as [H|H]; discriminate H ].
Qed.

Lemma lower_char_i (c : ascii) :
  PyStr.lower_char c = "i"%char <-> either_case "i" "I" c.
Proof.
  unfold either_case.
  destruct c as [[] [] [] [] [] [] [] []]; vm_compute; split; intros H;
    first [ discriminate H | now left | now right | reflexivity
          | destruct H as [H|H]; discriminate H ].
Qed.

Lemma lower_char_d (c : ascii) :
  PyStr.lower_char c = "d"%char <-> either_case "d" "D" c.
Proof.
  unfold either_case.
  destruct c as [[] [] [] [] [] [] [] []]; vm_compute; split; intros H;
    first [ discriminate H | now left | now right | reflexivity
          | destruct H as [H|H]; discriminate H ].
Qed.

Lemma lower_char_period (c : ascii) :
  PyStr.lower_char c = "."%char <-> c = "."%char.
Proof.
  destruct c as [[] [] [] [] [] [] [] []]; vm_compute; split; intros H;
    first [ discriminate H | reflexivity ].
Qed.

Lemma lower_is_mid (ext : string) :
  PyStr.lower ext = ".mid"%string <->
  exists m i d,
    either_case "m" "M" m /\ either_case "i" "I" i /\
    either_case "d" "D" d /\
    ext = String "." (String m (String i (String d ""))).
Proof.
  split.
  - destruct ext as [|p [|m [|i [|d [|x ext]]]]]; try discriminate.
    cbn [PyStr.lower]. intros H. injection H as Hp Hm Hi Hd.
    apply (proj1 (lower_char_period p)) in Hp. subst p.
    exists m, i, d.
    split; [now apply lower_char_m|]. split; [now apply lower_char_i|].
    split; [now apply lower_char_d | reflexivity].
  - intros (m & i & d & Hm & Hi & Hd & ->). cbn [PyStr.lower].
    apply (proj2 (lower_char_m m)) in Hm.
    apply (proj2 (lower_char_i i)) in Hi.
    apply (proj2 (lower_char_d d)) in Hd. now rewrite Hm, Hi, Hd.
Qed.

Lemma lower_is_midi (ext : string) :
  PyStr.lower ext = ".midi"%string <->
  exists m i d i',
    either_case "m" "M" m /\ either_case "i" "I" i /\
    either_case "d" "D" d /\ either_case "i" "I" i' /\
    ext = String "." (String m (String i (String d (String i' "")))).
Proof.
  split.
  - destruct ext as [|p [|m [|i [|d [|i' [|x ext]]]]]]; try discriminate.
    cbn [PyStr.lower]. intros H. injection H as Hp Hm Hi Hd Hi'.
    apply (proj1 (lower_char_period p)) in Hp. subst p.
    exists m, i, d, i'.
    split; [now apply lower_char_m|]. split; [now apply lower_char_i|].
    split; [now apply lower_char_d|].
    split; [now apply lower_char_i | reflexivity].
  - intros (m & i & d & i' & Hm & Hi & Hd & Hi' & ->). cbn [PyStr.lower].
    apply (proj2 (lower_char_m m)) in Hm.
    apply (proj2 (lower_char_i i)) in Hi.
    apply (proj2 (lower_char_d d)) in Hd.
    apply (proj2 (lower_char_i i')) in Hi'.
    now rewrite Hm, Hi, Hd, Hi'.
Qed.

(** The test of the code is the test of the specification. *)
Lemma has_midi_ext_is_spec (n : string) :
  has_midi_ext n = true <-> spec_midi_name n.
Proof.
  rewrite has_midi_ext_spec. unfold spec_midi_name. split.
  - intros (front & ext & -> & [H|H]).
    + apply lower_is_mid in H as (m & i & d & Hm & Hi & Hd & ->).
      exists front, m, i, d. auto.
    + apply lower_is_midi in H as (m & i & d & i' & Hm & Hi & Hd & Hi' & ->).
      exists front, m, i, d. repeat (split; [assumption|]).
      right. now exists i'.
  - intros (front & m & i & d & Hm & Hi & Hd & [->|(i' & Hi' & ->)]).
    + exists front. eexists. split; [reflexivity|]. left.
      apply lower_is_mid. now exists m, i, d.
    + exists front. eexists. split; [reflexivity|]. right.
      apply lower_is_midi. now exists m, i, d, i'.
Qed.

Lemma effects_rows_in {A : Type} (f : A -> Effect) (l : list A) (r : Row) :
  In r (fst (effects f l)) <-> exists x, In x l /\ In r (fst (f x)).
Proof. unfold effects. cbn [fst]. apply in_flat_map. Qed.

(** The rows of one entry: a regular file with a MIDI name whose bytes
    can be read gives its row, and nothing else gives a row. *)
Lemma zip_member_effect_row (p : Path) (i : ZipInfo) (r : Row) :
  In r (fst (zip_member_effect p i)) <->
  is_dir i = false /\ spec_midi_name (filename i) /\
  zip_payload i = Some (content r) /\
  r = mkRow (zip_group p) (PyPath.basename (filename i))
            (content r) (len (content r)).
Proof.
  rewrite <- has_midi_ext_is_spec. unfold zip_member_effect, zip_payload.
  destruct (is_dir i); cbn [negb andb].
  { split; [intros [] | now intros (H & _)]. }
  destruct (has_midi_ext (filename i)).
  2:{ split; [intros [] | now intros (_ & H & _)]. }
  destruct (zip_read i) as [c|e]; cbn [fst In].
  - split.
    + intros [<-|[]]. cbn [content]. auto.
    + intros (_ & _ & Hc & Hr). injection Hc as Hc. left.
      rewrite Hr. cbn [content]. now rewrite <- Hc.
  - split; [intros [] | now intros (_ & _ & H & _)].
Qed.

Lemma tar_member_effect_row (p : Path) (m : TarInfo) (r : Row) :
  In r (fst (tar_member_effect p m)) <->
  isfile m = true /\ spec_midi_name (tar_name m) /\
  tar_payload m = Some (content r) /\
  r = mkRow (tar_group p) (PyPath.basename (tar_name m))
            (content r) (len (content r)).
Proof.
  rewrite <- has_midi_ext_is_spec. unfold tar_member_effect, tar_payload.
  destruct (isfile m); cbn [andb].
  2:{ split; [intros [] | now intros (H & _)]. }
  destruct (has_midi_ext (tar_name m)).
  2:{ split; [intros [] | now intros (_ & H & _)]. }
  destruct (extractfile m) as [[f|]|e]; cbn [fst In].
  - destruct (read f) as [c|e]; cbn [fst In].
    + split.
      * intros [<-|[]]. cbn [content]. auto.
      * intros (_ & _ & Hc & Hr). injection Hc as Hc. left.
        rewrite Hr. cbn [content]. now rewrite <- Hc.
    + split; [intros [] | now intros (_ & _ & H & _)].
  - split; [intros [] | now intros (_ & _ & H & _)].
  - split; [intros [] | now intros (_ & _ & H & _)].
Qed.

(** The rows of one archive, by the extraction function that
    [process_single_archive] picks for it. *)
Lemma archive_effect_row (W : World) (A : Path) (r : Row) :
  In r (fst (archive_effect W A)) <->
  (PyStr.lower (PyPath.suffix A) = ".zip"%string /\
   exists zip_file i,
     zipfile_ZipFile W A = Ok zip_file /\ In i (infolist zip_file) /\
     In r (fst (zip_member_effect A i))) \/
  (PyStr.lower (PyPath.suffix A) <> ".zip"%string /\
   PyStr.endswith (PyStr.lower (PyPath.name A)) ".tar.gz" = true /\
   exists tar members m,
     tarfile_open W A = Ok tar /\ getmembers tar = Ok members /\
     In m members /\ In r (fst (tar_member_effect A m))).
Proof.
  unfold archive_effect.
  destruct (String.eqb_spec (PyStr.lower (PyPath.suffix A)) ".zip") as [E|E].
  - unfold zip_effect. split.
    + intros H. left. split; [exact E|].
      destruct (zipfile_ZipFile W A) as [z|e]; [|destruct H].
      apply effects_rows_in in H as (i & Hi & H). now exists z, i.
    + intros [(_ & z & i & Ho & Hi & H)|(H & _)]; [|congruence].
      rewrite Ho. apply effects_rows_in. now exists i.
  - destruct (PyStr.endswith (PyStr.lower (PyPath.name A)) ".tar.gz").
    + unfold tar_effect. split.
      * intros H. right. split; [exact E|]. split; [reflexivity|].
        destruct (tarfile_open W A) as [tar|e]; [|destruct H].
        destruct (getmembers tar) as [members|e] eqn:Hm; [|destruct H].
        apply effects_rows_in in H as (m & Hin & H).
        now exists tar, members, m.
      * intros [(H & _)|(_ & _ & tar & members & m & Ho & Hm & Hin & H)];
          [congruence|].
        rewrite Ho, Hm. apply effects_rows_in. now exists m.
    + split; [intros [] |].
      intros [(H & _)|(_ & H & _)]; [congruence | discriminate].
Qed.

(** C2, as stated: [b.tar.gz] is found and opens; its member whose name
    is the byte 0xFF followed by ".mid" is a regular file, its name ends
    with ".mid" and its three bytes can be read, and
    [extract_midi_from_tar] returns a row for it.  Yet no table holds
    that row: [pl.DataFrame] refuses the name, [process_archives] raises
    and [main] writes nothing. *)
Lemma midi_entry_without_a_table :
  let W := Faulty.no_table in
  let archives := find_archives W "/data" in
  let os := Demo.os0 in
  In "/data/b.tar.gz"%string archives /\
  tarfile_open W "/data/b.tar.gz" =
  Ok (mkTarFile (Ok [Demo.tune; Faulty.odd_name])) /\
  isfile Faulty.odd_name = true /\
  spec_midi_name (tar_name Faulty.odd_name) /\
  tar_payload Faulty.odd_name = Some (Demo.payload 3) /\
  fst (extract_midi_from_tar W "/data/b.tar.gz" os) =
  Ok [mkRow "b" "tune.midi" (Demo.payload 2050) 2050;
      mkRow "b" (String Faulty.xFF ".mid") (Demo.payload 3) 3] /\
  fst (process_archives W Demo.in_order archives None os) =
  Raise (Exception "UnicodeEncodeError: surrogates not allowed") /\
  fst (main W Demo.in_order Demo.args os) =
  Raise (Exception "UnicodeEncodeError: surrogates not allowed") /\
  fs_ops (snd (main W Demo.in_order Demo.args os)) = [].
Proof.
  cbv zeta.
  split; [left; reflexivity|]. split; [reflexivity|].
  split; [reflexivity|].
  split.
  { exists (String Faulty.xFF ""), "m"%char, "i"%char, "d"%char.
    unfold either_case. repeat (split; [auto|]). left. reflexivity. }
  split; [reflexivity|].
  repeat split; vm_compute; reflexivity.
Qed.

(** C2, amended.  Whenever [process_archives] returns a table, an entry
    of a submitted archive has a row in it exactly when it is a regular
    file (tar: [isfile()]; zip: not [is_dir()]) whose name ends, in any
    mixture of upper and lower case, with ".mid" or ".midi", and whose
    bytes can be read.  The test the code applies to a name is that
    test of the specification.  For an archive that opens and whose
    matching entries can all be read, the extraction function returns,
    in order, one row per such entry and no other row.  In the table,
    every such entry of a submitted archive has its row, under the
    group of that archive, named by the basename of the entry, with its
    bytes and their number; and every row of the table is the row of
    such an entry of a submitted archive. *)
Theorem midi_entries_become_rows (W : World) (as_completed : Scheduler)
        (archives : list Path) (jobs : option Z) (s s' : OS) (df : Table) :
  (forall n, has_midi_ext n = true <-> spec_midi_name n) /\
  (forall p tar members,
      tarfile_open W p = Ok tar -> getmembers tar = Ok members ->
      (forall m, In m members ->
                 isfile m = true -> spec_midi_name (tar_name m) ->
                 tar_payload m <> None) ->
      fst (extract_midi_from_tar W p s) =
      Ok (map (fun m => mkRow (tar_group p) (PyPath.basename (tar_name m))
                              (bytes_of (tar_payload m))
                              (len (bytes_of (tar_payload m))))
              (filter (fun m => (isfile m && has_midi_ext (tar_name m))%bool)
                      members))) /\
  (forall p zip_file,
      zipfile_ZipFile W p = Ok zip_file ->
      (forall i, In i (infolist zip_file) ->
                 is_dir i = false -> spec_midi_name (filename i) ->
                 zip_payload i <> None) ->
      fst (extract_midi_from_zip W p s) =
      Ok (map (fun i => mkRow (zip_group p) (PyPath.basename (filename i))
                              (bytes_of (zip_payload i))
                              (len (bytes_of (zip_payload i))))
              (filter (fun i => (negb (is_dir i) &&
                                 has_midi_ext (filename i))%bool)
                      (infolist zip_file)))) /\
  (fair as_completed ->
   process_archives W as_completed archives jobs s = (Ok df, s') ->
   (forall A zip_file i c,
       In A archives ->
       PyStr.lower (PyPath.suffix A) = ".zip"%string ->
       zipfile_ZipFile W A = Ok zip_file -> In i (infolist zip_file) ->
       is_dir i = false -> spec_midi_name (filename i) ->
       zip_payload i = Some c ->
       In (mkRow (zip_group A) (PyPath.basename (filename i)) c (len c))
          df) /\
   (forall A tar members m c,
       In A archives ->
       PyStr.lower (PyPath.suffix A) <> ".zip"%string ->
       PyStr.endswith (PyStr.lower (PyPath.name A)) ".tar.gz" = true ->
       tarfile_open W A = Ok tar -> getmembers tar = Ok members ->
       In m members ->
       isfile m = true -> spec_midi_name (tar_name m) ->
       tar_payload m = Some c ->
       In (mkRow (tar_group A) (PyPath.basename (tar_name m)) c (len c))
          df) /\
   (forall r,
       In r df ->
       exists A,
         In A archives /\
         ((PyStr.lower (PyPath.suffix A) = ".zip"%string /\
           exists zip_file i,
             zipfile_ZipFile W A = Ok zip_file /\
             In i (infolist zip_file) /\
             is_dir i = false /\ spec_midi_name (filename i) /\
             zip_payload i = Some (content r) /\
             r = mkRow (zip_group A) (PyPath.basename (filename i))
                       (content r) (len (content r))) \/
          (PyStr.lower (PyPath.suffix A) <> ".zip"%string /\
           PyStr.endswith (PyStr.lower (PyPath.name A)) ".tar.gz" = true /\
           exists tar members m,
             tarfile_open W A = Ok tar /\ getmembers tar = Ok members /\
             In m members /\
             isfile m = true /\ spec_midi_name (tar_name m) /\
             tar_payload m = Some (content r) /\
             r = mkRow (tar_group A) (PyPath.basename (tar_name m))
                       (content r) (len (content r)))))).
Proof.
  split; [apply has_midi_ext_is_spec|].
  split; [|split].
  - intros p tar members Ho Hm Hread.
    rewrite (tar_run_members W p s tar members Ho Hm). cbn [fst].
    rewrite tar_rows_readable; [reflexivity|].
    intros m Hin Hf Hx. apply Hread; auto. now apply has_midi_ext_is_spec.
  - intros p zip_file Ho Hread.
    rewrite (zip_run_members W p s zip_file Ho). cbn [fst].
    rewrite zip_rows_readable; [reflexivity|].
    intros i Hin Hd Hx. apply Hread; auto. now apply has_midi_ext_is_spec.
  - intros F Hrun.
    rewrite (process_archives_table _ _ _ _ _ _ _ Hrun). unfold collected.
    split; [|split].
    + intros A z i c HA Hsuf Ho Hi Hd Hx Hc.
      apply effects_rows_in. exists A.
      split; [exact (Permutation_in _ (Permutation_sym (F _ _)) HA)|].
      apply archive_effect_row. left. split; [exact Hsuf|].
      exists z, i. split; [exact Ho|]. split; [exact Hi|].
      apply zip_member_effect_row. cbn [content]. auto.
    + intros A tar members m c HA Hsuf Hend Ho Hm Hin Hf Hx Hc.
      apply effects_rows_in. exists A.
      split; [exact (Permutation_in _ (Permutation_sym (F _ _)) HA)|].
      apply archive_effect_row. right. split; [exact Hsuf|].
      split; [exact Hend|].
      exists tar, members, m. split; [exact Ho|]. split; [exact Hm|].
      split; [exact Hin|].
      apply tar_member_effect_row. cbn [content]. auto.
    + intros r Hr. apply effects_rows_in in Hr as (A & HA & Hr).
      exists A. split; [exact (Permutation_in _ (F _ _) HA)|].
      apply archive_effect_row in Hr
        as [(Hsuf & z & i & Ho & Hi & Hr)
           |(Hsuf & Hend & tar & members & m & Ho & Hm & Hin & Hr)].
      * left. split; [exact Hsuf|]. exists z, i.
        apply zip_member_effect_row in Hr as (Hd & Hx & Hc & Hrow).
        repeat (split; [assumption|]). exact Hrow.
      * right. split; [exact Hsuf|]. split; [exact Hend|].
        exists tar, members, m.
        apply tar_member_effect_row in Hr as (Hf & Hx & Hc & Hrow).
        repeat (split; [assumption|]). exact Hrow.
Qed.

(** The worked example of the specification: [a.zip] with [song.mid]
    (50 bytes) and [b.tar.gz] with [tune.midi] (2050 bytes). *)
Example two_archives_two_rows :
  let df := [mkRow "b" "tune.midi" (Demo.payload 2050) 2050;
             mkRow "a" "song.mid" (Demo.payload 50) 50] in
  fst (process_archives Demo.sound_world Demo.in_order
         (find_archives Demo.sound_world "/data") None Demo.os0) = Ok df /\
  bucket_count df "< 1KB" = 1 /\ bucket_count df "1KB - 10KB" = 1 /\
  height df = 2 /\ sum_sizes df = 2100 /\
  fst (main Demo.sound_world Demo.in_order Demo.args Demo.os0) = Ok 0.
Proof. vm_compute. repeat split; reflexivity. Qed.

(** ** The theorems at work on the example environment *)

Lemma get_size_category_buckets_witness :
  get_size_category 1024 = "1KB - 10KB"%string /\
  get_size_category 1023 = "< 1KB"%string.
Proof.
  split.
  - apply (proj1 (proj2 (get_size_category_buckets 1024))). lia.
  - apply (proj1 (get_size_category_buckets 1023)). lia.
Defined.

Lemma midi_entries_become_rows_witness :
  In (mkRow "a" "TAKE1.MID" (Demo.payload 5) 5)
     [mkRow "b" "Take2.MiDi" (Demo.payload 6) 6;
      mkRow "a" "TAKE1.MID" (Demo.payload 5) 5] /\
  In (mkRow "b" "Take2.MiDi" (Demo.payload 6) 6)
     [mkRow "b" "Take2.MiDi" (Demo.payload 6) 6;
      mkRow "a" "TAKE1.MID" (Demo.payload 5) 5].
Proof.
  destruct (proj2 (proj2 (proj2
             (midi_entries_become_rows
                Demo.live_world Demo.in_order
                ["/data/b.tar.gz"; "/data/a.zip"] None Demo.os0
                (snd (process_archives Demo.live_world Demo.in_order
                        ["/data/b.tar.gz"; "/data/a.zip"] None Demo.os0))
                [mkRow "b" "Take2.MiDi" (Demo.payload 6) 6;
                 mkRow "a" "TAKE1.MID" (Demo.payload 5) 5])))
             (fun _ l => Permutation_refl l))
    as (Hzip & Htar & _).
  - vm_compute. reflexivity.
  - split.
    + apply (Hzip "/data/a.zip"%string
                  (mkZipFile [mkZipInfo "Live/" true (Ok []); Demo.take1])
                  Demo.take1 (Demo.payload 5)).
      * right. left. reflexivity.
      * reflexivity.
      * reflexivity.
      * right. left. reflexivity.
      * reflexivity.
      * exists "Live/TAKE1"%string, "M"%char, "I"%char, "D"%char.
        unfold either_case. auto.
      * reflexivity.
    + apply (Htar "/data/b.tar.gz"%string
                  (mkTarFile (Ok [mkTarInfo "Live" false (Ok None);
                                  Demo.take2]))
                  [mkTarInfo "Live" false (Ok None); Demo.take2]
                  Demo.take2 (Demo.payload 6)).
      * left. reflexivity.
      * vm_compute. discriminate.
      * reflexivity.
      * reflexivity.
      * reflexivity.
      * right. left. reflexivity.
      * reflexivity.
      * exists "Live/Take2"%string, "M"%char, "i"%char, "D"%char.
        unfold either_case. repeat (split; [auto|]).
        right. exists "i"%char. auto.
      * reflexivity.
Defined.

Lemma file_size_is_content_length_witness :
  Forall row_ok
         [mkRow "a" "song.mid" (Demo.payload 50) 50;
          mkRow "b" "tune.midi" (Demo.payload 2050) 2050].
Proof.
  apply (proj1 (proj2 (proj2
           (file_size_is_content_length Demo.world Demo.last_first Demo.args
                                        Demo.os0)))
         ["/data/b.tar.gz"; "/data/bad.tar.gz"; "/data/a.zip"] None _
         (snd (process_archives Demo.world Demo.last_first
                 ["/data/b.tar.gz"; "/data/bad.tar.gz"; "/data/a.zip"] None
                 Demo.os0))).
  vm_compute. reflexivity.
Defined.


Lemma tar_member_without_file_object_is_silent_witness :
  extract_midi_from_tar Demo.world "/data/b.tar.gz" Demo.os0 =
  (Ok [mkRow "b" "tune.midi" (Demo.payload 2050) 2050],
   printed Demo.os0
     [WarnRead "/data/b.tar.gz" "sub/cut.MIDI"
               (Exception "unexpected end of data")]).
Proof.
  apply (proj1 (tar_member_without_file_object_is_silent
                  Demo.world "/data/b.tar.gz" Demo.os0)
               Demo.b_tar
               [mkTarInfo "sub" false (Ok None); Demo.tune]
               Demo.ghost
               [Demo.cut; mkTarInfo "sub/link.mid" false (Ok None)]
               eq_refl eq_refl eq_refl eq_refl eq_refl).
Defined.

Lemma save_to_parquet_empty_is_noop_witness :
  save_to_parquet Demo.world [] "/out/midi.parquet" Demo.os0 =
  (Ok tt, mkOS [NoDataToSave] []) /\
  save_to_parquet Demo.world [mkRow "a" "song.mid" (Demo.payload 50) 50]
                  "/out/midi.parquet" Demo.os0 =
  (Ok tt,
   mkOS [Saving "/out/midi.parquet"; Saved 1 "/out/midi.parquet"]
        [Mkdir "/out";
         WriteParquet "/out/midi.parquet"
                      [mkRow "a" "song.mid" (Demo.payload 50) 50]
                      "zstd" 22 "group"]).
Proof.
  split.
  - apply (proj1 (save_to_parquet_empty_is_noop
                    Demo.world "/out/midi.parquet" Demo.os0) []).
    reflexivity.
  - apply (proj2 (save_to_parquet_empty_is_noop
                    Demo.world "/out/midi.parquet" Demo.os0)
                 [mkRow "a" "song.mid" (Demo.payload 50) 50]).
    + discriminate.
    + reflexivity.
    + reflexivity.
Defined.


Lemma default_pool_size_witness :
  process_archives Demo.world Demo.in_order (repeat "/data/a.zip" 9) None
                   Demo.os0 =
  process_archives Demo.world Demo.in_order (repeat "/data/a.zip" 9) (Some 8)
                   Demo.os0.
Proof.
  apply (proj1 (proj2 (default_pool_size Demo.world Demo.in_order
                                         (repeat "/data/a.zip" 9) Demo.os0))).
  vm_compute. discriminate.
Defined.

Lemma table_independent_of_pool_witness :
  let df1 := [mkRow "b" "tune.midi" (Demo.payload 2050) 2050;
              mkRow "a" "song.mid" (Demo.payload 50) 50] in
  let df2 := [mkRow "a" "song.mid" (Demo.payload 50) 50;
              mkRow "b" "tune.midi" (Demo.payload 2050) 2050] in
  Permutation df1 df2 /\
  height df1 = height df2 /\
  sum_sizes df1 = sum_sizes df2 /\
  avg_size df1 = avg_size df2 /\
  max_size df1 = max_size df2 /\
  min_size df1 = min_size df2 /\
  (forall c, bucket_count df1 c = bucket_count df2 c) /\
  (forall g, group_count df1 g = group_count df2 g /\
             group_total df1 g = group_total df2 g).
Proof.
  cbv zeta.
  apply (proj1 (table_independent_of_pool
                  Demo.world Demo.in_order Demo.last_first
                  ["/data/b.tar.gz"; "/data/bad.tar.gz"; "/data/a.zip"]
                  (Some 1) (Some 4) Demo.os0
                  (fun _ l => Permutation_refl l)
                  (fun _ l => Permutation_sym (Permutation_rev l))
                  eq_refl eq_refl)
               _ _
               (snd (process_archives Demo.world Demo.in_order
                       ["/data/b.tar.gz"; "/data/bad.tar.gz"; "/data/a.zip"]
                       (Some 1) Demo.os0))
               (snd (process_archives Demo.world Demo.last_first
                       ["/data/b.tar.gz"; "/data/bad.tar.gz"; "/data/a.zip"]
                       (Some 4) Demo.os0)));
    vm_compute; reflexivity.
Defined.


(* ===================================================================== *)
(** * Part III. Further properties of the code                            *)
(* ===================================================================== *)

(** ** Dispatch by file name *)

Lemma lower_char_dot (c : ascii) : PyStr.lower_char c = "."%char -> c = "."%char.
Proof.
  destruct c as [[] [] [] [] [] [] [] []]; vm_compute; intros H;
    first [reflexivity | discriminate H].
Qed.

Lemma lower_char_not_dot (c x : ascii) :
  PyStr.lower_char c = x -> x <> "."%char -> Ascii.eqb c "." = false.
Proof.
  intros H Hx. apply Ascii.eqb_neq. intros ->. apply Hx. now rewrite <- H.
Qed.

Lemma name_split_suffix (p : Path) :
  exists front, PyPath.name p = (front ++ PyPath.suffix p)%string.
Proof.
  unfold PyPath.suffix.
  destruct (PyStr.rfind (PyPath.name p) ".") as [i|];
    [destruct (_ && _)%bool|].
  - exists (PyStr.take i (PyPath.name p)).
    generalize (PyPath.name p). clear. intros s. revert i.
    induction s as [|c s IH]; intros [|i]; simpl; try reflexivity.
    now rewrite <- IH.
  - exists (PyPath.name p). now rewrite app_empty_r.
  - exists (PyPath.name p). now rewrite app_empty_r.
Qed.

Lemma zip_dispatch_any_case (W : World) (p : Path) (base ext : string) :
  PyPath.name p = (base ++ ext)%string -> base <> ""%string ->
  PyStr.lower ext = ".zip"%string ->
  process_single_archive W p = extract_midi_from_zip W p /\
  zip_group p = base.
Proof.
  intros Hn Hb Hl.
  destruct ext as [|c0 [|c1 [|c2 [|c3 [|c4 ext]]]]]; try discriminate Hl.
  cbn [PyStr.lower] in Hl. injection Hl as H0 H1 H2 H3.
  apply lower_char_dot in H0. subst c0.
  assert (Hr : PyStr.rfind (String c1 (String c2 (String c3 ""))) "." = None).
  { cbn [PyStr.rfind].
    rewrite (lower_char_not_dot c3 _ H3), (lower_char_not_dot c2 _ H2),
      (lower_char_not_dot c1 _ H1) by discriminate.
    reflexivity. }
  split.
  - unfold process_single_archive.
    rewrite (suffix_of_name p base _ Hn Hb); [|discriminate|exact Hr].
    cbn [PyStr.lower]. change (PyStr.lower_char ".") with "."%char.
    rewrite H1, H2, H3. reflexivity.
  - unfold zip_group. apply (stem_of_name p base _ Hn Hb); [discriminate|].
    exact Hr.
Qed.

Lemma tar_dispatch_any_case (W : World) (p : Path) (base ext : string) :
  PyPath.name p = (base ++ ext)%string ->
  PyStr.lower ext = ".tar.gz"%string ->
  process_single_archive W p = extract_midi_from_tar W p.
Proof.
  intros Hn Hl.
  assert (Hend : PyStr.endswith (PyStr.lower (PyPath.name p)) ".tar.gz" = true).
  { rewrite Hn, lower_app, Hl. apply endswith_spec. eexists. reflexivity. }
  destruct ext as [|c0 [|c1 [|c2 [|c3 [|c4 [|c5 [|c6 [|c7 ext]]]]]]]];
    try discriminate Hl.
  cbn [PyStr.lower] in Hl. injection Hl as H0 H1 H2 H3 H4 H5 H6.
  apply lower_char_dot in H4. subst c4.
  unfold process_single_archive.
  rewrite (suffix_of_name p (base ++ String c0 (String c1 (String c2
                                     (String c3 ""))))
                          (String c5 (String c6 ""))).
  - cbn [PyStr.lower]. change (PyStr.lower_char ".") with "."%char.
    rewrite H5, H6. cbn [String.eqb]. change (Ascii.eqb "." ".") with true.
    change (Ascii.eqb "g" "z") with false. cbv iota.
    now rewrite Hend.
  - rewrite Hn. clear. induction base as [|c b IH]; simpl; [reflexivity|].
    now rewrite IH.
  - destruct base; discriminate.
  - discriminate.
  - cbn [PyStr.rfind].
    rewrite (lower_char_not_dot c6 _ H6), (lower_char_not_dot c5 _ H5)
      by discriminate.
    reflexivity.
Qed.

(** X1.  [process_single_archive] chooses by the end of the file name,
    whatever its case: a name ending in ".zip" (after something) goes to
    the zip function, a name ending in ".tar.gz" to the tar function, and
    a path whose name ends in neither gives no row and prints nothing. *)
Theorem process_single_archive_dispatch (W : World) (p : Path) (s : OS) :
  (forall base ext,
      PyPath.name p = (base ++ ext)%string -> base <> ""%string ->
      PyStr.lower ext = ".zip"%string ->
      process_single_archive W p s = extract_midi_from_zip W p s) /\
  (forall base ext,
      PyPath.name p = (base ++ ext)%string ->
      PyStr.lower ext = ".tar.gz"%string ->
      process_single_archive W p s = extract_midi_from_tar W p s) /\
  ((forall front ext,
       PyPath.name p = (front ++ ext)%string ->
       PyStr.lower ext <> ".zip"%string /\
       PyStr.lower ext <> ".tar.gz"%string) ->
   process_single_archive W p s = (Ok [], s)).
Proof.
  split; [|split].
  - intros base ext Hn Hb Hl.
    now rewrite (proj1 (zip_dispatch_any_case W p base ext Hn Hb Hl)).
  - intros base ext Hn Hl. now rewrite (tar_dispatch_any_case W p base ext Hn Hl).
  - intros H. unfold process_single_archive.
    destruct (String.eqb_spec (PyStr.lower (PyPath.suffix p)) ".zip") as [E|_].
    + destruct (name_split_suffix p) as [front Hf].
      now destruct (H _ _ Hf) as [Hz _].
    + destruct (PyStr.endswith _ _) eqn:E; [|reflexivity].
      apply endswith_spec in E as [pre Hpre].
      apply lower_split in Hpre as (front & ext & Hn & Hext).
      now destruct (H _ _ Hn) as [_ Ht].
Qed.

Lemma process_single_archive_dispatch_witness :
  process_single_archive Demo.world "/data/A.ZIP" Demo.os0 =
  extract_midi_from_zip Demo.world "/data/A.ZIP" Demo.os0 /\
  process_single_archive Demo.world "/data/B.Tar.GZ" Demo.os0 =
  extract_midi_from_tar Demo.world "/data/B.Tar.GZ" Demo.os0.
Proof.
  split.
  - apply (proj1 (process_single_archive_dispatch Demo.world "/data/A.ZIP"
                                                   Demo.os0) "A" ".ZIP");
      [reflexivity | discriminate | reflexivity].
  - apply (proj1 (proj2 (process_single_archive_dispatch
                           Demo.world "/data/B.Tar.GZ" Demo.os0))
                 "B" ".Tar.GZ"); reflexivity.
Defined.

(** X2.  Every path [find_archives] returns, when [glob] honours the two
    patterns, is handled by the extraction function of its format: the
    branch of [process_single_archive] that returns nothing is never
    taken for a discovered archive.  The tar-gzip files come first in the
    list, the zip files after them. *)
Theorem discovered_archives_are_extracted (W : World) (directory : string) :
  glob_honours W directory ->
  exists tars zips,
    find_archives W directory = tars ++ zips /\
    (forall p, In p tars ->
               process_single_archive W p = extract_midi_from_tar W p) /\
    (forall p, In p zips ->
               process_single_archive W p = extract_midi_from_zip W p /\
               forall base, PyPath.name p = (base ++ ".zip")%string ->
                            zip_group p = base).
Proof.
  intros [Ht Hz]. do 2 eexists. split; [reflexivity|]. split.
  - intros p Hin. destruct (Ht p Hin) as [[base Hn] _].
    exact (tar_archive_dispatch W p base Hn).
  - intros p Hin. pose proof (Hz p Hin) as Hd.
    destruct Hd as [[base Hn] Hdot]. split.
    + apply (zip_archive_dispatch W p base Hn).
      intros ->. rewrite Hn in Hdot. discriminate Hdot.
    + intros b Hb. apply discovered_zip_group; [exact (Hz p Hin) | exact Hb].
Qed.

Lemma discovered_archives_are_extracted_witness :
  exists tars zips,
    find_archives Demo.world "/data" = tars ++ zips /\
    (forall p, In p tars ->
               process_single_archive Demo.world p =
               extract_midi_from_tar Demo.world p) /\
    (forall p, In p zips ->
               process_single_archive Demo.world p =
               extract_midi_from_zip Demo.world p /\
               forall base, PyPath.name p = (base ++ ".zip")%string ->
                            zip_group p = base).
Proof.
  apply (discovered_archives_are_extracted Demo.world "/data").
  split; intros p Hin; vm_compute in Hin.
  - destruct Hin as [<-|[<-|[]]].
    + split; [exists "b"%string|]; reflexivity.
    + split; [exists "bad"%string|]; reflexivity.
  - destruct Hin as [<-|[]]. split; [exists "a"%string|]; reflexivity.
Defined.

(** ** Group names again *)

Lemma string_app_assoc (a b c : string) :
  (a ++ b ++ c)%string = ((a ++ b) ++ c)%string.
Proof. induction a as [|x a IH]; simpl; [reflexivity | now rewrite IH]. Qed.

Lemma startswith_tar_before_dot (t e : string) :
  t <> ""%string ->
  PyStr.startswith (t ++ String "." e) ".tar" = PyStr.startswith t ".tar".
Proof.
  intros Ht.
  destruct t as [|c1 [|c2 [|c3 [|c4 t]]]]; [congruence| | | |];
    cbn [PyStr.startswith String.append];
    try change (Ascii.eqb "t" ".") with false;
    try change (Ascii.eqb "a" ".") with false;
    try change (Ascii.eqb "r" ".") with false;
    cbn [andb]; rewrite ?andb_false_r; reflexivity.
Qed.

Lemma contains_tar_app (base e : string) :
  PyStr.contains base ".tar" = false ->
  PyStr.contains (String "." e) ".tar" = false ->
  PyStr.contains (base ++ String "." e) ".tar" = false.
Proof.
  intros Hb He. induction base as [|c b IH]; [exact He|].
  change (String c b ++ String "." e)%string
    with (String c (b ++ String "." e)%string).
  cbn [PyStr.contains] in *.
  change (String c (b ++ String "." e)%string)
    with (String c b ++ String "." e)%string.
  rewrite startswith_tar_before_dot by discriminate.
  destruct (PyStr.startswith (String c b) ".tar"); [discriminate|].
  now apply IH.
Qed.

(** X3.  The dispatch looks at the lower-cased name but the group is
    computed from the name as it is: for an archive named
    [base.TAR.gz] (any spelling of ".tar" other than lower case, any
    spelling of ".gz"), the tar function runs and the group keeps that
    ".TAR": it is [base.TAR], not [base]. *)
Theorem tar_group_keeps_other_case (W : World) (p : Path)
        (base tar_ext gz_ext : string) :
  PyPath.name p = (base ++ tar_ext ++ gz_ext)%string ->
  PyStr.lower tar_ext = ".tar"%string -> tar_ext <> ".tar"%string ->
  PyStr.lower gz_ext = ".gz"%string ->
  PyStr.contains base ".tar" = false ->
  process_single_archive W p = extract_midi_from_tar W p /\
  tar_group p = (base ++ tar_ext)%string.
Proof.
  intros Hn Ht Hne Hg Hb. split.
  - apply (tar_dispatch_any_case W p base (tar_ext ++ gz_ext) Hn).
    now rewrite lower_app, Ht, Hg.
  - destruct gz_ext as [|g0 [|g1 [|g2 [|g3 gz]]]]; try discriminate Hg.
    cbn [PyStr.lower] in Hg. injection Hg as G0 G1 G2.
    apply lower_char_dot in G0. subst g0.
    destruct tar_ext as [|c0 [|c1 [|c2 [|c3 [|c4 te]]]]]; try discriminate Ht.
    cbn [PyStr.lower] in Ht. injection Ht as T0 T1 T2 T3.
    apply lower_char_dot in T0. subst c0.
    unfold tar_group.
    rewrite (stem_of_name p (base ++ String "." (String c1 (String c2
                                     (String c3 ""))))
                          (String g1 (String g2 ""))).
    + apply replace_absent. apply contains_tar_app; [exact Hb|].
      cbn [PyStr.contains PyStr.startswith].
      rewrite ?andb_false_r, ?andb_true_r.
      change (Ascii.eqb "." ".") with true. cbn [andb].
      destruct (Ascii.eqb_spec "t" c1) as [E1|]; [|reflexivity].
      destruct (Ascii.eqb_spec "a" c2) as [E2|]; [|reflexivity].
      destruct (Ascii.eqb_spec "r" c3) as [E3|]; [|reflexivity].
      subst. congruence.
    + rewrite Hn. apply string_app_assoc.
    + destruct base; discriminate.
    + discriminate.
    + cbn [PyStr.rfind].
      rewrite (lower_char_not_dot g2 _ G2), (lower_char_not_dot g1 _ G1)
        by discriminate.
      reflexivity.
Qed.

Lemma tar_group_keeps_other_case_witness :
  process_single_archive Demo.world "/data/set1.TAR.gz" =
  extract_midi_from_tar Demo.world "/data/set1.TAR.gz" /\
  tar_group "/data/set1.TAR.gz" = "set1.TAR"%string.
Proof.
  apply (tar_group_keeps_other_case Demo.world "/data/set1.TAR.gz"
                                    "set1" ".TAR" ".gz");
    first [reflexivity | discriminate].
Defined.

(** ** What the rows look like *)

Lemma rfind_lt (s : string) (c : ascii) (i : nat) :
  PyStr.rfind s c = Some i -> (i < String.length s)%nat.
Proof.
  revert i. induction s as [|a s IH]; intros i H; [discriminate|].
  cbn [PyStr.rfind] in H. cbn [String.length].
  destruct (PyStr.rfind s c) as [j|].
  - injection H as <-. specialize (IH j eq_refl). lia.
  - destruct (Ascii.eqb a c); [|discriminate]. injection H as <-. lia.
Qed.

Lemma basename_no_slash (n : string) :
  PyStr.rfind (PyPath.basename n) "/" = None.
Proof.
  unfold PyPath.basename.
  destruct (PyStr.rfind n "/") as [i|] eqn:E; [|exact E].
  revert i E. induction n as [|a n IH]; intros i E; [discriminate|].
  cbn [PyStr.rfind] in E.
  destruct (PyStr.rfind n "/") as [j|] eqn:En.
  - injection E as <-. cbn [PyStr.drop]. now apply IH.
  - destruct (Ascii.eqb a "/"); [|discriminate]. injection E as <-.
    cbn [PyStr.drop]. now destruct n.
Qed.

Lemma drop_app_le (s t : string) (k : nat) :
  (k <= String.length s)%nat ->
  PyStr.drop k (s ++ t) = (PyStr.drop k s ++ t)%string.
Proof.
  revert k. induction s as [|a s IH]; intros k Hk.
  - simpl in Hk. replace k with 0%nat by lia. now rewrite drop_0.
  - destruct k as [|k]; [reflexivity|]. simpl in *. apply IH. lia.
Qed.

Lemma basename_app (front ext : string) :
  PyStr.rfind ext "/" = None ->
  PyPath.basename (front ++ ext) = (PyPath.basename front ++ ext)%string.
Proof.
  intros He. unfold PyPath.basename. rewrite rfind_app, He.
  destruct (PyStr.rfind front "/") as [i|] eqn:E; [|reflexivity].
  apply rfind_lt in E. apply drop_app_le. lia.
Qed.

Lemma lower_no_slash (ext target : string) :
  PyStr.lower ext = target -> PyStr.rfind target "/" = None ->
  PyStr.rfind ext "/" = None.
Proof.
  revert target. induction ext as [|c ext IH]; intros target Hl Ht;
    [reflexivity|].
  destruct target as [|x target]; [discriminate|].
  cbn [PyStr.lower] in Hl. injection Hl as Hc Hl.
  cbn [PyStr.rfind] in *.
  destruct (PyStr.rfind target "/") eqn:Et; [discriminate|].
  destruct (Ascii.eqb_spec x "/") as [|Hx]; [discriminate|].
  rewrite (IH target Hl Et).
  destruct (Ascii.eqb_spec c "/") as [->|]; [|reflexivity].
  change (PyStr.lower_char "/") with "/"%char in Hc. congruence.
Qed.

Lemma has_midi_ext_basename (n : string) :
  has_midi_ext n = true -> has_midi_ext (PyPath.basename n) = true.
Proof.
  intros H. apply has_midi_ext_spec in H as (front & ext & -> & Hext).
  assert (He : PyStr.rfind ext "/" = None)
    by (destruct Hext as [Hext|Hext]; now apply (lower_no_slash _ _ Hext)).
  rewrite (basename_app _ _ He). apply has_midi_ext_spec.
  now exists (PyPath.basename front), ext.
Qed.

Lemma tar_member_effect_rows (p : Path) (m : TarInfo) (r : Row) :
  In r (fst (tar_member_effect p m)) ->
  group r = tar_group p /\
  file_name r = PyPath.basename (tar_name m) /\
  tar_relevant m = true /\
  tar_payload m = Some (content r).
Proof.
  unfold tar_member_effect, tar_relevant, tar_payload.
  destruct (isfile m && has_midi_ext (tar_name m))%bool; [|intros []].
  destruct (extractfile m) as [[f|]|e]; try (intros []).
  destruct (read f) as [c|e]; [|intros []].
  intros [<-|[]]. auto.
Qed.

Lemma zip_member_effect_rows (p : Path) (i : ZipInfo) (r : Row) :
  In r (fst (zip_member_effect p i)) ->
  group r = zip_group p /\
  file_name r = PyPath.basename (filename i) /\
  zip_relevant i = true /\
  zip_payload i = Some (content r).
Proof.
  unfold zip_member_effect, zip_relevant, zip_payload.
  destruct (negb (is_dir i) && has_midi_ext (filename i))%bool; [|intros []].
  destruct (zip_read i) as [c|e]; [|intros []].
  intros [<-|[]]. auto.
Qed.

Lemma tar_effect_rows (W : World) (p : Path) (r : Row) :
  In r (fst (tar_effect W p)) ->
  group r = tar_group p /\
  PyStr.rfind (file_name r) "/" = None /\
  has_midi_ext (file_name r) = true.
Proof.
  unfold tar_effect. destruct (tarfile_open W p) as [tar|e]; [|intros []].
  destruct (getmembers tar) as [ms|e]; [|intros []].
  intros H. apply effects_rows_in in H as (m & _ & H).
  apply tar_member_effect_rows in H as (Hg & Hn & Hrel & _).
  unfold tar_relevant in Hrel. apply andb_prop in Hrel as [_ Hx].
  rewrite Hn. split; [exact Hg|]. split.
  - apply basename_no_slash.
  - now apply has_midi_ext_basename.
Qed.

Lemma zip_effect_rows (W : World) (p : Path) (r : Row) :
  In r (fst (zip_effect W p)) ->
  group r = zip_group p /\
  PyStr.rfind (file_name r) "/" = None /\
  has_midi_ext (file_name r) = true.
Proof.
  unfold zip_effect. destruct (zipfile_ZipFile W p) as [z|e]; [|intros []].
  intros H. apply effects_rows_in in H as (i & _ & H).
  apply zip_member_effect_rows in H as (Hg & Hn & Hrel & _).
  unfold zip_relevant in Hrel. apply andb_prop in Hrel as [_ Hx].
  rewrite Hn. split; [exact Hg|]. split.
  - apply basename_no_slash.
  - now apply has_midi_ext_basename.
Qed.

Lemma archive_effect_rows (W : World) (p : Path) (r : Row) :
  In r (fst (archive_effect W p)) ->
  (group r = zip_group p \/ group r = tar_group p) /\
  PyStr.rfind (file_name r) "/" = None /\
  has_midi_ext (file_name r) = true.
Proof.
  unfold archive_effect. destruct (String.eqb _ _).
  - intros H. apply zip_effect_rows in H as (Hg & H). auto.
  - destruct (PyStr.endswith _ _); [|intros []].
    intros H. apply tar_effect_rows in H as (Hg & H). auto.
Qed.

(** X4.  The [file_name] of a row never holds a slash (directories
    inside the archive are dropped, so two entries of one archive can
    give rows of the same name) and always ends, whatever the case, with
    ".mid" or ".midi"; every row of an archive carries the group of that
    archive.  This holds for both extraction functions and for every row
    of the table. *)
Theorem rows_are_flat_midi_names (W : World) (as_completed : Scheduler)
        (p : Path) (s : OS) :
  (exists rows s',
      extract_midi_from_tar W p s = (Ok rows, s') /\
      Forall (fun r => group r = tar_group p /\
                       PyStr.rfind (file_name r) "/" = None /\
                       has_midi_ext (file_name r) = true) rows) /\
  (exists rows s',
      extract_midi_from_zip W p s = (Ok rows, s') /\
      Forall (fun r => group r = zip_group p /\
                       PyStr.rfind (file_name r) "/" = None /\
                       has_midi_ext (file_name r) = true) rows) /\
  (forall archives jobs df s',
      process_archives W as_completed archives jobs s = (Ok df, s') ->
      Forall (fun r => PyStr.rfind (file_name r) "/" = None /\
                       has_midi_ext (file_name r) = true) df).
Proof.
  split; [|split].
  - rewrite extract_midi_from_tar_run. do 2 eexists. split; [reflexivity|].
    apply Forall_forall. intros r. apply tar_effect_rows.
  - rewrite extract_midi_from_zip_run. do 2 eexists. split; [reflexivity|].
    apply Forall_forall. intros r. apply zip_effect_rows.
  - intros archives jobs df s' H.
    rewrite (process_archives_table _ _ _ _ _ _ _ H).
    apply Forall_forall. intros r Hr. unfold collected in Hr.
    apply effects_rows_in in Hr as (a & _ & Hr).
    now apply archive_effect_rows in Hr as (_ & Hr).
Qed.

Lemma rows_are_flat_midi_names_witness :
  Forall (fun r => PyStr.rfind (file_name r) "/" = None /\
                   has_midi_ext (file_name r) = true)
         [mkRow "a" "song.mid" (Demo.payload 50) 50;
          mkRow "b" "tune.midi" (Demo.payload 2050) 2050].
Proof.
  apply (proj2 (proj2 (rows_are_flat_midi_names Demo.world Demo.last_first
                                                "/data/a.zip" Demo.os0))
               ["/data/b.tar.gz"; "/data/bad.tar.gz"; "/data/a.zip"] None _
               (snd (process_archives Demo.world Demo.last_first
                       ["/data/b.tar.gz"; "/data/bad.tar.gz"; "/data/a.zip"]
                       None Demo.os0))).
  vm_compute. reflexivity.
Defined.

(** X5.  Every row of the table comes from one of the submitted
    archives: it is among the rows [process_single_archive] returns for
    that archive, and its group is the one the extraction function
    picked for that archive computes from the archive's name: the zip
    one when the suffix of the name is ".zip" in any case, the tar one
    when it is not and the name ends with ".tar.gz" in any case.  An
    archive of neither kind has no row in the table. *)
Theorem table_rows_have_an_archive (W : World) (as_completed : Scheduler)
        (archives : list Path) (jobs : option Z) (s s' : OS) (df : Table) :
  fair as_completed ->
  process_archives W as_completed archives jobs s = (Ok df, s') ->
  forall r, In r df ->
    exists archive rows,
      In archive archives /\
      fst (process_single_archive W archive s) = Ok rows /\
      In r rows /\
      ((PyStr.lower (PyPath.suffix archive) = ".zip"%string /\
        group r = zip_group archive) \/
       (PyStr.lower (PyPath.suffix archive) <> ".zip"%string /\
        PyStr.endswith (PyStr.lower (PyPath.name archive)) ".tar.gz" = true /\
        group r = tar_group archive)).
Proof.
  intros F H r Hr. rewrite (process_archives_table _ _ _ _ _ _ _ H) in Hr.
  unfold collected in Hr. apply effects_rows_in in Hr as (a & Ha & Hr).
  exists a, (fst (archive_effect W a)). split.
  - exact (Permutation_in _ (F _ _) Ha).
  - rewrite process_single_archive_run. split; [reflexivity|].
    split; [exact Hr|].
    apply archive_effect_row in Hr
      as [(Hsuf & z & i & _ & _ & Hr)
         |(Hsuf & Hend & tar & members & m & _ & _ & _ & Hr)].
    + left. split; [exact Hsuf|].
      now apply zip_member_effect_rows in Hr as (Hg & _).
    + right. split; [exact Hsuf|]. split; [exact Hend|].
      now apply tar_member_effect_rows in Hr as (Hg & _).
Qed.

Lemma table_rows_have_an_archive_witness :
  exists archive rows,
    In archive ["/data/b.tar.gz"; "/data/bad.tar.gz"; "/data/a.zip"] /\
    fst (process_single_archive Demo.world archive Demo.os0) = Ok rows /\
    In (mkRow "b" "tune.midi" (Demo.payload 2050) 2050) rows /\
    ((PyStr.lower (PyPath.suffix archive) = ".zip"%string /\
      "b"%string = zip_group archive) \/
     (PyStr.lower (PyPath.suffix archive) <> ".zip"%string /\
      PyStr.endswith (PyStr.lower (PyPath.name archive)) ".tar.gz" = true /\
      "b"%string = tar_group archive)).
Proof.
  apply (table_rows_have_an_archive
           Demo.world Demo.last_first
           ["/data/b.tar.gz"; "/data/bad.tar.gz"; "/data/a.zip"] None
           Demo.os0
           (snd (process_archives Demo.world Demo.last_first
                   ["/data/b.tar.gz"; "/data/bad.tar.gz"; "/data/a.zip"]
                   None Demo.os0))
           [mkRow "a" "song.mid" (Demo.payload 50) 50;
            mkRow "b" "tune.midi" (Demo.payload 2050) 2050]
           (fun _ l => Permutation_sym (Permutation_rev l))
           eq_refl
           (mkRow "b" "tune.midi" (Demo.payload 2050) 2050)).
  right. left. reflexivity.
Defined.

(** ** Every matching entry is accounted for *)

Lemma zip_accounting (p : Path) (l : list ZipInfo) :
  (List.length (fst (effects (zip_member_effect p) l)) +
   List.length (snd (effects (zip_member_effect p) l)))%nat =
  List.length (filter zip_relevant l).
Proof.
  induction l as [|i l IH]; [reflexivity|].
  rewrite effects_cons. cbn [fst snd filter]. rewrite !List.length_app.
  unfold zip_member_effect at 1 3. unfold zip_relevant at 1.
  destruct (negb (is_dir i) && has_midi_ext (filename i))%bool;
    [destruct (zip_read i)|]; cbn [fst snd List.length]; lia.
Qed.

Lemma tar_accounting (p : Path) (l : list TarInfo) :
  (List.length (fst (effects (tar_member_effect p) l)) +
   List.length (snd (effects (tar_member_effect p) l)) +
   List.length (filter tar_silent l))%nat =
  List.length (filter tar_relevant l).
Proof.
  induction l as [|m l IH]; [reflexivity|].
  rewrite effects_cons. cbn [fst snd filter]. rewrite !List.length_app.
  unfold tar_member_effect at 1 3. unfold tar_silent at 1.
  unfold tar_relevant at 1 2.
  destruct (isfile m && has_midi_ext (tar_name m))%bool; cbn [andb];
    [destruct (extractfile m) as [[f|]|e]; [destruct (read f)| |]|];
    cbn [fst snd List.length]; lia.
Qed.

(** X6.  Nothing a zip archive holds is lost without a trace: the number
    of rows plus the number of lines printed is the number of entries
    that are not directories and have a MIDI name.  For a tar archive
    the same count also needs the members for which [extractfile] gave
    [None], the only ones passed over in silence. *)
Theorem matching_entries_are_accounted_for (W : World) (p : Path) (s : OS) :
  (forall zip_file,
      zipfile_ZipFile W p = Ok zip_file ->
      exists rows lines,
        extract_midi_from_zip W p s = (Ok rows, printed s lines) /\
        (List.length rows + List.length lines)%nat =
        List.length (filter zip_relevant (infolist zip_file))) /\
  (forall tar members,
      tarfile_open W p = Ok tar -> getmembers tar = Ok members ->
      exists rows lines,
        extract_midi_from_tar W p s = (Ok rows, printed s lines) /\
        (List.length rows + List.length lines +
         List.length (filter tar_silent members))%nat =
        List.length (filter tar_relevant members)).
Proof.
  split.
  - intros zip_file Ho. rewrite (zip_run_members W p s zip_file Ho).
    do 2 eexists. split; [reflexivity | apply zip_accounting].
  - intros tar members Ho Hm. rewrite (tar_run_members W p s tar _ Ho Hm).
    do 2 eexists. split; [reflexivity | apply tar_accounting].
Qed.

Lemma matching_entries_are_accounted_for_witness :
  exists rows lines,
    extract_midi_from_zip Demo.world "/data/a.zip" Demo.os0 =
    (Ok rows, printed Demo.os0 lines) /\
    (List.length rows + List.length lines)%nat = 2%nat.
Proof.
  apply (proj1 (matching_entries_are_accounted_for Demo.world "/data/a.zip"
                                                   Demo.os0) Demo.a_zip).
  reflexivity.
Defined.

Lemma effects_filter {A : Type} (f : A -> Effect) (keep : A -> bool)
      (l : list A) :
  (forall x, keep x = false -> f x = ([], [])) ->
  effects f (filter keep l) = effects f l.
Proof.
  intros H. induction l as [|x l IH]; [reflexivity|].
  cbn [filter]. destruct (keep x) eqn:E.
  - now rewrite !effects_cons, IH.
  - rewrite effects_cons, (H x E), IH. cbn [fst snd app].
    now destruct (effects f l).
Qed.

(** X7.  Entries that are not regular files, and entries without a MIDI
    name, are never read and leave no trace: an archive gives the same
    rows and prints the same lines as the archive without them. *)
Theorem other_entries_are_ignored (W W' : World) (p : Path) (s : OS) :
  (forall tar tar' members,
      tarfile_open W p = Ok tar -> getmembers tar = Ok members ->
      tarfile_open W' p = Ok tar' ->
      getmembers tar' = Ok (filter tar_relevant members) ->
      extract_midi_from_tar W p s = extract_midi_from_tar W' p s) /\
  (forall zip_file zip_file',
      zipfile_ZipFile W p = Ok zip_file ->
      zipfile_ZipFile W' p = Ok zip_file' ->
      infolist zip_file' = filter zip_relevant (infolist zip_file) ->
      extract_midi_from_zip W p s = extract_midi_from_zip W' p s).
Proof.
  split.
  - intros tar tar' members Ho Hm Ho' Hm'.
    rewrite (tar_run_members W p s tar _ Ho Hm).
    rewrite (tar_run_members W' p s tar' _ Ho' Hm').
    rewrite effects_filter; [reflexivity|].
    intros m Hrel. unfold tar_member_effect.
    unfold tar_relevant in Hrel. now rewrite Hrel.
  - intros z z' Ho Ho' Hl.
    rewrite (zip_run_members W p s z Ho), (zip_run_members W' p s z' Ho'), Hl.
    rewrite effects_filter; [reflexivity|].
    intros i Hrel. unfold zip_member_effect.
    unfold zip_relevant in Hrel. now rewrite Hrel.
Qed.

Lemma other_entries_are_ignored_witness :
  extract_midi_from_tar Demo.world "/data/b.tar.gz" Demo.os0 =
  extract_midi_from_tar Trimmed.world "/data/b.tar.gz" Demo.os0 /\
  extract_midi_from_zip Demo.world "/data/a.zip" Demo.os0 =
  extract_midi_from_zip Trimmed.world "/data/a.zip" Demo.os0.
Proof.
  split.
  - apply (proj1 (other_entries_are_ignored Demo.world Trimmed.world
                                            "/data/b.tar.gz" Demo.os0)
                 Demo.b_tar
                 (mkTarFile (Ok [Demo.tune; Demo.ghost; Demo.cut]))
                 [mkTarInfo "sub" false (Ok None); Demo.tune; Demo.ghost;
                  Demo.cut; mkTarInfo "sub/link.mid" false (Ok None)]);
      reflexivity.
  - apply (proj2 (other_entries_are_ignored Demo.world Trimmed.world
                                            "/data/a.zip" Demo.os0)
                 Demo.a_zip (mkZipFile [Demo.song; Demo.broken]));
      reflexivity.
Defined.

(** ** More on [process_archives] *)


(** X8.  A pool of no workers is refused before any archive is opened:
    [process_archives] raises after printing its first line only, and
    leaves the file system alone.  This is what happens for an empty
    list of archives when no worker count is given, since the default
    is then min(processing units, 0). *)
Theorem process_archives_needs_a_worker (W : World) (as_completed : Scheduler)
        (s : OS) :
  (forall archives jobs,
      pool_size W archives jobs <= 0 ->
      process_archives W as_completed archives jobs s =
      (Raise (Exception "max_workers must be greater than 0"),
       mkOS (stdout s ++
             [UsingWorkers (pool_size W archives jobs) (len archives)])
            (fs_ops s))) /\
  process_archives W as_completed [] None s =
  (Raise (Exception "max_workers must be greater than 0"),
   mkOS (stdout s ++ [UsingWorkers (Z.min (cpu_count W) 0) 0]) (fs_ops s)).
Proof.
  split.
  - intros archives jobs H. now apply process_archives_no_pool.
  - apply (process_archives_no_pool W as_completed [] None s).
    apply Z.le_min_r.
Qed.

Lemma process_archives_needs_a_worker_witness :
  process_archives Demo.world Demo.in_order ["/data/a.zip"] (Some 0)
                   Demo.os0 =
  (Raise (Exception "max_workers must be greater than 0"),
   mkOS [UsingWorkers 0 1] []).
Proof.
  apply (proj1 (process_archives_needs_a_worker Demo.world Demo.in_order
                                                Demo.os0)
               ["/data/a.zip"] (Some 0)).
  vm_compute. discriminate.
Defined.

Lemma task_rows_collected (W : World) (s : OS) (l : list Path) :
  flat_map (fun a => match fst (process_single_archive W a s) with
                     | Ok rows => rows
                     | Raise _ => []
                     end) l =
  fst (effects (archive_effect W) l).
Proof.
  unfold effects. cbn [fst]. apply flat_map_ext. intros a.
  now rewrite process_single_archive_run.
Qed.



(** X10.  The table [process_archives] returns is the rows of the
    archives one after the other, in the order in which the tasks
    complete: the rows of one archive stay together and keep the order
    of its entries.  When the scheduler hands back every task once, the
    table is a rearrangement of the rows of the archives taken in
    submission order, so its height is the sum of the numbers of rows of
    the archives.  With at least one worker a table is returned as soon
    as [pl.DataFrame] accepts those rows. *)
Theorem table_is_concatenation (W : World) (as_completed : Scheduler)
        (archives : list Path) (jobs : option Z) (s : OS) :
  (forall df s',
      process_archives W as_completed archives jobs s = (Ok df, s') ->
      df = flat_map (fun a => match fst (process_single_archive W a s) with
                              | Ok rows => rows
                              | Raise _ => []
                              end)
                    (as_completed (pool_size W archives jobs) archives) /\
      (fair as_completed ->
       Permutation df
         (flat_map (fun a => match fst (process_single_archive W a s) with
                             | Ok rows => rows
                             | Raise _ => []
                             end) archives) /\
       height df =
       sum_Z (map (fun a => match fst (process_single_archive W a s) with
                            | Ok rows => len rows
                            | Raise _ => 0
                            end) archives))) /\
  (0 < pool_size W archives jobs ->
   pl_DataFrame W
     (flat_map (fun a => match fst (process_single_archive W a s) with
                         | Ok rows => rows
                         | Raise _ => []
                         end)
               (as_completed (pool_size W archives jobs) archives)) = Ok tt ->
   exists df s',
     process_archives W as_completed archives jobs s = (Ok df, s')).
Proof.
  split.
  - intros df s' Hrun.
    rewrite (process_archives_table _ _ _ _ _ _ _ Hrun).
    rewrite !task_rows_collected.
    split; [reflexivity|]. intros F.
    assert (HP : Permutation (fst (collected W as_completed archives jobs))
                             (fst (effects (archive_effect W) archives))).
    { unfold collected, effects. cbn [fst]. apply Permutation_flat_map, F. }
    split; [exact HP|].
    unfold height. rewrite (len_perm _ _ HP). clear.
    induction archives as [|a l IH]; [reflexivity|].
    rewrite effects_cons. cbn [fst map]. unfold sum_Z. cbn [fold_right].
    fold (sum_Z (map (fun a =>
                        match fst (process_single_archive W a s) with
                        | Ok rows => len rows
                        | Raise _ => 0
                        end) l)).
    rewrite <- IH, process_single_archive_run. cbn [fst].
    unfold len. rewrite List.length_app. lia.
  - intros P H. rewrite task_rows_collected in H.
    fold (collected W as_completed archives jobs) in H.
    rewrite (process_archives_run _ _ _ _ _ P). unfold as_table.
    rewrite H. destruct (fst (collected W as_completed archives jobs));
      now do 2 eexists.
Qed.

Lemma table_is_concatenation_witness :
  let df := [mkRow "a" "song.mid" (Demo.payload 50) 50;
             mkRow "b" "tune.midi" (Demo.payload 2050) 2050] in
  Permutation df
     (flat_map (fun a => match fst (process_single_archive Demo.world a
                                                           Demo.os0) with
                         | Ok rows => rows
                         | Raise _ => []
                         end) ["/data/b.tar.gz"; "/data/a.zip"]) /\
  height df = 2.
Proof.
  cbv zeta.
  destruct (proj1 (table_is_concatenation Demo.world Demo.last_first
                     ["/data/b.tar.gz"; "/data/a.zip"] None Demo.os0)
                  [mkRow "a" "song.mid" (Demo.payload 50) 50;
                   mkRow "b" "tune.midi" (Demo.payload 2050) 2050]
                  (snd (process_archives Demo.world Demo.last_first
                          ["/data/b.tar.gz"; "/data/a.zip"] None Demo.os0)))
    as [_ Hfair].
  - vm_compute. reflexivity.
  - destruct Hfair as [Hperm Hheight].
    + intros n l. apply Permutation_sym, Permutation_rev.
    + split; [exact Hperm|]. rewrite Hheight. reflexivity.
Defined.

(** ** More on [save_to_parquet] and [main] *)

(** X11.  [save_to_parquet] reports success only after the write.  If
    the output directory cannot be created the exception goes up with
    nothing printed and nothing done; if the write fails it goes up
    after the directory was created and the "saving" line printed, and
    no "saved" line follows.  In every case a "saved" line is printed
    exactly when a table was written, which is exactly when the function
    returns on a non-empty table. *)
Theorem save_to_parquet_failures (W : World) (df : Table) (out : Path)
        (s : OS) :
  (forall e,
      df <> [] -> mkdir_parents W (PyPath.parent out) = Raise e ->
      save_to_parquet W df out s = (Raise e, s)) /\
  (forall e,
      df <> [] -> mkdir_parents W (PyPath.parent out) = Ok tt ->
      write_parquet W out df = Raise e ->
      save_to_parquet W df out s =
      (Raise e,
       mkOS (stdout s ++ [Saving out])
            (fs_ops s ++ [Mkdir (PyPath.parent out)]))) /\
  (exists lines ops,
      snd (save_to_parquet W df out s) =
      mkOS (stdout s ++ lines) (fs_ops s ++ ops) /\
      (existsb is_saved lines = true <-> existsb is_write ops = true) /\
      (existsb is_write ops = true <->
       fst (save_to_parquet W df out s) = Ok tt /\ df <> [])).
Proof.
  split; [|split].
  - intros e Hdf Hm. rewrite save_to_parquet_run by exact Hdf.
    now rewrite Hm.
  - intros e Hdf Hm Hw. rewrite save_to_parquet_run by exact Hdf.
    now rewrite Hm, Hw.
  - destruct df as [|r df].
    + exists [NoDataToSave], []. rewrite save_to_parquet_empty.
      unfold printed. cbn [fst snd existsb is_saved is_write orb].
      rewrite app_nil_r. repeat split; try discriminate.
      now intros [_ H].
    + rewrite save_to_parquet_run by discriminate.
      destruct (mkdir_parents W _) as [[]|e];
        [destruct (write_parquet W _ _) as [[]|e']|].
      * do 2 eexists. cbn [fst snd]. split; [reflexivity|].
        cbn [existsb is_saved is_write orb].
        repeat split; auto; discriminate.
      * do 2 eexists. cbn [fst snd]. split; [reflexivity|].
        cbn [existsb is_saved is_write orb].
        repeat split; try discriminate. now intros [H _].
      * exists [], []. cbn [fst snd]. rewrite !app_nil_r.
        split; [now destruct s|].
        cbn [existsb]. repeat split; try discriminate. now intros [H _].
Qed.

Lemma save_to_parquet_failures_witness :
  save_to_parquet Faulty.no_mkdir
                  [mkRow "a" "song.mid" (Demo.payload 50) 50]
                  "/out/midi.parquet" Demo.os0 =
  (Raise (Exception "Permission denied"), Demo.os0) /\
  save_to_parquet Faulty.no_write
                  [mkRow "a" "song.mid" (Demo.payload 50) 50]
                  "/out/midi.parquet" Demo.os0 =
  (Raise (Exception "No space left on device"),
   mkOS [Saving "/out/midi.parquet"] [Mkdir "/out"]).
Proof.
  split.
  - apply (proj1 (save_to_parquet_failures
                    Faulty.no_mkdir
                    [mkRow "a" "song.mid" (Demo.payload 50) 50]
                    "/out/midi.parquet" Demo.os0));
      [discriminate | reflexivity].
  - apply (proj1 (proj2 (save_to_parquet_failures
                    Faulty.no_write
                    [mkRow "a" "song.mid" (Demo.payload 50) 50]
                    "/out/midi.parquet" Demo.os0)));
      [discriminate | reflexivity | reflexivity].
Defined.

(** X12.  [--no-plot] changes what is printed and nothing else: with and
    without it [main] returns the same value (or lets the same exception
    through) and performs the same file-system operations. *)
Theorem no_plot_changes_only_the_output (W : World) (as_completed : Scheduler)
        (input_dir output : string) (jobs : option Z) (s : OS) :
  fst (main W as_completed (mkArgs input_dir output jobs true) s) =
  fst (main W as_completed (mkArgs input_dir output jobs false) s) /\
  fs_ops (snd (main W as_completed (mkArgs input_dir output jobs true) s)) =
  fs_ops (snd (main W as_completed (mkArgs input_dir output jobs false) s)).
Proof.
  destruct (main_run W as_completed (mkArgs input_dir output jobs true) s)
    as [l1 H1].
  destruct (main_run W as_completed (mkArgs input_dir output jobs false) s)
    as [l2 H2].
  rewrite H1, H2. cbn [fst snd fs_ops]. split; reflexivity.
Qed.




(** ** Grouping and sorting *)

Lemma insert_desc_perm {A : Type} (f : A -> Z) (before : A -> A -> bool)
      (x : A) (l : list A) :
  Permutation (insert_desc f before x l) (x :: l).
Proof.
  induction l as [|y l IH]; cbn [insert_desc]; [apply Permutation_refl|].
  destruct (_ || _)%bool; [apply Permutation_refl|].
  transitivity (y :: x :: l); [now constructor | constructor].
Qed.

Lemma sort_desc_perm {A : Type} (f : A -> Z) (before : A -> A -> bool)
      (l : list A) :
  Permutation (sort_desc f before l) l.
Proof.
  unfold sort_desc. induction l as [|x l IH]; cbn [fold_right];
    [constructor|].
  transitivity (x :: fold_right (insert_desc f before) [] l);
    [apply insert_desc_perm | now constructor].
Qed.

Lemma insert_before_spec {A : Type} (f : A -> Z) (before : A -> A -> bool)
      (x y : A) :
  ((f y <? f x) || ((f y =? f x) && before x y))%bool = true -> f y <= f x.
Proof.
  intros H. apply orb_true_iff in H. destruct H as [H|H].
  - apply Z.ltb_lt in H. lia.
  - apply andb_true_iff in H. destruct H as [H _].
    apply Z.eqb_eq in H. lia.
Qed.

Lemma insert_after_spec {A : Type} (f : A -> Z) (before : A -> A -> bool)
      (x y : A) :
  ((f y <? f x) || ((f y =? f x) && before x y))%bool = false -> f x <= f y.
Proof.
  intros H. apply orb_false_iff in H. destruct H as [H _].
  apply Z.ltb_ge in H. lia.
Qed.

Lemma insert_desc_sorted {A : Type} (f : A -> Z) (before : A -> A -> bool)
      (x : A) (l : list A) :
  Sorted (fun a b => f b <= f a) l ->
  Sorted (fun a b => f b <= f a) (insert_desc f before x l).
Proof.
  induction l as [|y l IH]; intros Hs; cbn [insert_desc].
  - repeat constructor.
  - destruct (_ || _)%bool eqn:Hxy.
    + apply insert_before_spec in Hxy.
      constructor; [exact Hs|]. now constructor.
    + apply insert_after_spec in Hxy.
      inversion Hs as [|? ? Hs' Hhd]; subst. constructor; [now apply IH|].
      destruct l as [|z l]; cbn [insert_desc].
      * now constructor.
      * destruct (_ || _)%bool; constructor; [exact Hxy|].
        now inversion Hhd.
Qed.

Lemma sort_desc_sorted {A : Type} (f : A -> Z) (before : A -> A -> bool)
      (l : list A) :
  Sorted (fun a b => f b <= f a) (sort_desc f before l).
Proof.
  unfold sort_desc. induction l as [|x l IH]; cbn [fold_right];
    [constructor | now apply insert_desc_sorted].
Qed.

Lemma distinct_in (l : list string) (x : string) :
  In x (distinct l) <-> In x l.
Proof.
  induction l as [|y l IH]; [reflexivity|]. cbn [distinct In].
  rewrite filter_In, IH. split.
  - intros [H|[H _]]; auto.
  - intros [H|H]; [now left|].
    destruct (String.eqb_spec y x) as [E|N]; [now left|]. right.
    split; [exact H | reflexivity].
Qed.

Lemma distinct_nodup (l : list string) : NoDup (distinct l).
Proof.
  induction l as [|y l IH]; cbn [distinct]; constructor.
  - rewrite filter_In. intros [_ H]. now rewrite String.eqb_refl in H.
  - now apply NoDup_filter.
Qed.

Lemma sum_Z_cons (x : Z) (l : list Z) : sum_Z (x :: l) = x + sum_Z l.
Proof. reflexivity. Qed.

Lemma sum_Z_perm (l l' : list Z) : Permutation l l' -> sum_Z l = sum_Z l'.
Proof.
  unfold sum_Z.
  induction 1 as [|x l l' _ IH|x y l|l l' l'' _ IH1 _ IH2]; cbn [fold_right];
    lia.
Qed.

Lemma filter_all {A : Type} (f : A -> bool) (l : list A) :
  (forall x, In x l -> f x = true) -> filter f l = l.
Proof.
  induction l as [|x l IH]; intros H; [reflexivity|]. cbn [filter].
  rewrite (H x (or_introl eq_refl)), IH; [reflexivity|].
  intros y Hy. apply H. now right.
Qed.

Lemma sum_without (g : string -> Z) (k0 : string) (D : list string) :
  NoDup D -> (~ In k0 D -> g k0 = 0) ->
  g k0 + sum_Z (map g (filter (fun y => negb (String.eqb k0 y)) D)) =
  sum_Z (map g D).
Proof.
  induction D as [|d D IH]; intros Hnd H0.
  - cbn. rewrite H0; [reflexivity | intros []].
  - inversion Hnd as [|? ? Hd Hnd']; subst. cbn [filter].
    destruct (String.eqb_spec k0 d) as [<-|N]; cbn [negb].
    + rewrite filter_all; [reflexivity|].
      intros y Hy. apply negb_true_iff, String.eqb_neq. intros <-.
      now apply Hd.
    + cbn [map]. rewrite !sum_Z_cons.
      rewrite <- IH; [lia | exact Hnd'|].
      intros Hn. apply H0. intros [E|Hin]; [congruence | now apply Hn].
Qed.

(** Grouping loses nothing: a weight summed group by group is the weight
    summed over the table. *)
Lemma group_by_total (key : Row -> string) (w : Row -> Z) (df : Table) :
  sum_Z (map (fun k => sum_Z (map w (rows_where key df k)))
             (distinct (map key df))) =
  sum_Z (map w df).
Proof.
  induction df as [|r df IH]; [reflexivity|].
  cbn [map distinct]. rewrite !sum_Z_cons.
  unfold rows_where at 1. cbn [filter]. rewrite String.eqb_refl.
  cbn [map]. rewrite sum_Z_cons.
  rewrite (map_ext_in _ (fun k => sum_Z (map w (rows_where key df k)))).
  - rewrite <- IH, <- Z.add_assoc. f_equal.
    apply (sum_without (fun k => sum_Z (map w (rows_where key df k)))).
    + apply distinct_nodup.
    + intros Hn. rewrite distinct_in in Hn. unfold rows_where.
      replace (filter (fun r0 => String.eqb (key r0) (key r)) df) with
        (@nil Row); [reflexivity|].
      symmetry. clear IH. induction df as [|x df IHd]; [reflexivity|].
      cbn [filter]. destruct (String.eqb_spec (key x) (key r)) as [E|_].
      * exfalso. apply Hn. left. exact E.
      * apply IHd. intros H. apply Hn. now right.
  - intros k Hk. apply filter_In in Hk as [_ Hk].
    apply negb_true_iff in Hk. unfold rows_where. cbn [filter].
    now rewrite Hk.
Qed.

Lemma len_as_sum {A : Type} (l : list A) : len l = sum_Z (map (fun _ => 1) l).
Proof.
  unfold len. induction l as [|x l IH]; [reflexivity|].
  cbn [List.length map]. rewrite sum_Z_cons. lia.
Qed.

Lemma rows_where_nonempty (key : Row -> string) (df : Table) (k : string) :
  In k (map key df) -> 1 <= len (rows_where key df k).
Proof.
  intros H. apply in_map_iff in H as (r & Hk & Hr).
  assert (Hin : In r (rows_where key df k)).
  { unfold rows_where. apply filter_In. split; [exact Hr|].
    now apply String.eqb_eq. }
  unfold len. destruct (rows_where key df k); [destruct Hin|].
  cbn [List.length]. lia.
Qed.

Lemma size_category_is_a_bucket (r : Row) :
  In (size_category r) size_categories.
Proof.
  unfold size_category, get_size_category, size_categories.
  destruct (_ <? _); [now left|].
  destruct (_ <? _); [right; now left|].
  destruct (_ <? _); [do 2 right; now left|].
  destruct (_ <? _); [do 3 right; now left | do 4 right; now left].
Qed.

Lemma size_stats_perm (W : World) (df : Table) :
  Permutation (size_stats W df)
              (map (fun c => (c, bucket_count df c))
                   (distinct (map size_category df))).
Proof. apply sort_desc_perm. Qed.

Lemma size_stats_sum (W : World) (df : Table) :
  sum_Z (map snd (size_stats W df)) = height df.
Proof.
  rewrite (sum_Z_perm _ _ (Permutation_map snd (size_stats_perm W df))).
  rewrite map_map. cbn [snd]. unfold height. rewrite (len_as_sum df).
  rewrite <- (group_by_total size_category (fun _ => 1) df).
  f_equal. apply map_ext. intros c. apply len_as_sum.
Qed.

Lemma size_stats_nodup (W : World) (df : Table) :
  NoDup (map fst (size_stats W df)).
Proof.
  apply (Permutation_NoDup
           (Permutation_map fst (Permutation_sym (size_stats_perm W df)))).
  rewrite map_map. cbn [fst]. rewrite map_id. apply distinct_nodup.
Qed.

Lemma size_stats_in (W : World) (df : Table) (c : string) (n : Z) :
  In (c, n) (size_stats W df) ->
  In c size_categories /\ n = bucket_count df c /\ 1 <= n.
Proof.
  intros H. apply (Permutation_in _ (size_stats_perm W df)) in H.
  apply in_map_iff in H as (c' & E & Hc). injection E as -> <-.
  pose proof (proj1 (distinct_in _ _) Hc) as Hc'.
  split; [|split; [reflexivity | now apply rows_where_nonempty]].
  apply in_map_iff in Hc' as (r & <- & _).
  apply size_category_is_a_bucket.
Qed.

Lemma size_stats_length (W : World) (df : Table) :
  (List.length (size_stats W df) <= 5)%nat.
Proof.
  rewrite <- (length_map fst).
  apply (NoDup_incl_length (size_stats_nodup W df) (l' := size_categories)).
  intros c Hc. apply in_map_iff in Hc as ([c' n] & <- & Hc).
  now apply (size_stats_in W df c' n).
Qed.

(** X15.  The size histogram [plot_size_distribution] computes has one
    line for each bucket that is in use and none for an empty bucket:
    the buckets are distinct members of the five, so there are at most
    five lines; each count is the number of rows of that bucket and is
    at least 1; the counts come in descending order and add up to the
    number of rows. *)
Theorem size_stats_histogram (W : World) (df : Table) :
  sum_Z (map snd (size_stats W df)) = height df /\
  Sorted (fun a b => snd b <= snd a) (size_stats W df) /\
  NoDup (map fst (size_stats W df)) /\
  (forall c n, In (c, n) (size_stats W df) ->
               In c size_categories /\ n = bucket_count df c /\ 1 <= n) /\
  (forall r, In r df ->
             In (size_category r, bucket_count df (size_category r))
                (size_stats W df)) /\
  (List.length (size_stats W df) <= 5)%nat.
Proof.
  split; [apply size_stats_sum|].
  split; [apply sort_desc_sorted|].
  split; [apply size_stats_nodup|].
  split; [apply size_stats_in|].
  split; [|apply size_stats_length].
  intros r Hr.
  apply (Permutation_in _ (Permutation_sym (size_stats_perm W df))).
  apply in_map_iff. exists (size_category r). split; [reflexivity|].
  apply (proj2 (distinct_in _ _)), in_map. exact Hr.
Qed.

(** X16.  The group summary of [main] has one line per group present in
    the table, each group once; a line gives the number of rows of the
    group, which is at least 1, and the sum of their sizes; the lines
    come by descending count; the counts add up to the number of rows
    and the totals to the total size. *)
Theorem group_counts_summary (W : World) (df : Table) :
  sum_Z (map (fun row => snd (fst row)) (group_counts W df)) = height df /\
  sum_Z (map snd (group_counts W df)) = sum_sizes df /\
  Sorted (fun a b => snd (fst b) <= snd (fst a)) (group_counts W df) /\
  NoDup (map (fun row => fst (fst row)) (group_counts W df)) /\
  (forall g n t, In (g, n, t) (group_counts W df) ->
                 n = group_count df g /\ t = group_total df g /\ 1 <= n /\
                 exists r, In r df /\ group r = g) /\
  (forall r, In r df ->
             In (group r, group_count df (group r), group_total df (group r))
                (group_counts W df)).
Proof.
  unfold group_counts.
  set (raw := map (fun g => (g, len (rows_where group df g),
                                sum_sizes (rows_where group df g)))
                  (distinct (map group df))).
  pose proof (sort_desc_perm (fun row : string * Z * Z => snd (fst row))
                (fun a b => tie_order W (fst (fst a)) (fst (fst b))) raw)
    as HP.
  split; [|split; [|split; [|split; [|split]]]].
  - rewrite (sum_Z_perm _ _ (Permutation_map _ HP)). unfold raw.
    rewrite map_map. cbn [fst snd]. unfold height. rewrite (len_as_sum df).
    rewrite <- (group_by_total group (fun _ => 1) df).
    f_equal. apply map_ext. intros g. apply len_as_sum.
  - rewrite (sum_Z_perm _ _ (Permutation_map _ HP)). unfold raw.
    rewrite map_map. cbn [fst snd].
    exact (group_by_total group file_size df).
  - apply sort_desc_sorted.
  - apply (Permutation_NoDup
             (Permutation_map _ (Permutation_sym HP))).
    unfold raw. rewrite map_map. cbn [fst]. rewrite map_id.
    apply distinct_nodup.
  - intros g n t H. apply (Permutation_in _ HP) in H. unfold raw in H.
    apply in_map_iff in H as (g' & E & Hg). injection E as -> <- <-.
    apply (proj1 (distinct_in _ _)) in Hg.
    split; [reflexivity|]. split; [reflexivity|].
    split; [now apply rows_where_nonempty|].
    apply in_map_iff in Hg as (r & Hr & Hin). now exists r.
  - intros r Hr. apply (Permutation_in _ (Permutation_sym HP)). unfold raw.
    apply in_map_iff. exists (group r). split; [reflexivity|].
    apply (proj2 (distinct_in _ _)), in_map. exact Hr.
Qed.

(** Two groups of one row each: either of them may be printed first. *)
Example group_order_is_open :
  let df := [mkRow "b" "tune.midi" (Demo.payload 2050) 2050;
             mkRow "a" "song.mid" (Demo.payload 50) 50] in
  group_counts Demo.sound_world df =
  [("a"%string, 1, 50); ("b"%string, 1, 2050)] /\
  group_counts (with_tie_order Demo.sound_world
                               (fun x _ => String.eqb x "b")) df =
  [("b"%string, 1, 2050); ("a"%string, 1, 50)].
Proof. split; reflexivity. Qed.

(** *** Every order polars can produce is the order of some run

    Whatever list [out] holds the same rows by descending count, there
    is a tie order under which the sort returns exactly [out]. *)

Lemma insert_desc_in_front {A : Type} (count : A -> Z)
      (before : A -> A -> bool) (x y : A) (l : list A) :
  insert_desc count before x (y :: l) =
  if in_front count before x y then x :: y :: l
  else y :: insert_desc count before x l.
Proof. reflexivity. Qed.

Section AnyOrder.

Variable A : Type.
Variable count : A -> Z.
Variable before : A -> A -> bool.
Variable out : list A.

(** [a] is in front of [b], and [b] is not in front of [a]. *)
Hypothesis out_ordered :
  StronglySorted (fun a b => in_front count before a b = true /\
                             in_front count before b a = false) out.
Hypothesis out_nodup : NoDup out.

Lemma ordered_pairs (R : A -> A -> Prop) (l : list A) :
  StronglySorted R l ->
  forall x y, In x l -> In y l -> x = y \/ R x y \/ R y x.
Proof.
  induction 1 as [|a l Hs IH Hall]; intros x y Hx Hy; [destruct Hx|].
  rewrite Forall_forall in Hall.
  destruct Hx as [<-|Hx], Hy as [<-|Hy]; auto.
Qed.

Lemma in_front_asym (x y : A) :
  In x out -> In y out -> x <> y ->
  in_front count before x y = true -> in_front count before y x = false.
Proof.
  intros Hx Hy Hne H.
  destruct (ordered_pairs _ _ out_ordered x y Hx Hy) as [E|[[_ E]|[_ E]]];
    congruence.
Qed.

Lemma insert_desc_in_order (x : A) (l : list A) :
  NoDup (x :: l) -> incl (x :: l) out ->
  Sorted (fun a b => in_front count before b a = false) l ->
  Sorted (fun a b => in_front count before b a = false)
         (insert_desc count before x l).
Proof.
  induction l as [|y l IH]; intros Hnd Hin Hs.
  - repeat constructor.
  - rewrite insert_desc_in_front.
    assert (Hx : In x out) by (apply Hin; now left).
    assert (Hy : In y out) by (apply Hin; right; now left).
    assert (Hxy : x <> y).
    { intros ->. inversion Hnd as [|? ? Hn _]. apply Hn. now left. }
    destruct (in_front count before x y) eqn:E.
    + constructor; [exact Hs|]. constructor.
      now apply in_front_asym.
    + inversion Hs as [|? ? Hs' Hhd]; subst.
      assert (Hnd' : NoDup (x :: l)).
      { inversion Hnd as [|? ? Hn Hnd']; subst.
        inversion Hnd' as [|? ? _ Hnd'']; subst.
        constructor; [|exact Hnd'']. intros H. apply Hn. now right. }
      assert (Hin' : incl (x :: l) out).
      { intros z [<-|Hz]; [exact Hx|]. apply Hin. right. now right. }
      constructor; [now apply IH|].
      destruct l as [|z l]; [now constructor|].
      rewrite insert_desc_in_front.
      destruct (in_front count before x z); constructor; [exact E|].
      now inversion Hhd.
Qed.

Lemma sort_desc_in_order (l : list A) :
  NoDup l -> incl l out ->
  Sorted (fun a b => in_front count before b a = false)
         (sort_desc count before l).
Proof.
  unfold sort_desc. induction l as [|x l IH]; intros Hnd Hin;
    cbn [fold_right]; [constructor|].
  inversion Hnd as [|? ? Hn Hnd']; subst.
  assert (Hin' : incl l out) by (intros z Hz; apply Hin; now right).
  pose proof (sort_desc_perm count before l) as HP. unfold sort_desc in HP.
  apply insert_desc_in_order.
  - constructor.
    + intros H. apply Hn. exact (Permutation_in _ HP H).
    + exact (Permutation_NoDup (Permutation_sym HP) Hnd').
  - intros z [<-|Hz]; [apply Hin; now left|].
    apply Hin'. exact (Permutation_in _ HP Hz).
  - now apply IH.
Qed.

(** In a list sorted pair by pair, an element that is not the first has
    another element just before it. *)
Lemma has_predecessor (R : A -> A -> Prop) (r o : A) (l : list A) :
  NoDup (r :: l) -> Sorted R (r :: l) -> In o l ->
  exists p, In p (r :: l) /\ p <> o /\ R p o.
Proof.
  revert r. induction l as [|z l IH]; intros r Hnd Hs Ho; [destruct Ho|].
  inversion Hs as [|? ? Hs' Hhd]; subst. inversion Hhd; subst.
  inversion Hnd as [|? ? Hn Hnd']; subst.
  destruct Ho as [<-|Ho].
  - exists r. split; [now left|]. split; [|assumption].
    intros ->. apply Hn. now left.
  - destruct (IH z Hnd' Hs' Ho) as (p & Hp & Hne & HR).
    exists p. split; [now right | now split].
Qed.

End AnyOrder.

Lemma sorted_like_out {A : Type} (count : A -> Z) (before : A -> A -> bool)
      (out : list A) :
  StronglySorted (fun a b => in_front count before a b = true /\
                             in_front count before b a = false) out ->
  NoDup out ->
  forall l,
    Permutation l out ->
    Sorted (fun a b => in_front count before b a = false) l ->
    l = out.
Proof.
  induction out as [|o out IH]; intros Hord Hnd l HP Hs.
  - apply Permutation_sym in HP. now apply Permutation_nil in HP.
  - destruct l as [|r l]; [now apply Permutation_nil in HP|].
    inversion Hord as [|? ? Hord' Hall]; subst.
    rewrite Forall_forall in Hall.
    assert (Hnd_l : NoDup (r :: l))
      by exact (Permutation_NoDup (Permutation_sym HP) Hnd).
    assert (Er : r = o).
    { assert (Ho : In o (r :: l))
        by (apply (Permutation_in _ (Permutation_sym HP)); now left).
      destruct Ho as [E|Ho]; [exact E|].
      destruct (has_predecessor A _ r o l Hnd_l Hs Ho) as (p & Hp & Hne & HR).
      apply (Permutation_in _ HP) in Hp. destruct Hp as [E|Hp];
        [congruence|].
      destruct (Hall p Hp) as [E _]. cbv beta in HR. congruence. }
    subst r. f_equal.
    apply IH.
    + exact Hord'.
    + now inversion Hnd.
    + exact (Permutation_cons_inv HP).
    + now inversion Hs.
Qed.

Lemma sort_desc_any_order {A : Type} (count : A -> Z)
      (before : A -> A -> bool) (l out : list A) :
  StronglySorted (fun a b => in_front count before a b = true /\
                             in_front count before b a = false) out ->
  NoDup out -> Permutation l out ->
  sort_desc count before l = out.
Proof.
  intros Hord Hnd HP. apply (sorted_like_out count before out Hord Hnd).
  - transitivity l; [apply sort_desc_perm | exact HP].
  - apply (sort_desc_in_order A count before out Hord).
    + exact (Permutation_NoDup (Permutation_sym HP) Hnd).
    + intros z Hz. exact (Permutation_in _ HP Hz).
Qed.

Lemma precedes_skip (k : string) (keys : list string) (x y : string) :
  k <> x -> k <> y -> precedes (k :: keys) x y = precedes keys x y.
Proof.
  intros Hx Hy. cbn [precedes].
  destruct (String.eqb_spec k y); [congruence|].
  destruct (String.eqb_spec k x); [congruence | reflexivity].
Qed.

Lemma precedes_head (k : string) (keys : list string) (y : string) :
  k <> y ->
  precedes (k :: keys) k y = true /\ precedes (k :: keys) y k = false.
Proof.
  intros Hy. cbn [precedes]. rewrite String.eqb_refl.
  destruct (String.eqb_spec k y); [congruence | now split].
Qed.

(** A list with distinct keys, sorted by descending count, is in order
    for the tie order read off the list itself. *)
Lemma precedes_orders {A : Type} (count : A -> Z) (key : A -> string)
      (out : list A) :
  NoDup (map key out) ->
  StronglySorted (fun a b => count b <= count a) out ->
  forall front,
    (forall k a, In k front -> In a out -> k <> key a) ->
    StronglySorted
      (fun a b =>
         in_front count
                  (fun a b => precedes (front ++ map key out) (key a) (key b))
                  a b = true /\
         in_front count
                  (fun a b => precedes (front ++ map key out) (key a) (key b))
                  b a = false) out.
Proof.
  intros Hnd Hs. induction out as [|o out IH]; intros front Hfront;
    [constructor|].
  inversion Hs as [|? ? Hs' Hall]; subst.
  cbn [map] in Hnd. inversion Hnd as [|? ? Hn Hnd']; subst.
  assert (Hskip : forall x y,
             In x (o :: out) -> In y (o :: out) ->
             precedes (front ++ map key (o :: out)) (key x) (key y) =
             precedes (map key (o :: out)) (key x) (key y)).
  { intros x y Hx Hy. induction front as [|k front IHf]; [reflexivity|].
    cbn [app]. rewrite precedes_skip.
    - apply IHf. intros k' a Hk'. apply Hfront. now right.
    - apply Hfront; [now left | exact Hx].
    - apply Hfront; [now left | exact Hy]. }
  constructor.
  - replace (front ++ map key (o :: out))
      with ((front ++ [key o]) ++ map key out)
      by (rewrite <- app_assoc; reflexivity).
    apply (IH Hnd' Hs').
    intros k a Hk Ha. apply in_app_or in Hk as [Hk|[<-|[]]].
    + apply Hfront; [exact Hk | now right].
    + intros E. apply Hn. rewrite E. now apply in_map.
  - apply Forall_forall. intros b Hb.
    rewrite Forall_forall in Hall. specialize (Hall b Hb).
    assert (Hne : key o <> key b).
    { intros E. apply Hn. rewrite E. now apply in_map. }
    unfold in_front.
    rewrite !Hskip by (cbn [In]; auto).
    cbn [map]. destruct (precedes_head (key o) (map key out) (key b) Hne)
      as [-> ->].
    rewrite andb_true_r, andb_false_r, orb_false_r.
    split.
    + destruct (Z.ltb_spec (count b) (count o)); [reflexivity|].
      cbn [orb]. apply Z.eqb_eq. lia.
    + apply Z.ltb_ge. exact Hall.
Qed.

(** The group summary can come out in every order that is sorted by
    descending count. *)
Lemma group_counts_any_order (W : World) (df : Table)
      (out : list (string * Z * Z)) :
  Permutation out (group_counts W df) ->
  Sorted (fun a b => snd (fst b) <= snd (fst a)) out ->
  group_counts
    (with_tie_order W (precedes (map (fun row => fst (fst row)) out))) df =
  out.
Proof.
  intros HP Hs. unfold group_counts at 1. cbn [tie_order with_tie_order].
  set (raw := map (fun g => (g, len (rows_where group df g),
                                sum_sizes (rows_where group df g)))
                  (distinct (map group df))).
  assert (HPraw : Permutation raw out).
  { symmetry. transitivity (group_counts W df); [exact HP|].
    apply sort_desc_perm. }
  assert (Hkeys : NoDup (map (fun row : string * Z * Z => fst (fst row)) out)).
  { apply (Permutation_NoDup (Permutation_map _ HPraw)).
    unfold raw. rewrite map_map. cbn [fst]. rewrite map_id.
    apply distinct_nodup. }
  apply sort_desc_any_order.
  - apply (precedes_orders (fun row : string * Z * Z => snd (fst row))
                           (fun row => fst (fst row)) out Hkeys
             (Sorted_StronglySorted
                (fun a b c (H1 : snd (fst b) <= snd (fst a))
                           (H2 : snd (fst c) <= snd (fst b)) =>
                   Z.le_trans _ _ _ H2 H1) Hs)
             []).
    intros k a [].
  - exact (NoDup_map_inv _ _ Hkeys).
  - exact HPraw.
Qed.

(** So can the size histogram. *)
Lemma size_stats_any_order (W : World) (df : Table)
      (out : list (string * Z)) :
  Permutation out (size_stats W df) ->
  Sorted (fun a b => snd b <= snd a) out ->
  size_stats (with_tie_order W (precedes (map fst out))) df = out.
Proof.
  intros HP Hs. unfold size_stats at 1. cbn [tie_order with_tie_order].
  assert (HPraw : Permutation
                    (map (fun c => (c, len (rows_where size_category df c)))
                         (distinct (map size_category df))) out).
  { symmetry. transitivity (size_stats W df); [exact HP|].
    apply sort_desc_perm. }
  assert (Hkeys : NoDup (map (fun row : string * Z => fst row) out)).
  { apply (Permutation_NoDup (Permutation_map _ HPraw)).
    rewrite map_map. cbn [fst]. rewrite map_id. apply distinct_nodup. }
  apply sort_desc_any_order.
  - apply (precedes_orders (fun row : string * Z => snd row)
                           (fun row => fst row) out Hkeys
             (Sorted_StronglySorted
                (fun a b c (H1 : snd b <= snd a) (H2 : snd c <= snd b) =>
                   Z.le_trans _ _ _ H2 H1) Hs)
             []).
    intros k a [].
  - exact (NoDup_map_inv _ _ Hkeys).
  - exact HPraw.
Qed.

(** ** The size report *)

Lemma combine_fst_snd {A B : Type} (l : list (A * B)) :
  combine (map fst l) (map snd l) = l.
Proof.
  induction l as [|[a b] l IH]; [reflexivity|]. cbn [map combine fst snd].
  now rewrite IH.
Qed.

(** X17.  [plot_size_distribution] returns at once on an empty table,
    printing nothing.  On any other table it draws one bar per bucket in
    use (between one and five bars, whose heights add up to the number
    of rows), then prints the number of rows, the total, mean, largest
    and smallest size, and one line per bar.  It never raises and never
    touches the file system. *)
Theorem plot_size_distribution_report (W : World) (s : OS) :
  plot_size_distribution W [] s = (Ok tt, s) /\
  (forall df, df <> [] ->
     exists cats counts hi lo,
       plot_size_distribution W df s =
       (Ok tt,
        mkOS (stdout s ++
              PlotBar cats counts
              :: DetailStats (height df) (sum_sizes df) (avg_size df) hi lo
              :: CategoryHeader
              :: map (fun row => CategoryLine (fst row) (snd row) (height df))
                     (combine cats counts))
             (fs_ops s)) /\
       List.length cats = List.length counts /\
       (1 <= List.length cats <= 5)%nat /\
       sum_Z counts = height df /\
       max_size df = Some hi /\ min_size df = Some lo).
Proof.
  split; [reflexivity|]. intros df Hdf.
  pose proof (size_stats_sum W df) as Hsum.
  pose proof (size_stats_length W df) as Hlen.
  assert (Hne : size_stats W df <> []).
  { intros E. rewrite E in Hsum. cbn in Hsum. symmetry in Hsum.
    now apply height_0_nil in Hsum. }
  assert (Hhi : exists hi, max_size df = Some hi)
    by (destruct df; [congruence | eexists; reflexivity]).
  assert (Hlo : exists lo, min_size df = Some lo)
    by (destruct df; [congruence | eexists; reflexivity]).
  destruct Hhi as [hi Hhi]. destruct Hlo as [lo Hlo].
  exists (map fst (size_stats W df)), (map snd (size_stats W df)), hi, lo.
  split; [|split; [|split; [|split; [exact Hsum | now split]]]].
  - unfold plot_size_distribution. cbv zeta.
    replace (len (size_stats W df) =? 0) with false.
    + unfold bind. rewrite !print_run, for_print, !printed_app.
      rewrite Hhi, Hlo, combine_fst_snd. reflexivity.
    + symmetry. apply Z.eqb_neq. unfold len.
      destruct (size_stats W df); [congruence | cbn [List.length]; lia].
  - now rewrite !length_map.
  - rewrite length_map. split; [|exact Hlen].
    destruct (size_stats W df); [congruence | cbn [List.length]; lia].
Qed.

Lemma plot_size_distribution_report_witness :
  exists cats counts hi lo,
    plot_size_distribution Demo.world [mkRow "a" "song.mid" (Demo.payload 50) 50]
                           Demo.os0 =
    (Ok tt,
     mkOS (stdout Demo.os0 ++
           PlotBar cats counts
           :: DetailStats 1 50 50 hi lo
           :: CategoryHeader
           :: map (fun row => CategoryLine (fst row) (snd row) 1)
                  (combine cats counts))
          (fs_ops Demo.os0)) /\
    List.length cats = List.length counts /\
    (1 <= List.length cats <= 5)%nat /\
    sum_Z counts = 1 /\
    max_size [mkRow "a" "song.mid" (Demo.payload 50) 50] = Some hi /\
    min_size [mkRow "a" "song.mid" (Demo.payload 50) 50] = Some lo.
Proof.
  apply (proj2 (plot_size_distribution_report Demo.world Demo.os0)
               [mkRow "a" "song.mid" (Demo.payload 50) 50]).
  discriminate.
Defined.

Lemma sum_between (lo hi : Z) (l : list Z) :
  (forall y, In y l -> lo <= y <= hi) ->
  len l * lo <= sum_Z l <= len l * hi.
Proof.
  unfold len. induction l as [|x l IH]; intros H; [cbn; lia|].
  rewrite sum_Z_cons. cbn [List.length].
  assert (Hx := H x (or_introl eq_refl)).
  assert (IH' := IH (fun y Hy => H y (or_intror Hy))). nia.
Qed.

Lemma sum_sizes_is_content (df : Table) :
  Forall row_ok df ->
  sum_sizes df = len (concat (map content df)).
Proof.
  unfold sum_sizes, len.
  induction 1 as [|r df Hr _ IH]; [reflexivity|].
  cbn [map fold_right concat]. rewrite List.length_app, IH, Hr.
  unfold len. lia.
Qed.

(** X18.  The figures of the size report fit together for every
    non-empty table [process_archives] returns: the smallest size is not
    negative, the mean lies between the smallest and the largest size,
    the largest is at most the total, and the total is the number of
    bytes held in the [content] column. *)
Theorem size_figures_fit_together (W : World) (as_completed : Scheduler)
        (archives : list Path) (jobs : option Z) (s s' : OS) (df : Table) :
  process_archives W as_completed archives jobs s = (Ok df, s') ->
  df <> [] ->
  exists lo hi,
    min_size df = Some lo /\ max_size df = Some hi /\
    0 <= lo /\ lo <= avg_size df <= hi /\ hi <= sum_sizes df /\
    sum_sizes df = len (concat (map content df)).
Proof.
  intros Hrun Hdf.
  assert (Hok : Forall row_ok df).
  { rewrite (process_archives_table _ _ _ _ _ _ _ Hrun). apply collected_ok. }
  assert (Hpos : forall y, In y (map file_size df) -> 0 <= y).
  { intros y Hy. apply in_map_iff in Hy as (r & <- & Hr).
    rewrite Forall_forall in Hok. rewrite (Hok r Hr). unfold len. lia. }
  unfold min_size, max_size, avg_size, sum_sizes, height.
  fold (sum_Z (map file_size df)).
  assert (Hlen : len df = len (map file_size df))
    by (unfold len; now rewrite length_map).
  rewrite Hlen.
  assert (Hc : sum_Z (map file_size df) = len (concat (map content df)))
    by exact (sum_sizes_is_content df Hok).
  rewrite <- Hc. clear Hc Hlen Hok Hrun.
  destruct (map file_size df) as [|x l] eqn:E.
  { destruct df; [congruence | discriminate E]. }
  exists (fold_right Z.min x l), (fold_right Z.max x l).
  set (lo := fold_right Z.min x l). set (hi := fold_right Z.max x l).
  assert (Hlo : forall y, In y (x :: l) -> lo <= y).
  { intros y Hy. apply Z.ge_le.
    apply (fold_bound Z.min Z.ge); intros; try lia. exact Hy. }
  assert (Hhi : forall y, In y (x :: l) -> y <= hi).
  { intros y Hy. apply (fold_bound Z.max Z.le); intros; try lia. exact Hy. }
  assert (Hlo_in : In lo (x :: l))
    by (apply (fold_in Z.min); intros; lia).
  assert (Hhi_in : In hi (x :: l))
    by (apply (fold_in Z.max); intros; lia).
  assert (Hb := sum_between lo hi (x :: l)
                  (fun y Hy => conj (Hlo y Hy) (Hhi y Hy))).
  assert (Hn : 0 < len (x :: l)) by (unfold len; cbn [List.length]; lia).
  assert (H0 : 0 <= lo) by (apply Hpos, Hlo_in).
  assert (Hs : 0 <= sum_Z (x :: l)) by nia.
  split; [reflexivity|]. split; [reflexivity|]. split; [exact H0|].
  rewrite Z.quot_div_nonneg by lia. split; [split|].
  - apply Z.div_le_lower_bound; lia.
  - apply Z.div_le_upper_bound; lia.
  - clear - Hhi_in Hpos. 
    assert (G : forall l0 y, (forall z, In z l0 -> 0 <= z) -> In y l0 ->
                             y <= sum_Z l0).
    { induction l0 as [|a l0 IH]; intros y Hp [].
      - subst. rewrite sum_Z_cons.
        assert (0 <= sum_Z l0); [|lia].
        clear - Hp. induction l0 as [|b l0 IH]; [cbn; lia|].
        rewrite sum_Z_cons.
        assert (0 <= b) by (apply Hp; right; now left).
        assert (0 <= sum_Z l0); [|lia].
        apply IH. intros z [->|Hz]; apply Hp; [now left | right; now right].
      - rewrite sum_Z_cons. assert (0 <= a) by (apply Hp; now left).
        assert (y <= sum_Z l0); [|lia].
        apply IH; [|assumption]. intros z Hz. apply Hp. now right. }
    split; [apply G; assumption | reflexivity].
Qed.

Lemma size_figures_fit_together_witness :
  exists lo hi,
    min_size [mkRow "a" "song.mid" (Demo.payload 50) 50;
              mkRow "b" "tune.midi" (Demo.payload 2050) 2050] = Some lo /\
    max_size [mkRow "a" "song.mid" (Demo.payload 50) 50;
              mkRow "b" "tune.midi" (Demo.payload 2050) 2050] = Some hi /\
    0 <= lo /\
    lo <= avg_size [mkRow "a" "song.mid" (Demo.payload 50) 50;
                    mkRow "b" "tune.midi" (Demo.payload 2050) 2050] <= hi /\
    hi <= sum_sizes [mkRow "a" "song.mid" (Demo.payload 50) 50;
                     mkRow "b" "tune.midi" (Demo.payload 2050) 2050] /\
    sum_sizes [mkRow "a" "song.mid" (Demo.payload 50) 50;
               mkRow "b" "tune.midi" (Demo.payload 2050) 2050] =
    len (concat (map content
                     [mkRow "a" "song.mid" (Demo.payload 50) 50;
                      mkRow "b" "tune.midi" (Demo.payload 2050) 2050])).
Proof.
  apply (size_figures_fit_together
           Demo.world Demo.last_first
           ["/data/b.tar.gz"; "/data/bad.tar.gz"; "/data/a.zip"] None
           Demo.os0
           (snd (process_archives Demo.world Demo.last_first
                   ["/data/b.tar.gz"; "/data/bad.tar.gz"; "/data/a.zip"]
                   None Demo.os0))).
  - vm_compute. reflexivity.
  - discriminate.
Defined.

(** ** [format_size] *)

Lemma round_half_even_near (a d : Z) :
  0 < d -> 2 * Z.abs (a - d * round_half_even a d) <= d.
Proof.
  intros Hd. unfold round_half_even. cbv zeta.
  pose proof (Z.div_mod a d ltac:(lia)) as Hdm.
  pose proof (Z.mod_pos_bound a d Hd) as Hr.
  destruct (Z.ltb_spec (2 * (a mod d)) d);
    [|destruct (Z.ltb_spec d (2 * (a mod d)));
      [|destruct (Z.even (a / d))]]; nia.
Qed.

(** X19.  [format_size] picks the unit by the thresholds 1024, 1024^2 and
    1024^3 (a size below 1024, also a negative one, is printed as it is
    with " B") and prints the other sizes with one decimal: the number
    of tenths shown is within half a tenth of the exact quotient, so the
    text is never off by more than 0.05 of the unit, and it is at least
    1.0.  (Sizes of 2^53 bytes and more are left out: there the float
    quotient is itself rounded.) *)
Theorem format_size_is_accurate (n : Z) :
  (n < 1024 -> format_size n = (str_int n ++ " B")%string) /\
  (1024 <= n < 1024 * 1024 ->
   exists t,
     format_size n =
     ((str_int (t / 10) ++ "." ++ str_int (t mod 10)) ++ " KB")%string /\
     10 <= t <= 10240 /\ 2 * Z.abs (10 * n - 1024 * t) <= 1024) /\
  (1024 * 1024 <= n < 1024 * 1024 * 1024 ->
   exists t,
     format_size n =
     ((str_int (t / 10) ++ "." ++ str_int (t mod 10)) ++ " MB")%string /\
     10 <= t <= 10240 /\
     2 * Z.abs (10 * n - 1024 * 1024 * t) <= 1024 * 1024) /\
  (1024 * 1024 * 1024 <= n < 2 ^ 53 ->
   exists t,
     format_size n =
     ((str_int (t / 10) ++ "." ++ str_int (t mod 10)) ++ " GB")%string /\
     10 <= t /\
     2 * Z.abs (10 * n - 1024 * 1024 * 1024 * t) <= 1024 * 1024 * 1024).
Proof.
  unfold format_size, fixed1. cbv zeta.
  split; [|split; [|split]]; intros H.
  - destruct (Z.ltb_spec n 1024); [reflexivity | lia].
  - destruct (Z.ltb_spec n 1024); [lia|].
    destruct (Z.ltb_spec n (1024 * 1024)); [|lia].
    exists (round_half_even (10 * n) 1024). split; [reflexivity|].
    pose proof (round_half_even_near (10 * n) 1024 ltac:(lia)). lia.
  - destruct (Z.ltb_spec n 1024); [lia|].
    destruct (Z.ltb_spec n (1024 * 1024)); [lia|].
    destruct (Z.ltb_spec n (1024 * 1024 * 1024)); [|lia].
    exists (round_half_even (10 * n) (1024 * 1024)). split; [reflexivity|].
    pose proof (round_half_even_near (10 * n) (1024 * 1024) ltac:(lia)). lia.
  - destruct (Z.ltb_spec n 1024); [lia|].
    destruct (Z.ltb_spec n (1024 * 1024)); [lia|].
    destruct (Z.ltb_spec n (1024 * 1024 * 1024)); [lia|].
    exists (round_half_even (10 * n) (1024 * 1024 * 1024)).
    split; [reflexivity|].
    pose proof (round_half_even_near (10 * n) (1024 * 1024 * 1024)
                                     ltac:(lia)). lia.
Qed.

Lemma format_size_is_accurate_witness :
  format_size 1000 = "1000 B"%string /\
  exists t,
    format_size 2100 =
    ((str_int (t / 10) ++ "." ++ str_int (t mod 10)) ++ " KB")%string /\
    10 <= t <= 10240 /\ 2 * Z.abs (10 * 2100 - 1024 * t) <= 1024.
Proof.
  split.
  - apply (proj1 (format_size_is_accurate 1000)). lia.
  - apply (proj1 (proj2 (format_size_is_accurate 2100))). lia.
Defined.

Lemma round_to_10240 (n d : Z) :
  0 < d -> 2 * (10 * n) >= 20479 * d -> 10 * n < 10240 * d ->
  round_half_even (10 * n) d = 10240.
Proof.
  intros Hd Hlo Hhi. unfold round_half_even. cbv zeta.
  assert (Hq : 10 * n / d = 10239).
  { symmetry. apply (Z.div_unique _ _ _ (10 * n - d * 10239)); lia. }
  assert (Hr : (10 * n) mod d = 10 * n - d * 10239).
  { symmetry. apply (Z.mod_unique _ _ 10239); lia. }
  rewrite Hq, Hr.
  destruct (Z.ltb_spec (2 * (10 * n - d * 10239)) d); [lia|].
  destruct (Z.ltb_spec d (2 * (10 * n - d * 10239))); [reflexivity|].
  reflexivity.
Qed.

(** X20.  The unit changes at the threshold, not where the rounded
    number would reach 1024.0: the last 51 sizes before 1024^2 are
    printed ["1024.0 KB"], and the sizes from 1073689396 up to 1024^3
    (not included) are printed ["1024.0 MB"], while the thresholds
    themselves print ["1.0 MB"] and ["1.0 GB"]. *)
Theorem format_size_shows_1024 (n : Z) :
  (1048525 <= n < 1048576 -> format_size n = "1024.0 KB"%string) /\
  (1073689396 <= n < 1073741824 -> format_size n = "1024.0 MB"%string) /\
  format_size 1048576 = "1.0 MB"%string /\
  format_size 1073741824 = "1.0 GB"%string.
Proof.
  split; [|split; [|split; vm_compute; reflexivity]]; intros H;
    unfold format_size, fixed1; cbv zeta.
  - destruct (Z.ltb_spec n 1024); [lia|].
    destruct (Z.ltb_spec n (1024 * 1024)); [|lia].
    rewrite round_to_10240 by lia. vm_compute. reflexivity.
  - destruct (Z.ltb_spec n 1024); [lia|].
    destruct (Z.ltb_spec n (1024 * 1024)); [lia|].
    destruct (Z.ltb_spec n (1024 * 1024 * 1024)); [|lia].
    rewrite round_to_10240 by lia. vm_compute. reflexivity.
Qed.

Lemma format_size_shows_1024_witness :
  format_size 1048575 = "1024.0 KB"%string /\
  format_size 1073741823 = "1024.0 MB"%string.
Proof.
  split.
  - apply (proj1 (format_size_shows_1024 1048575)). lia.
  - apply (proj1 (proj2 (format_size_shows_1024 1073741823))). lia.
Defined.

(** ** The group of a discovered tar-gzip archive *)

(** X21.  For every archive the pattern [*.tar.gz] finds, the group is
    the file name without ".tar.gz" and with every ".tar" inside it
    removed as well; it is the file name without ".tar.gz" exactly when
    that name holds no other ".tar". *)
Theorem tar_group_of_discovered (p : Path) (base : string) :
  discovered_as ".tar.gz" p ->
  PyPath.name p = (base ++ ".tar.gz")%string ->
  tar_group p = PyStr.replace base ".tar" "" /\
  (PyStr.contains base ".tar" = false -> tar_group p = base) /\
  (PyStr.contains base ".tar" = true -> tar_group p <> base).
Proof.
  intros _ Hn. rewrite (tar_group_removes_every_tar p base Hn).
  split; [reflexivity|]. split; [apply replace_absent|].
  intros Hc E.
  assert (Hlen : forall s k,
             (String.length (PyStr.replace_from ".tar" "" k s) <=
              String.length s - k)%nat /\
             (k = 0%nat -> PyStr.contains s ".tar" = true ->
              String.length (PyStr.replace_from ".tar" "" 0 s) <
              String.length s)%nat).
  { induction s as [|c s IH]; intros k.
    - split; [simpl; lia|]. intros _ H. discriminate H.
    - destruct k as [|k].
      + cbn [PyStr.replace_from PyStr.contains].
        destruct (PyStr.startswith (String c s) ".tar") eqn:Es.
        * apply startswith_length in Es.
          change (String.length ".tar" - 1)%nat with 3%nat.
          change (String.length ".tar") with 4%nat in Es.
          cbn [String.append String.length] in *.
          pose proof (proj1 (IH 3%nat)) as H1. split; intros; lia.
        * cbn [String.length]. destruct (IH 0%nat) as [H1 H2].
          split; [lia|]. intros _ H. specialize (H2 eq_refl H). lia.
      + cbn [PyStr.replace_from String.length].
        pose proof (proj1 (IH k)) as H1. split; [lia | discriminate]. }
  pose proof (proj2 (Hlen base 0%nat) eq_refl Hc) as H.
  unfold PyStr.replace in E. rewrite E in H. lia.
Qed.

Lemma tar_group_of_discovered_witness :
  tar_group "/data/my.tarball.tar.gz" = "myball"%string /\
  tar_group "/data/b.tar.gz" = "b"%string.
Proof.
  split.
  - apply (proj1 (tar_group_of_discovered "/data/my.tarball.tar.gz"
                                          "my.tarball"
                                          (conj (ex_intro _ "my.tarball"%string
                                                          eq_refl) eq_refl)
                                          eq_refl)).
  - apply (proj1 (proj2 (tar_group_of_discovered "/data/b.tar.gz" "b"
                           (conj (ex_intro _ "b"%string eq_refl) eq_refl)
                           eq_refl))).
    reflexivity.
Defined.

(** ** More examples on the example environment *)


Lemma size_stats_histogram_witness :
  In ("< 1KB"%string, 1)
     (size_stats Demo.world
                 [mkRow "a" "song.mid" (Demo.payload 50) 50;
                  mkRow "b" "tune.midi" (Demo.payload 2050) 2050]).
Proof.
  apply (proj1 (proj2 (proj2 (proj2 (proj2
           (size_stats_histogram
              Demo.world
              [mkRow "a" "song.mid" (Demo.payload 50) 50;
               mkRow "b" "tune.midi" (Demo.payload 2050) 2050])))))
         (mkRow "a" "song.mid" (Demo.payload 50) 50)).
  left. reflexivity.
Defined.

Lemma group_counts_summary_witness :
  In ("b"%string, 1, 2050)
     (group_counts Demo.world
                   [mkRow "a" "song.mid" (Demo.payload 50) 50;
                    mkRow "b" "tune.midi" (Demo.payload 2050) 2050]).
Proof.
  apply (proj2 (proj2 (proj2 (proj2 (proj2
           (group_counts_summary
              Demo.world
              [mkRow "a" "song.mid" (Demo.payload 50) 50;
               mkRow "b" "tune.midi" (Demo.payload 2050) 2050])))))
         (mkRow "b" "tune.midi" (Demo.payload 2050) 2050)).
  right. left. reflexivity.
Defined.
